(** * DateNest: the library store, its annotation rules, search, rescan,
      archive codec and the file importer, embedded from the Python sources.

    - [Lib]      : [src/scripts/init_db.py] (schema, trigger) and class [DB]
                   of [src/app.py].
    - [Query]    : [MainWindow._parse_date] and [MainWindow.on_search].
    - [Rescan]   : the CSV auto-link block of [MainWindow.reload_all].
    - [Archive]  : [MainWindow.export_selection] / [MainWindow.import_archive].
    - [Importer] : [src/datenest/db.py] and [src/datenest/importer.py].

    SQL tables are lists of rows in rowid order; [fetchone] is the first
    matching row.  The wall clock ([datetime.now()]) is an explicit argument
    of every operation that reads it. *)

From Stdlib Require Import List String Ascii ZArith Lia Bool Arith Permutation.
Import ListNotations.

Local Open Scope Z_scope.
Local Open Scope string_scope.

(* ================================================================== *)
(** ** Strings as the code uses them                                  *)
(* ================================================================== *)

(** Python [str] values are modelled as byte strings; [lower], [split] and
    [strip] act on the ASCII range (bytes of non-ASCII characters are kept
    as they are). *)
Module Str.

(** [str.isspace] on ASCII: TAB..CR, FS..US and the space. *)
Definition is_space (c : ascii) : bool :=
  let n := nat_of_ascii c in
  ((9 <=? n) && (n <=? 13) || (28 <=? n) && (n <=? 32))%nat.

Definition lower_char (c : ascii) : ascii :=
  let n := nat_of_ascii c in
  if ((65 <=? n) && (n <=? 90))%nat then ascii_of_nat (n + 32) else c.

Fixpoint lower (s : string) : string :=
  match s with
  | EmptyString => EmptyString
  | String c r => String (lower_char c) (lower r)
  end.

Fixpoint rev_onto (s acc : string) : string :=
  match s with
  | EmptyString => acc
  | String c r => rev_onto r (String c acc)
  end.

Definition rev (s : string) : string := rev_onto s EmptyString.

Fixpoint lstrip (s : string) : string :=
  match s with
  | EmptyString => EmptyString
  | String c r => if is_space c then lstrip r else s
  end.

Definition rstrip (s : string) : string := rev (lstrip (rev s)).

Definition strip (s : string) : string := rstrip (lstrip s).

(** [s[n:]] *)
Fixpoint drop (n : nat) (s : string) : string :=
  match n, s with
  | O, _ => s
  | S _, EmptyString => EmptyString
  | S n', String _ r => drop n' r
  end.

(** [s[:n]] *)
Fixpoint take (n : nat) (s : string) : string :=
  match n, s with
  | O, _ => EmptyString
  | S _, EmptyString => EmptyString
  | S n', String c r => String c (take n' r)
  end.

(** [sub in s] *)
Definition contains (sub s : string) : bool :=
  match index 0 sub s with
  | Some _ => true
  | None => false
  end.

(** [s.split()]: maximal runs of non-space characters. *)
Fixpoint split_from (cur s : string) : list string :=
  match s with
  | EmptyString => if cur =? "" then [] else [cur]
  | String c r =>
      if is_space c
      then (if cur =? "" then split_from "" r else cur :: split_from "" r)
      else split_from (cur ++ String c "") r
  end.

Definition split (s : string) : list string := split_from "" s.

(** [s.split(sep, 1)]: the parts before and after the first [sep], when
    [sep] occurs. *)
Definition split_once (sep s : string) : option (string * string) :=
  match index 0 sep s with
  | Some k => Some (take k s, drop (k + String.length sep) s)
  | None => None
  end.

End Str.

(* ================================================================== *)
(** ** Stable sorting ([list.sort], [ORDER BY] on rowid-ordered rows) *)
(* ================================================================== *)

Module Order.

Fixpoint insert_le {A} (le : A -> A -> bool) (x : A) (sorted : list A) : list A :=
  match sorted with
  | [] => [x]
  | y :: r => if le x y then x :: sorted else y :: insert_le le x r
  end.

(** Elements that compare equal keep their order. *)
Definition stable_sort {A} (le : A -> A -> bool) (l : list A) : list A :=
  fold_right (insert_le le) [] l.

End Order.

(* ================================================================== *)
(** ** The store of [app.py] over the schema of [init_db.py]          *)
(* ================================================================== *)

Module Lib.

(** *** Rows.  Columns the code never writes ([images.run_id],
    [images.parent_sha256]) stay NULL and are left out; the tables [runs],
    [metrics] and [authoritative] are never touched by [app.py]. *)

Record user_row := mk_user
  { u_id : Z; u_username : string; u_display_name : option string }.

Record image_row := mk_image
  { i_id : Z; i_rel_path : string; i_sha256 : string;
    i_created_at : option string }.

Record tag_row := mk_tag
  { t_id : Z; t_name : string; t_category : string;
    t_description : option string }.

Record annotation_row := mk_annotation
  { a_id : Z; a_image_id : Z; a_tag_id : Z; a_user_id : Z;
    a_created_at : string; a_is_deleted : Z }.

(** [score REAL] is only stored and read back; it is carried as an opaque
    number. *)
Record vote_row := mk_vote
  { q_id : Z; q_image_id : Z; q_user_id : Z; q_label : string;
    q_score : option Z; q_created_at : string }.

Record attachment_row := mk_attachment
  { x_id : Z; x_image_id : Z; x_kind : string; x_rel_path : string;
    x_sha256 : string; x_created_at : option string }.

Record store := mk_store
  { users : list user_row;
    images : list image_row;
    tags : list tag_row;
    annotations : list annotation_row;
    quality_votes : list vote_row;
    attachments : list attachment_row }.

Definition empty : store := mk_store [] [] [] [] [] [].

Definition set_users (s : store) l :=
  mk_store l (images s) (tags s) (annotations s) (quality_votes s) (attachments s).
Definition set_images (s : store) l :=
  mk_store (users s) l (tags s) (annotations s) (quality_votes s) (attachments s).
Definition set_tags (s : store) l :=
  mk_store (users s) (images s) l (annotations s) (quality_votes s) (attachments s).
Definition set_annotations (s : store) l :=
  mk_store (users s) (images s) (tags s) l (quality_votes s) (attachments s).
Definition set_quality_votes (s : store) l :=
  mk_store (users s) (images s) (tags s) (annotations s) l (attachments s).
Definition set_attachments (s : store) l :=
  mk_store (users s) (images s) (tags s) (annotations s) (quality_votes s) l.

(** *** Errors.  Every constructor is a [sqlite3.IntegrityError]; the
    trigger's [RAISE(ABORT, 'Max 5 annotators per image')] is
    [CapacityExceeded]. *)

Inductive error :=
| CapacityExceeded
| UniqueViolation
| ForeignKeyViolation
| CheckViolation.

(** A call threads the store and either returns or raises.  A statement
    that raises leaves the store as it was before that statement; what
    earlier statements of the same call committed stays. *)
Definition M (A : Type) : Type := store -> store * (error + A).

Definition ret {A} (a : A) : M A := fun s => (s, inr a).
Definition raise {A} (e : error) : M A := fun s => (s, inl e).
Definition bind {A B} (m : M A) (k : A -> M B) : M B :=
  fun s => match m s with
           | (s', inr a) => k a s'
           | (s', inl e) => (s', inl e)
           end.
Definition get : M store := fun s => (s, inr s).
Definition put (s' : store) : M unit := fun _ => (s', inr tt).

Notation "x <- m ;; k" := (bind m (fun x => k))
  (at level 61, m at next level, right associativity).
Notation "m ;;; k" := (bind m (fun _ => k))
  (at level 61, right associativity).

(** [INTEGER PRIMARY KEY] without AUTOINCREMENT: the next rowid is one more
    than the largest in the table, 1 in an empty table. *)
Definition next_rowid (ids : list Z) : Z := 1 + fold_right Z.max 0 ids.

(** *** Lookups (the SELECTs). *)

Definition find_user (s : store) (username : string) : option user_row :=
  find (fun r => u_username r =? username) (users s).

Definition find_image_by_sha (s : store) (sha : string) : option image_row :=
  find (fun r => i_sha256 r =? sha) (images s).

Definition find_tag (s : store) (name category : string) : option tag_row :=
  find (fun r => (t_name r =? name) && (t_category r =? category)) (tags s).

Definition is_triple (image_id tag_id user_id : Z) (a : annotation_row) : bool :=
  (a_image_id a =? image_id)%Z && (a_tag_id a =? tag_id)%Z
  && (a_user_id a =? user_id)%Z.

Definition find_annotation (s : store) (image_id tag_id user_id : Z)
  : option annotation_row :=
  find (is_triple image_id tag_id user_id) (annotations s).

Definition find_attachment_by_sha (s : store) (sha : string)
  : option attachment_row :=
  find (fun r => x_sha256 r =? sha) (attachments s).

Definition has_image (s : store) (id : Z) : bool :=
  existsb (fun r => (i_id r =? id)%Z) (images s).
Definition has_tag (s : store) (id : Z) : bool :=
  existsb (fun r => (t_id r =? id)%Z) (tags s).
Definition has_user (s : store) (id : Z) : bool :=
  existsb (fun r => (u_id r =? id)%Z) (users s).

(** *** [trg_limit_annotators]:
    [SELECT COUNT(DISTINCT user_id) FROM annotations
      WHERE image_id = NEW.image_id AND is_deleted = 0]. *)

Definition is_active_on (image_id : Z) (a : annotation_row) : bool :=
  (a_image_id a =? image_id)%Z && (a_is_deleted a =? 0)%Z.

Definition active_annotators (s : store) (image_id : Z) : list Z :=
  nodup Z.eq_dec (map a_user_id (filter (is_active_on image_id) (annotations s))).

Definition count_annotators (s : store) (image_id : Z) : nat :=
  List.length (active_annotators s image_id).

Definition trg_limit_annotators (s : store) (new_image_id : Z) : bool :=
  (5 <=? count_annotators s new_image_id)%nat.

(** *** The INSERT statements with their constraints.  The BEFORE INSERT
    trigger runs first, then UNIQUE, then the foreign keys
    ([PRAGMA foreign_keys=ON] is set by [DB.__init__]). *)

Definition insert_user (username : string) (display_name : option string) : M Z :=
  fun s =>
    if existsb (fun r => u_username r =? username) (users s)
    then (s, inl UniqueViolation)
    else let id := next_rowid (map u_id (users s)) in
         (set_users s (users s ++ [mk_user id username display_name]), inr id).

Definition insert_image (rel_path sha : string) (created_at : option string) : M Z :=
  fun s =>
    if existsb (fun r => i_sha256 r =? sha) (images s)
    then (s, inl UniqueViolation)
    else let id := next_rowid (map i_id (images s)) in
         (set_images s (images s ++ [mk_image id rel_path sha created_at]), inr id).

Definition insert_tag (name category : string) (description : option string) : M Z :=
  fun s =>
    if existsb (fun r => (t_name r =? name) && (t_category r =? category)) (tags s)
    then (s, inl UniqueViolation)
    else let id := next_rowid (map t_id (tags s)) in
         (set_tags s (tags s ++ [mk_tag id name category description]), inr id).

Definition insert_annotation (image_id tag_id user_id : Z) (created_at : string)
  : M Z :=
  fun s =>
    if trg_limit_annotators s image_id then (s, inl CapacityExceeded)
    else if existsb (is_triple image_id tag_id user_id) (annotations s)
    then (s, inl UniqueViolation)
    else if negb (has_image s image_id && has_tag s tag_id && has_user s user_id)
    then (s, inl ForeignKeyViolation)
    else let id := next_rowid (map a_id (annotations s)) in
         (set_annotations s
            (annotations s ++ [mk_annotation id image_id tag_id user_id created_at 0]),
          inr id).

Definition insert_attachment (image_id : Z) (kind rel_path sha : string)
  (created_at : option string) : M Z :=
  fun s =>
    if existsb (fun r => x_sha256 r =? sha) (attachments s)
    then (s, inl UniqueViolation)
    else if negb (has_image s image_id) then (s, inl ForeignKeyViolation)
    else let id := next_rowid (map x_id (attachments s)) in
         (set_attachments s
            (attachments s ++ [mk_attachment id image_id kind rel_path sha created_at]),
          inr id).

Definition label_ok (label : string) : bool :=
  (label =? "good") || (label =? "review") || (label =? "bad").

Definition same_voter (image_id user_id : Z) (q : vote_row) : bool :=
  (q_image_id q =? image_id)%Z && (q_user_id q =? user_id)%Z.

(** [INSERT OR REPLACE INTO quality_votes]: the CHECK on [label] aborts;
    rows that clash on [UNIQUE(image_id, user_id)] are deleted and the new
    row is written with a fresh rowid. *)
Definition insert_or_replace_vote (image_id user_id : Z) (label : string)
  (score : option Z) (created_at : string) : M unit :=
  fun s =>
    if negb (label_ok label) then (s, inl CheckViolation)
    else if negb (has_image s image_id && has_user s user_id)
    then (s, inl ForeignKeyViolation)
    else let id := next_rowid (map q_id (quality_votes s)) in
         (set_quality_votes s
            (filter (fun q => negb (same_voter image_id user_id q)) (quality_votes s)
             ++ [mk_vote id image_id user_id label score created_at]),
          inr tt).

(** *** The UPDATE statements. *)

Definition update_image_path (id : Z) (rel_path : string) : M unit :=
  fun s =>
    (set_images s
       (map (fun r => if (i_id r =? id)%Z
                      then mk_image (i_id r) rel_path (i_sha256 r) (i_created_at r)
                      else r) (images s)),
     inr tt).

(** [UPDATE annotations SET is_deleted=0, created_at=? WHERE id=?] *)
Definition reactivate_annotation (id : Z) (now : string) : M unit :=
  fun s =>
    (set_annotations s
       (map (fun a => if (a_id a =? id)%Z
                      then mk_annotation (a_id a) (a_image_id a) (a_tag_id a)
                             (a_user_id a) now 0
                      else a) (annotations s)),
     inr tt).

(** [UPDATE annotations SET is_deleted=1, created_at=?
      WHERE image_id=? AND tag_id=? AND user_id=?] *)
Definition soft_delete_annotation (image_id tag_id user_id : Z) (now : string)
  : M unit :=
  fun s =>
    (set_annotations s
       (map (fun a => if is_triple image_id tag_id user_id a
                      then mk_annotation (a_id a) (a_image_id a) (a_tag_id a)
                             (a_user_id a) now 1
                      else a) (annotations s)),
     inr tt).

(** *** Class [DB]. *)

Definition ensure_user (username : string) (display_name : option string) : M Z :=
  s <- get ;;
  match find_user s username with
  | Some r => ret (u_id r)
  | None => insert_user username display_name
  end.

Definition upsert_image (rel_path sha : string) (created_at : option string) : M Z :=
  s <- get ;;
  match find_image_by_sha s sha with
  | Some r => update_image_path (i_id r) rel_path ;;; ret (i_id r)
  | None => insert_image rel_path sha created_at
  end.

Definition upsert_tag (name category : string) (description : option string) : M Z :=
  s <- get ;;
  match find_tag s name category with
  | Some r => ret (t_id r)
  | None => insert_tag name category description
  end.

Definition add_tag_for_user (now : string) (image_id : Z) (tag_name : string)
  (user_id : Z) (category : string) : M unit :=
  tag_id <- upsert_tag tag_name category None ;;
  s <- get ;;
  match find_annotation s image_id tag_id user_id with
  | Some r =>
      if negb (a_is_deleted r =? 0)%Z
      then reactivate_annotation (a_id r) now
      else ret tt
  | None =>
      insert_annotation image_id tag_id user_id now ;;; ret tt
  end.

Definition remove_tag_for_user (now : string) (image_id : Z) (tag_name : string)
  (user_id : Z) (category : string) : M unit :=
  s <- get ;;
  match find_tag s tag_name category with
  | None => ret tt
  | Some r => soft_delete_annotation image_id (t_id r) user_id now
  end.

Definition upsert_attachment (image_id : Z) (kind rel_path sha : string)
  (created_at : option string) : M Z :=
  s <- get ;;
  match find_attachment_by_sha s sha with
  | Some r => ret (x_id r)
  | None => insert_attachment image_id kind rel_path sha created_at
  end.

(** [when = when or datetime.now()...]: [None] and the empty string are
    both falsy. *)
Definition or_now (when : option string) (now : string) : string :=
  match when with
  | Some w => if w =? "" then now else w
  | None => now
  end.

Definition upsert_quality (now : string) (image_id user_id : Z) (label : string)
  (score : option Z) (when : option string) : M unit :=
  insert_or_replace_vote image_id user_id label score (or_now when now).

(** The rest of [add_tag_for_user] once [upsert_tag] has returned
    [tid]. *)
Definition after_tag (now : string) (i tid u : Z) (s' : store) : store * (error + unit) :=
  match find_annotation s' i tid u with
  | Some r =>
      if negb (a_is_deleted r =? 0)%Z
      then reactivate_annotation (a_id r) now s'
      else (s', inr tt)
  | None =>
      match insert_annotation i tid u now s' with
      | (s'', inr _) => (s'', inr tt)
      | (s'', inl e) => (s'', inl e)
      end
  end.

(** *** Read accessors. *)

Definition active_rows (s : store) (image_id : Z) : list annotation_row :=
  filter (is_active_on image_id) (annotations s).

Definition rows_of_triple (s : store) (image_id tag_id user_id : Z)
  : list annotation_row :=
  filter (is_triple image_id tag_id user_id) (annotations s).

Definition votes_of (s : store) (image_id user_id : Z) : list vote_row :=
  filter (same_voter image_id user_id) (quality_votes s).

(** *** Per-image view used to state the annotator rules. *)

Definition rows_on (s : store) (image_id : Z) : list annotation_row :=
  filter (fun a => (a_image_id a =? image_id)%Z) (annotations s).

(** (user, tag, is_deleted) of every annotation row of the image, in rowid
    order. *)
Definition summary (s : store) (image_id : Z) : list (Z * Z * Z) :=
  map (fun a => (a_user_id a, a_tag_id a, a_is_deleted a)) (rows_on s image_id).

Definition entry_user (x : Z * Z * Z) : Z := fst (fst x).
Definition entry_active (x : Z * Z * Z) : bool := (snd x =? 0)%Z.

Definition tag_id_of (s : store) (name category : string) : Z :=
  match find_tag s name category with
  | Some t => t_id t
  | None => 0
  end.

(** One [add_tag_for_user] request on a fixed image. *)
Record request := mk_request
  { r_user : Z; r_tag : string; r_category : string; r_now : string }.

Definition add_request (image_id : Z) (r : request) : M unit :=
  add_tag_for_user (r_now r) image_id (r_tag r) (r_user r) (r_category r).

(** The requests issued one call after the other; an exception ends that
    call only. *)
Fixpoint add_all (image_id : Z) (reqs : list request) (s : store)
  : store * list (error + unit) :=
  match reqs with
  | [] => (s, [])
  | r :: rest =>
      let (s1, o) := add_request image_id r s in
      let (s2, os) := add_all image_id rest s1 in
      (s2, o :: os)
  end.

(** What earlier requests left on the image: each request with the
    [is_deleted] flag its row has now.  [settled] says that the image's rows
    are exactly these, one row per request, under the tag the request's
    (name, category) resolves to. *)
Definition done_user (x : request * Z) : Z := r_user (fst x).
Definition done_active (x : request * Z) : bool := (snd x =? 0)%Z.
Definition done_entry (s : store) (x : request * Z) : Z * Z * Z :=
  (r_user (fst x), tag_id_of s (r_tag (fst x)) (r_category (fst x)), snd x).

Definition settled (s : store) (image_id : Z) (done : list (request * Z)) : Prop :=
  summary s image_id = map (done_entry s) done /\
  Forall (fun x => find_tag s (r_tag (fst x)) (r_category (fst x)) <> None) done.

(** The flags after the user's row was soft-deleted. *)
Definition mark_removed (u : Z) (x : request * Z) : request * Z :=
  if (done_user x =? u)%Z then (fst x, 1) else x.

(** *** The public surface as data, and the states it reaches. *)

Inductive call :=
| EnsureUser (username : string) (display_name : option string)
| UpsertImage (rel_path sha : string) (created_at : option string)
| UpsertTag (name category : string) (description : option string)
| AddTagForUser (now : string) (image_id : Z) (tag_name : string)
    (user_id : Z) (category : string)
| RemoveTagForUser (now : string) (image_id : Z) (tag_name : string)
    (user_id : Z) (category : string)
| UpsertAttachment (image_id : Z) (kind rel_path sha : string)
    (created_at : option string)
| UpsertQuality (now : string) (image_id user_id : Z) (label : string)
    (score : option Z) (when : option string).

Definition raised {A} (r : error + A) : option error :=
  match r with inl e => Some e | inr _ => None end.

(** Store after the call and the exception it raised, if any. *)
Definition run (c : call) (s : store) : store * option error :=
  match c with
  | EnsureUser u d => let (s', r) := ensure_user u d s in (s', raised r)
  | UpsertImage p h t => let (s', r) := upsert_image p h t s in (s', raised r)
  | UpsertTag n c d => let (s', r) := upsert_tag n c d s in (s', raised r)
  | AddTagForUser now i n u c =>
      let (s', r) := add_tag_for_user now i n u c s in (s', raised r)
  | RemoveTagForUser now i n u c =>
      let (s', r) := remove_tag_for_user now i n u c s in (s', raised r)
  | UpsertAttachment i k p h t =>
      let (s', r) := upsert_attachment i k p h t s in (s', raised r)
  | UpsertQuality now i u l sc w =>
      let (s', r) := upsert_quality now i u l sc w s in (s', raised r)
  end.

Definition exec (s : store) (c : call) : store := fst (run c s).

Definition exec_all (s : store) (cs : list call) : store := fold_left exec cs s.

(** The calls in order with what each one raised. *)
Fixpoint run_all (s : store) (cs : list call) : store * list (option error) :=
  match cs with
  | [] => (s, [])
  | c :: rest =>
      let (s1, o) := run c s in
      let (s2, os) := run_all s1 rest in
      (s2, o :: os)
  end.

Inductive reachable : store -> Prop :=
| reach_empty : reachable empty
| reach_step s c : reachable s -> reachable (exec s c).

(** *** Schema constraints as predicates on a store. *)

Definition triple_of (a : annotation_row) : Z * Z * Z :=
  (a_image_id a, a_tag_id a, a_user_id a).
Definition voter_of (q : vote_row) : Z * Z := (q_image_id q, q_user_id q).

Definition annotations_unique (s : store) : Prop :=
  NoDup (map triple_of (annotations s)).
Definition votes_unique (s : store) : Prop :=
  NoDup (map voter_of (quality_votes s)).

End Lib.

(* ================================================================== *)
(** ** [datenest/db.py] and [datenest/importer.py]                    *)
(* ================================================================== *)

Module Importer.

Record file_row := mk_file
  { f_id : Z; f_path : string; f_sha256 : string; f_size : Z;
    f_added_at : string }.

Record tag_row := mk_tag { t_id : Z; t_name : string }.

(** Tables [files], [tags] and [file_tags] of [SCHEMA]. *)
Record db := mk_db
  { files : list file_row;
    tags : list tag_row;
    file_tags : list (Z * Z) }.

Definition empty : db := mk_db [] [] [].

(** The counters of the returned dict. *)
Record stats := mk_stats { inserted : Z; duplicates : Z; tag_links : Z }.

(** What [Path.exists() and Path.is_file()] and reading see: the content
    of the regular file at a path, if there is one. *)
Definition disk := string -> option string.

(** [AUTOINCREMENT]: one more than the largest rowid ever used; no row is
    ever deleted here, so that is the largest rowid present. *)
Definition next_rowid (ids : list Z) : Z := 1 + fold_right Z.max 0 ids.

Section WithHash.

(** [hashlib.sha256] over the whole content; feeding it in chunks of
    [bufsize] bytes gives the digest of the concatenation. *)
Variable sha256_hex : string -> string.

Definition sha256sum (d : disk) (path : string) : option string :=
  option_map sha256_hex (d path).

Definition get_or_create_tag_id (name : string) (c : db) : db * Z :=
  match find (fun r => t_name r =? name) (tags c) with
  | Some r => (c, t_id r)
  | None =>
      let id := next_rowid (map t_id (tags c)) in
      (mk_db (files c) (tags c ++ [mk_tag id name]) (file_tags c), id)
  end.

(** [[get_or_create_tag_id(conn, t.strip()) for t in tags if t.strip()]] *)
Fixpoint tag_ids_of (tags : list string) (c : db) : db * list Z :=
  match tags with
  | [] => (c, [])
  | t :: rest =>
      if Str.strip t =? "" then tag_ids_of rest c
      else let (c1, id) := get_or_create_tag_id (Str.strip t) c in
           let (c2, ids) := tag_ids_of rest c1 in
           (c2, id :: ids)
  end.

(** [INSERT OR IGNORE INTO files(path, sha256, size)] with its rowcount. *)
Definition insert_or_ignore_file (now path digest : string) (size : Z) (c : db)
  : db * Z :=
  if existsb (fun r => f_sha256 r =? digest) (files c) then (c, 0)
  else (mk_db (files c ++ [mk_file (next_rowid (map f_id (files c))) path digest
                             size now])
          (tags c) (file_tags c), 1).

(** [SELECT id FROM files WHERE sha256 = ?] and [fetchone()]. *)
Definition select_file_id (digest : string) (c : db) : option Z :=
  option_map f_id (find (fun r => f_sha256 r =? digest) (files c)).

(** [INSERT OR IGNORE INTO file_tags(file_id, tag_id)] with its rowcount. *)
Definition insert_or_ignore_link (file_id tag_id : Z) (c : db) : db * Z :=
  if existsb (fun l => (fst l =? file_id)%Z && (snd l =? tag_id)%Z) (file_tags c)
  then (c, 0)
  else (mk_db (files c) (tags c) (file_tags c ++ [(file_id, tag_id)]), 1).

Fixpoint link_tags (file_id : Z) (tag_ids : list Z) (c : db) (links : Z) : db * Z :=
  match tag_ids with
  | [] => (c, links)
  | tid :: rest =>
      let (c1, n) := insert_or_ignore_link file_id tid c in
      link_tags file_id rest c1 (links + n)
  end.

(** The [for p in files] loop.  [None] is an exception ([fetchone()]
    returning no row). *)
Fixpoint import_loop (now : string) (d : disk) (tag_ids : list Z)
  (paths : list string) (c : db) (st : stats) : option (db * stats) :=
  match paths with
  | [] => Some (c, st)
  | p :: rest =>
      match d p with
      | None => import_loop now d tag_ids rest c st
      | Some content =>
          let digest := sha256_hex content in
          let size := Z.of_nat (String.length content) in
          let (c1, rowcount) := insert_or_ignore_file now p digest size c in
          let st1 :=
            if (rowcount =? 1)%Z
            then mk_stats (inserted st + 1) (duplicates st) (tag_links st)
            else mk_stats (inserted st) (duplicates st + 1) (tag_links st) in
          match select_file_id digest c1 with
          | None => None
          | Some file_id =>
              let (c2, links) := link_tags file_id tag_ids c1 (tag_links st1) in
              import_loop now d tag_ids rest c2
                (mk_stats (inserted st1) (duplicates st1) links)
          end
      end
  end.

(** [import_files]: one transaction; an exception rolls it back and
    propagates ([None], the database as before); otherwise the new database
    and the counters. *)
Definition import_files (now : string) (d : disk) (c : db)
  (paths : list string) (tags : list string) : option (db * stats) :=
  let (c1, tag_ids) := tag_ids_of tags c in
  import_loop now d tag_ids paths c1 (mk_stats 0 0 0).

End WithHash.

End Importer.

(* ================================================================== *)
(** ** Search: [MainWindow._parse_date] and [MainWindow.on_search]    *)
(* ================================================================== *)

Module Query.

(** A [datetime]: microseconds since 0001-01-01T00:00:00 on its own wall
    clock, and the UTC offset when it is timezone-aware. *)
Record datetime := mk_dt { dt_micro : Z; dt_offset : option Z }.

(** [datetime.max] is 9999-12-31T23:59:59.999999. *)
Definition dt_max_micro : Z := 3652059 * 86400000000 - 1.

(** [d + datetime.timedelta(days=1)]; [None] is [OverflowError]. *)
Definition plus_one_day (d : datetime) : option datetime :=
  let m := dt_micro d + 86400000000 in
  if (m <=? dt_max_micro)%Z then Some (mk_dt m (dt_offset d)) else None.

(** Comparing a naive with an aware [datetime] raises [TypeError]. *)
Inductive error := TypeError.

(** [a < b] *)
Definition before (a b : datetime) : error + bool :=
  match dt_offset a, dt_offset b with
  | None, None => inr (dt_micro a <? dt_micro b)%Z
  | Some oa, Some ob => inr (dt_micro a - oa <? dt_micro b - ob)%Z
  | _, _ => inl TypeError
  end.

Definition date_range : Type := option datetime * option datetime.

Record filters := mk_filters
  { tag_subs : list string;
    name_subs : list string;
    cats : list string;
    users : list string;
    labels : list string;
    has_csv : bool;            (* [None] / [True] *)
    dates : date_range }.

Definition no_filters : filters := mk_filters [] [] [] [] [] false (None, None).

(** One list item: its text and the image id stored in it. *)
Record item := mk_item { it_rel : string; it_img_id : Z }.

(** The per-image search index built by [reload_all]; [.get(id, default)]
    is the function's value at an absent id. *)
Record index := mk_index
  { map_tags_lower : Z -> list string;
    map_cats : Z -> list string;
    map_users : Z -> list string;
    map_labels : Z -> list string;
    map_has_csv : Z -> bool;
    map_created_at : Z -> option datetime }.

Section WithParser.

(** [datetime.datetime.fromisoformat]; [None] is [ValueError]. *)
Variable fromisoformat : string -> option datetime.

(** [fromisoformat(x.strip()) if x.strip() else None]; the outer [None] is
    the exception. *)
Definition parse_side (x : string) : option (option datetime) :=
  if Str.strip x =? "" then Some None
  else match fromisoformat (Str.strip x) with
       | Some d => Some (Some d)
       | None => None
       end.

(** The [try] block of [_parse_date]; [None] when it raises. *)
Definition parse_date_try (token : string) : option date_range :=
  let v := Str.strip (Str.drop 5 token) in
  if Str.contains ".." v then
    match Str.split_once ".." v with
    | Some (a, b) =>
        match parse_side a with
        | None => None
        | Some d1 =>
            match parse_side b with
            | None => None
            | Some d2 => Some (d1, d2)
            end
        end
    | None => None
    end
  else if prefix ">=" v then
    match fromisoformat (Str.strip (Str.drop 2 v)) with
    | Some d => Some (Some d, None)
    | None => None
    end
  else if prefix "<=" v then
    match fromisoformat (Str.strip (Str.drop 2 v)) with
    | Some d => Some (None, Some d)
    | None => None
    end
  else
    match fromisoformat v with
    | Some d =>
        match plus_one_day d with
        | Some e => Some (Some d, Some e)
        | None => None
        end
    | None => None
    end.

(** [except Exception: return (None, None)] *)
Definition _parse_date (token : string) : date_range :=
  match parse_date_try token with
  | Some r => r
  | None => (None, None)
  end.

Definition is_date_token (tl : string) : bool :=
  prefix "date:" tl || prefix "date>=" tl || prefix "date<=" tl.

(** [tl.split(":", 1)[1]]; only evaluated when [tl] starts with "date:",
    so the separator is there. *)
Definition after_colon (tl : string) : string :=
  match Str.split_once ":" tl with
  | Some (_, b) => b
  | None => ""
  end.

(** One round of the [for t in tokens] loop. *)
Definition add_token (f : filters) (t : string) : filters :=
  let tl := Str.lower t in
  if prefix "#" tl && (1 <? String.length tl)%nat then
    mk_filters (tag_subs f ++ [Str.drop 1 tl]) (name_subs f) (cats f) (users f)
      (labels f) (has_csv f) (dates f)
  else if prefix "cat:" tl then
    mk_filters (tag_subs f) (name_subs f) (cats f ++ [Str.drop 4 tl]) (users f)
      (labels f) (has_csv f) (dates f)
  else if prefix "user:" tl then
    mk_filters (tag_subs f) (name_subs f) (cats f) (users f ++ [Str.drop 5 tl])
      (labels f) (has_csv f) (dates f)
  else if prefix "label:" tl then
    mk_filters (tag_subs f) (name_subs f) (cats f) (users f)
      (labels f ++ [Str.drop 6 tl]) (has_csv f) (dates f)
  else if tl =? "has:csv" then
    mk_filters (tag_subs f) (name_subs f) (cats f) (users f) (labels f) true (dates f)
  else if is_date_token tl then
    mk_filters (tag_subs f) (name_subs f) (cats f) (users f) (labels f) (has_csv f)
      (_parse_date (if prefix "date:" tl then "date:" ++ after_colon tl else tl))
  else
    mk_filters (tag_subs f) (name_subs f ++ [tl]) (cats f) (users f) (labels f)
      (has_csv f) (dates f).

Definition with_dates (f : filters) (d : date_range) : filters :=
  mk_filters (tag_subs f) (name_subs f) (cats f) (users f) (labels f) (has_csv f) d.

(** Tokens that do not reach the date branch. *)
Definition not_date (t : string) : bool := negb (is_date_token (Str.lower t)).

Definition build_filters (tokens : list string) : filters :=
  fold_left add_token tokens no_filters.

Definition mem (x : string) (l : list string) : bool := existsb (String.eqb x) l.

(** [set(xs).issubset(ys)] *)
Definition issubset (xs ys : list string) : bool := forallb (fun x => mem x ys) xs.

Definition nonempty {A} (l : list A) : bool :=
  match l with [] => false | _ => true end.

(** The date test of one item: [true] hides it. *)
Definition date_hides (dr : date_range) (ts : option datetime) : error + bool :=
  match dr with
  | (None, None) => inr false
  | (d1, d2) =>
      match ts with
      | None => inr true
      | Some ts =>
          let upper :=
            match d2 with
            | None => inr false
            | Some b =>
                match before ts b with
                | inl e => inl e
                | inr lt => inr (negb lt)
                end
            end in
          match d1 with
          | None => upper
          | Some a =>
              match before ts a with
              | inl e => inl e
              | inr true => inr true
              | inr false => upper
              end
          end
      end
  end.

(** The body of the [for rel, item in self.all_items] loop: whether the
    item ends up hidden. *)
Definition item_hidden (f : filters) (idx : index) (it : item) : error + bool :=
  let id := it_img_id it in
  if negb (forallb (fun s => Str.contains s (Str.lower (it_rel it))) (name_subs f))
  then inr true
  else if nonempty (tag_subs f)
          && negb (forallb (fun s => existsb (fun t => Str.contains s t)
                                       (map_tags_lower idx id)) (tag_subs f))
  then inr true
  else if nonempty (cats f) && negb (issubset (cats f) (map_cats idx id))
  then inr true
  else if nonempty (users f) && negb (issubset (users f) (map_users idx id))
  then inr true
  else if nonempty (labels f) && negb (issubset (labels f) (map_labels idx id))
  then inr true
  else if has_csv f && negb (map_has_csv idx id)
  then inr true
  else date_hides (dates f) (map_created_at idx id).

(** The items left visible, in list order; an exception ends the loop. *)
Fixpoint visible_items (f : filters) (idx : index) (items : list item)
  : error + list item :=
  match items with
  | [] => inr []
  | it :: rest =>
      match item_hidden f idx it with
      | inl e => inl e
      | inr hidden =>
          match visible_items f idx rest with
          | inl e => inl e
          | inr vis => inr (if hidden then vis else it :: vis)
          end
      end
  end.

Definition search_tokens (idx : index) (items : list item) (tokens : list string)
  : error + list item :=
  visible_items (build_filters tokens) idx items.

(** [q = (text or "").strip(); tokens = [t for t in q.split() if t]] *)
Definition tokens_of (text : string) : list string :=
  filter (fun t => negb (t =? "")) (Str.split (Str.strip text)).

Definition on_search (idx : index) (items : list item) (text : string)
  : error + list item :=
  search_tokens idx items (tokens_of text).

End WithParser.

(** A parser for the plain [YYYY-MM-DD] form only, used in the examples:
    ten characters, digits around two dashes, month 1..12 and day 1..31
    (the real parser accepts more forms and rejects days a month does not
    have).  The value is the day number times a day, on a 372-day
    calendar; only its failing on other input is used. *)
Definition digit (c : ascii) : option Z :=
  let n := nat_of_ascii c in
  if ((48 <=? n) && (n <=? 57))%nat then Some (Z.of_nat (n - 48)) else None.

Fixpoint number (s : string) (acc : Z) : option Z :=
  match s with
  | EmptyString => Some acc
  | String c r =>
      match digit c with
      | Some d => number r (10 * acc + d)
      | None => None
      end
  end.

Definition iso_day (s : string) : option datetime :=
  if negb (String.length s =? 10)%nat then None
  else if negb ((substring 4 1 s =? "-") && (substring 7 1 s =? "-")) then None
  else match number (substring 0 4 s) 0, number (substring 5 2 s) 0,
             number (substring 8 2 s) 0 with
       | Some y, Some m, Some d =>
           if ((1 <=? y) && (1 <=? m) && (m <=? 12) && (1 <=? d) && (d <=? 31))%Z
           then Some (mk_dt (((y * 12 + (m - 1)) * 31 + (d - 1)) * 86400000000) None)
           else None
       | _, _, _ => None
       end.

(** An index with nothing but a timestamp for every image. *)
Definition bare_index : index :=
  mk_index (fun _ => []) (fun _ => []) (fun _ => []) (fun _ => [])
    (fun _ => false) (fun _ => Some (mk_dt 65098512000000000 None)).

End Query.

(* ================================================================== *)
(** ** Rescan: the CSV auto-link block of [MainWindow.reload_all]     *)
(* ================================================================== *)

Module Rescan.

(** *** [pathlib]: suffix and stem of a file name *)

(** [name.rfind('.')] *)
Fixpoint rfind_dot (s : string) (pos : nat) (last : option nat) : option nat :=
  match s with
  | EmptyString => last
  | String c r => rfind_dot r (S pos) (if Ascii.eqb c "." then Some pos else last)
  end.

(** The dot that starts the suffix: [0 < i < len(name) - 1]. *)
Definition suffix_at (name : string) : option nat :=
  match rfind_dot name 0 None with
  | Some i => if ((0 <? i) && (S i <? String.length name))%nat then Some i else None
  | None => None
  end.

Definition suffix (name : string) : string :=
  match suffix_at name with
  | Some i => Str.drop i name
  | None => ""
  end.

Definition stem (name : string) : string :=
  match suffix_at name with
  | Some i => Str.take i name
  | None => name
  end.

(** *** [Path.glob] on one directory, one pattern component

    The pattern language of [fnmatch]: [*] any run of characters, [?] any
    one character, [[seq]] one character of the set, [[!seq]] one character
    outside it, ranges [a-z] inside a set read left to right, a [[] without
    a closing bracket literal.  Matching is on whole names and, as on
    POSIX, case-sensitive.  Patterns with [**] are outside this model. *)

Inductive gtoken :=
| GStar
| GAny
| GLit (c : ascii)
| GClass (negated : bool) (body : list ascii).

(** Up to the closing bracket: the set's characters and what follows. *)
Fixpoint class_rest (p : list ascii) : option (list ascii * list ascii) :=
  match p with
  | [] => None
  | c :: r =>
      if Ascii.eqb c "]" then Some ([], r)
      else match class_rest r with
           | Some (b, rest) => Some (c :: b, rest)
           | None => None
           end
  end.

(** What follows a [[]: an optional [!], then a [[]] that comes first is a
    member, then the members up to the closing bracket. *)
Definition class_split (p : list ascii) : option (bool * list ascii * list ascii) :=
  let (neg, p1) :=
    match p with
    | c :: r => if Ascii.eqb c "!" then (true, r) else (false, p)
    | [] => (false, p)
    end in
  match p1 with
  | c :: r =>
      if Ascii.eqb c "]"
      then match class_rest r with
           | Some (b, rest) => Some (neg, c :: b, rest)
           | None => None
           end
      else match class_rest p1 with
           | Some (b, rest) => Some (neg, b, rest)
           | None => None
           end
  | [] => None
  end.

Fixpoint gtokens (fuel : nat) (p : list ascii) : list gtoken :=
  match fuel with
  | O => []
  | S fuel' =>
      match p with
      | [] => []
      | c :: r =>
          if Ascii.eqb c "*" then GStar :: gtokens fuel' r
          else if Ascii.eqb c "?" then GAny :: gtokens fuel' r
          else if Ascii.eqb c "["
          then match class_split r with
               | Some (neg, body, rest) => GClass neg body :: gtokens fuel' rest
               | None => GLit c :: gtokens fuel' r
               end
          else GLit c :: gtokens fuel' r
      end
  end.

Fixpoint in_class (body : list ascii) (c : ascii) : bool :=
  match body with
  | [] => false
  | a :: r =>
      match r with
      | dash :: b :: r' =>
          if Ascii.eqb dash "-"
          then (Ascii.leb a c && Ascii.leb c b) || in_class r' c
          else Ascii.eqb a c || in_class r c
      | _ => Ascii.eqb a c || in_class r c
      end
  end.

Fixpoint gmatch (ts : list gtoken) (s : list ascii) : bool :=
  match ts with
  | [] => match s with [] => true | _ => false end
  | GStar :: ts' =>
      (fix star (s : list ascii) : bool :=
         gmatch ts' s || match s with [] => false | _ :: s' => star s' end) s
  | GAny :: ts' =>
      match s with [] => false | _ :: s' => gmatch ts' s' end
  | GLit c :: ts' =>
      match s with [] => false | d :: s' => Ascii.eqb c d && gmatch ts' s' end
  | GClass neg body :: ts' =>
      match s with
      | [] => false
      | d :: s' => xorb neg (in_class body d) && gmatch ts' s'
      end
  end.

Definition fnmatch (pattern name : string) : bool :=
  gmatch (gtokens (String.length pattern) (list_ascii_of_string pattern))
    (list_ascii_of_string name).

(** A directory entry: its name and [st_mtime] (as an integer count of
    time units). *)
Record entry := mk_entry { e_name : string; e_mtime : Z }.

(** [list(parent.glob(pattern))], in the order the directory is listed. *)
Definition glob (dir : list entry) (pattern : string) : list entry :=
  filter (fun e => fnmatch pattern (e_name e)) dir.

(** *** The candidates *)

(** [list.sort(key=...)]: stable. *)
Definition sort_by {A} (key : A -> Z) (l : list A) : list A :=
  Order.stable_sort (fun x y => (key x <=? key y)%Z) l.

Definition is_nil {A} (l : list A) : bool :=
  match l with [] => true | _ => false end.

(** Lines 571-582 of [app.py]: [dir] is the listing of the image's parent
    directory, [stem] and [mtime] are the image's. *)
Definition csv_candidates (dir : list entry) (stem : string) (mtime : Z)
  : list entry :=
  let cands := glob dir (stem ++ ".csv") in
  let cands :=
    if is_nil cands
    then let only_csv := glob dir "*.csv" in
         if (List.length only_csv =? 1)%nat then only_csv else cands
    else cands in
  if is_nil cands
  then let cands := glob dir (stem ++ "_*.csv") in
       if (1 <? List.length cands)%nat
       then match sort_by (fun x => Z.abs (e_mtime x - mtime)) cands with
            | first :: _ => [first]
            | [] => []
            end
       else cands
  else cands.

Section WithFiles.

(** [sha256_of] on a file of the directory ([None]: reading raises) and
    the ISO text of a modification time. *)
Variable sha256_of : string -> option string.
Variable isoformat : Z -> string.

(** The [for cand in cands] loop: every exception is caught and printed,
    the loop goes on.  [dir_rel] is the directory relative to the root,
    with its trailing slash. *)
Definition link_candidates (dir_rel : string) (image_id : Z) (cands : list entry)
  (s : Lib.store) : Lib.store :=
  fold_left
    (fun s cand =>
       match sha256_of (e_name cand) with
       | None => s
       | Some csha =>
           fst (Lib.upsert_attachment image_id "csv" (dir_rel ++ e_name cand) csha
                  (Some (isoformat (e_mtime cand))) s)
       end)
    cands s.

(** One image of the rescan: hash, [upsert_image], then the auto-link. *)
Definition rescan_image (dir_rel : string) (dir : list entry) (img : entry)
  (s : Lib.store) : Lib.store :=
  match sha256_of (e_name img) with
  | None => s
  | Some sha =>
      match Lib.upsert_image (dir_rel ++ e_name img) sha
              (Some (isoformat (e_mtime img))) s with
      | (s1, inr image_id) =>
          link_candidates dir_rel image_id
            (csv_candidates dir (stem (e_name img)) (e_mtime img)) s1
      | (s1, inl _) => s1
      end
  end.

End WithFiles.

(** *** The three rules in the words of the specification *)

(** Some tail of [s] is [suf]. *)
Fixpoint ends_with (suf s : string) : bool :=
  (s =? suf)
  || match s with
     | EmptyString => false
     | String _ r => ends_with suf r
     end.

Definition spec_exact (dir : list entry) (stem : string) : list entry :=
  filter (fun e => e_name e =? stem ++ ".csv") dir.

Definition spec_all_csv (dir : list entry) : list entry :=
  filter (fun e => ends_with ".csv" (e_name e)) dir.

Definition spec_prefixed (dir : list entry) (stem : string) : list entry :=
  filter (fun e => prefix (stem ++ "_") (e_name e)
                   && ends_with ".csv" (Str.drop (String.length stem + 1) (e_name e)))
    dir.

Definition spec_candidates (dir : list entry) (stem : string) (mtime : Z)
  : list entry :=
  if negb (is_nil (spec_exact dir stem)) then spec_exact dir stem
  else if (List.length (spec_all_csv dir) =? 1)%nat then spec_all_csv dir
  else if (1 <? List.length (spec_prefixed dir stem))%nat
       then match sort_by (fun x => Z.abs (e_mtime x - mtime)) (spec_prefixed dir stem) with
            | first :: _ => [first]
            | [] => []
            end
       else spec_prefixed dir stem.

(** No character of the stem is special in a pattern. *)
Definition plain_char (c : ascii) : bool :=
  negb (Ascii.eqb c "*" || Ascii.eqb c "?" || Ascii.eqb c "[").

Fixpoint plain (s : string) : bool :=
  match s with
  | EmptyString => true
  | String c r => plain_char c && plain r
  end.

(** *** Example directories *)

Definition series_dir : list entry :=
  [ mk_entry "img2.jpg" 5; mk_entry "img2_a.csv" 1; mk_entry "img2_b.csv" 4;
    mk_entry "img2_c.csv" 6; mk_entry "other.csv" 5 ].

Definition bracket_dir : list entry :=
  [ mk_entry "photo[1].jpg" 1000; mk_entry "photo[1].csv" 1000;
    mk_entry "notes.csv" 900 ].

Definition set_dir : list entry :=
  [ mk_entry "[ab].jpg" 1000; mk_entry "a.csv" 1000; mk_entry "b.csv" 900 ].

End Rescan.

(* ================================================================== *)
(** ** Archive: [export_selection] and [import_archive]               *)
(* ================================================================== *)

Module Archive.
Import Lib.

(** *** [manifest.json].  The constant fields ([version], [exporter]) are
    not read back and are left out. *)

Record m_user := mk_m_user { mu_username : string; mu_display_name : option string }.

Record m_tag := mk_m_tag
  { mt_name : string; mt_category : string; mt_description : option string }.

Record m_attachment := mk_m_attachment
  { ma_kind : string; ma_sha256 : string; ma_ext : string }.

Record m_annotation := mk_m_annotation
  { mn_username : string; mn_tag : string; mn_category : string;
    mn_created_at : string }.

Record m_quality := mk_m_quality
  { mq_username : string; mq_label : string; mq_score : option Z;
    mq_created_at : string }.

Record m_image := mk_m_image
  { mi_sha256 : string; mi_rel_path : string; mi_created_at : option string;
    mi_attachments : list m_attachment;
    mi_annotations : list m_annotation;
    mi_quality : list m_quality }.

Record manifest := mk_manifest
  { m_exported_at : string;
    m_include_images : bool;
    m_include_attachments : bool;
    m_users : list m_user;
    m_tags : list m_tag;
    m_images : list m_image }.

(** The zip file: the manifest and the names of the other members (their
    bytes are copied to disk and do not reach the store). *)
Record archive := mk_archive { ar_manifest : manifest; ar_members : list string }.

(** *** Helpers *)

(** [Path(name).name] for a POSIX-style path. *)
Fixpoint basename_from (cur s : string) : string :=
  match s with
  | EmptyString => cur
  | String c r =>
      if Ascii.eqb c "/" then basename_from "" r
      else basename_from (cur ++ String c "") r
  end.

Definition basename (s : string) : string := basename_from "" s.

(** [_safe_ext] *)
Definition _safe_ext (name : string) : string :=
  let ext := Str.lower (Rescan.suffix (basename name)) in
  if ext =? "" then ".bin" else ext.

Definition mem (x : string) (l : list string) : bool := existsb (String.eqb x) l.

(** [set.add] on a list without repetitions. *)
Definition add_seen (x : string) (seen : list string) : list string :=
  if mem x seen then seen else (seen ++ [x])%list.

(** *** Read accessors used by the export *)

(** [ORDER BY t.category, t.name] *)
Definition tag_order (x y : tag_row * annotation_row * user_row) : bool :=
  let tx := fst (fst x) in
  let ty := fst (fst y) in
  match String.compare (t_category tx) (t_category ty) with
  | Lt => true
  | Gt => false
  | Eq => String.leb (t_name tx) (t_name ty)
  end.

(** [DB.get_tags_for_image]: the active annotations of the image joined
    with their tag and user.  Rows that tie on (category, name) are kept in
    rowid order here; the engine is free to return them in another order. *)
Definition get_tags_for_image (s : store) (image_id : Z)
  : list (tag_row * annotation_row * user_row) :=
  Order.stable_sort tag_order
    (flat_map
       (fun a =>
          if is_active_on image_id a
          then match find (fun t => (t_id t =? a_tag_id a)%Z) (tags s),
                     find (fun u => (u_id u =? a_user_id a)%Z) (users s) with
               | Some t, Some u => [(t, a, u)]
               | _, _ => []
               end
          else [])
       (annotations s)).

(** [SELECT ... FROM quality_votes q JOIN users u ... WHERE image_id=?] *)
Definition quality_rows (s : store) (image_id : Z) : list (vote_row * user_row) :=
  flat_map
    (fun q =>
       if (q_image_id q =? image_id)%Z
       then match find (fun u => (u_id u =? q_user_id q)%Z) (users s) with
            | Some u => [(q, u)]
            | None => []
            end
       else [])
    (quality_votes s).

Definition attachments_of (s : store) (image_id : Z) : list attachment_row :=
  filter (fun x => (x_image_id x =? image_id)%Z) (attachments s).

(** *** [export_selection] *)

Definition export_row (include_attachments : bool) (s : store) (r : image_row)
  : m_image :=
  mk_m_image (i_sha256 r) (i_rel_path r) (i_created_at r)
    (if include_attachments
     then map (fun x => mk_m_attachment (x_kind x) (x_sha256 x) (_safe_ext (x_rel_path x)))
            (attachments_of s (i_id r))
     else [])
    (map (fun j => match j with
                   | (t, a, u) =>
                       mk_m_annotation (u_username u) (t_name t) (t_category t)
                         (a_created_at a)
                   end)
       (get_tags_for_image s (i_id r)))
    (map (fun j => mk_m_quality (u_username (snd j)) (q_label (fst j))
                     (q_score (fst j)) (q_created_at (fst j)))
       (quality_rows s (i_id r))).

(** The selected rows that exist, in selection order. *)
Definition selected_rows (s : store) (selection : list Z) : list image_row :=
  flat_map
    (fun img_id =>
       match find (fun r => (i_id r =? img_id)%Z) (images s) with
       | Some r => [r]
       | None => []
       end)
    selection.

Definition image_member (on_disk : string -> bool) (s : store) (sha : string)
  : list string :=
  match find_image_by_sha s sha with
  | Some r =>
      if on_disk (i_rel_path r)
      then ["images/" ++ sha ++ _safe_ext (basename (i_rel_path r))]
      else []
  | None => []
  end.

Definition attachment_member (on_disk : string -> bool) (s : store) (sha : string)
  : list string :=
  match find_attachment_by_sha s sha with
  | Some r =>
      if on_disk (x_rel_path r)
      then ["attachments/" ++ sha ++ _safe_ext (basename (x_rel_path r))]
      else []
  | None => []
  end.

(** [selection] holds the image ids of the selected list items, [on_disk]
    tells whether a path below the library root exists, [now] is the
    clock. *)
Definition export_selection (selection : list Z) (username : string)
  (on_disk : string -> bool) (include_images include_attachments : bool)
  (now : string) (s : store) : archive :=
  let rows := selected_rows s selection in
  let seen_imgs := fold_left (fun seen r => add_seen (i_sha256 r) seen) rows [] in
  let seen_atts :=
    if include_attachments
    then fold_left
           (fun seen r =>
              fold_left (fun seen x => add_seen (x_sha256 x) seen)
                (attachments_of s (i_id r)) seen)
           rows []
    else [] in
  mk_archive
    (mk_manifest now include_images include_attachments
       [mk_m_user username (Some username)]
       (map (fun t => mk_m_tag (t_name t) (t_category t) (t_description t)) (tags s))
       (map (export_row include_attachments s) rows))
    ((if include_images then flat_map (image_member on_disk s) seen_imgs else [])
     ++ (if include_attachments
         then flat_map (attachment_member on_disk s) seen_atts
         else []))%list.

(** *** [import_archive] *)

Fixpoint for_each {A} (f : A -> M unit) (l : list A) : M unit :=
  match l with
  | [] => ret tt
  | x :: rest => f x ;;; for_each f rest
  end.

Definition import_attachment (members : list string) (img_id : Z)
  (att : m_attachment) : M unit :=
  s <- get ;;
  let member := "attachments/" ++ ma_sha256 att ++ ma_ext att in
  match find_attachment_by_sha s (ma_sha256 att) with
  | Some _ => ret tt
  | None =>
      if mem member members
      then upsert_attachment img_id (ma_kind att)
             ("attachments_imported/" ++ ma_sha256 att ++ ma_ext att)
             (ma_sha256 att) None ;;; ret tt
      else ret tt
  end.

Definition import_annotation (now : string) (img_id : Z) (an : m_annotation)
  : M unit :=
  uid <- ensure_user (mn_username an) None ;;
  add_tag_for_user now img_id (mn_tag an) uid (mn_category an).

Definition import_quality (now : string) (img_id : Z) (q : m_quality) : M unit :=
  uid <- ensure_user (mq_username q) None ;;
  upsert_quality now img_id uid (mq_label q) (mq_score q) (Some (mq_created_at q)).

Definition import_records (now : string) (members : list string) (img_id : Z)
  (im : m_image) : M unit :=
  for_each (import_attachment members img_id) (mi_attachments im) ;;;
  for_each (import_annotation now img_id) (mi_annotations im) ;;;
  for_each (import_quality now img_id) (mi_quality im).

Definition import_image (now : string) (members : list string) (im : m_image)
  : M unit :=
  s <- get ;;
  match find_image_by_sha s (mi_sha256 im) with
  | Some r => import_records now members (i_id r) im
  | None =>
      let member := "images/" ++ mi_sha256 im ++ _safe_ext (mi_rel_path im) in
      if mem member members
      then img_id <- upsert_image ("imported/" ++ basename member) (mi_sha256 im)
                       (mi_created_at im) ;;
           import_records now members img_id im
      else ret tt
  end.

(** The body of [import_archive] once the manifest is read.  No call is
    wrapped in [try]: the first exception ends the import, and what was
    committed before it stays.  [now] is the clock. *)
Definition import_archive (now : string) (a : archive) : M unit :=
  let m := ar_manifest a in
  for_each (fun u => ensure_user (mu_username u) (mu_display_name u) ;;; ret tt)
    (m_users m) ;;;
  for_each (fun t => upsert_tag (mt_name t) (mt_category t) (mt_description t) ;;; ret tt)
    (m_tags m) ;;;
  for_each (import_image now (ar_members a)) (m_images m).

(** *** Counts compared by a round trip *)

Definition active_annotations (s : store) : list annotation_row :=
  filter (fun a => (a_is_deleted a =? 0)%Z) (annotations s).

Definition counts (s : store) : nat * nat * nat * nat :=
  (List.length (images s), List.length (attachments s),
   List.length (active_annotations s), List.length (quality_votes s)).

End Archive.

(* ================================================================== *)
(** ** Concrete stores used in the examples below                     *)
(* ================================================================== *)

Module Scenario.
Import Lib.

(** One image (id 1) and six users (ids 1..6). *)
Definition seed_calls : list call :=
  [ UpsertImage "shots/a.png" "sha-a" (Some "2025-06-01T10:00:00");
    EnsureUser "u1" None; EnsureUser "u2" None; EnsureUser "u3" None;
    EnsureUser "u4" None; EnsureUser "u5" None; EnsureUser "u6" None ].

Definition seeded : store := exec_all empty seed_calls.

Definition req (u : Z) (tag : string) : request :=
  mk_request u tag "" "2025-06-02T09:00:00".

(** Users 1..5 each put the tag "x" on image 1. *)
Definition five_requests : list request := map (fun u => req u "x") [1; 2; 3; 4; 5].

Definition five_annotators : store := fst (add_all 1 five_requests seeded).

(** Five annotators, then user 1 removes the tag, user 6 adds it, and
    user 1 adds it again. *)
Definition cap_trace : list call :=
  (seed_calls
   ++ map (fun u => AddTagForUser "2025-06-02T09:00:00" 1 "x" u "") [1; 2; 3; 4; 5]
   ++ [ RemoveTagForUser "2025-06-03T09:00:00" 1 "x" 1 "";
        AddTagForUser "2025-06-04T09:00:00" 1 "x" 6 "";
        AddTagForUser "2025-06-05T09:00:00" 1 "x" 1 "" ])%list.

(** One image with one CSV attachment and one vote; user 1 holds the tags
    "x" and "y" on it, users 2..5 the tag "x": five annotators, six active
    annotations. *)
Definition library_calls : list call :=
  (seed_calls
   ++ [ AddTagForUser "2025-06-02T09:00:00" 1 "x" 1 "";
        AddTagForUser "2025-06-02T09:00:00" 1 "y" 1 "" ]
   ++ map (fun u => AddTagForUser "2025-06-02T09:00:00" 1 "x" u "") [2; 3; 4; 5]
   ++ [ UpsertQuality "2025-06-02T10:00:00" 1 1 "good" None None;
        UpsertAttachment 1 "csv" "shots/a.csv" "sha-csv" None ])%list.

Definition library : store := exec_all empty library_calls.

(** Image 1 selected, every file present on disk, both options on. *)
Definition exported : Archive.archive :=
  Archive.export_selection [1] "u1" (fun _ => true) true true
    "2025-06-10T00:00:00" library.

End Scenario.

(* ================================================================== *)
(** ** The SQL statements a call issues, and the schema as predicates *)
(* ================================================================== *)

Module Statements.
Import Lib.

(** One data-changing statement that went through, with the conditions
    under which the engine lets it through. *)
Inductive statement : store -> store -> Prop :=
| st_insert_user s username d :
    existsb (fun r => u_username r =? username) (users s) = false ->
    statement s
      (set_users s (users s ++ [mk_user (next_rowid (map u_id (users s))) username d]))
| st_update_path s id rel :
    statement s (fst (update_image_path id rel s))
| st_insert_image s rel sha ts :
    existsb (fun r => i_sha256 r =? sha) (images s) = false ->
    statement s
      (set_images s (images s ++ [mk_image (next_rowid (map i_id (images s))) rel sha ts]))
| st_insert_tag s n c d :
    existsb (fun r => (t_name r =? n) && (t_category r =? c)) (tags s) = false ->
    statement s
      (set_tags s (tags s ++ [mk_tag (next_rowid (map t_id (tags s))) n c d]))
| st_insert_annotation s i t u now :
    trg_limit_annotators s i = false ->
    existsb (is_triple i t u) (annotations s) = false ->
    has_image s i && has_tag s t && has_user s u = true ->
    statement s
      (set_annotations s
         (annotations s ++
            [mk_annotation (next_rowid (map a_id (annotations s))) i t u now 0]))
| st_reactivate s id now :
    statement s (fst (reactivate_annotation id now s))
| st_soft_delete s i t u now :
    statement s (fst (soft_delete_annotation i t u now s))
| st_insert_attachment s img kind rel sha ts :
    existsb (fun r => x_sha256 r =? sha) (attachments s) = false ->
    has_image s img = true ->
    statement s
      (set_attachments s
         (attachments s ++
            [mk_attachment (next_rowid (map x_id (attachments s))) img kind rel sha ts]))
| st_replace_vote s i u l sc created :
    label_ok l = true ->
    has_image s i && has_user s u = true ->
    statement s
      (set_quality_votes s
         (filter (fun q => negb (same_voter i u q)) (quality_votes s)
          ++ [mk_vote (next_rowid (map q_id (quality_votes s))) i u l sc created])).

(** Statements one after the other. *)
Inductive statements : store -> store -> Prop :=
| sts_done s : statements s s
| sts_step s s1 s2 : statement s s1 -> statements s1 s2 -> statements s s2.

(** Whether the call is an [add_tag_for_user] that finds its row
    soft-deleted. *)
Definition reactivating (s : store) (c : call) : bool :=
  match c with
  | AddTagForUser _ i n u cat =>
      match upsert_tag n cat None s with
      | (s1, inr tid) =>
          match find_annotation s1 i tid u with
          | Some r => negb (a_is_deleted r =? 0)%Z
          | None => false
          end
      | (_, inl _) => false
      end
  | _ => false
  end.

(** *** Referential integrity *)

Definition refs_ok (s : store) : Prop :=
  (forall a, In a (annotations s) ->
     has_image s (a_image_id a) = true /\ has_tag s (a_tag_id a) = true /\
     has_user s (a_user_id a) = true) /\
  (forall q, In q (quality_votes s) ->
     has_image s (q_image_id q) = true /\ has_user s (q_user_id q) = true) /\
  (forall x, In x (attachments s) -> has_image s (x_image_id x) = true).

(** *** PRIMARY KEY and UNIQUE constraints *)

Definition tag_key (t : tag_row) : string * string := (t_name t, t_category t).

Record keys_ok (s : store) : Prop := mk_keys_ok
  { user_ids : NoDup (map u_id (users s));
    user_names : NoDup (map u_username (users s));
    image_ids : NoDup (map i_id (images s));
    image_digests : NoDup (map i_sha256 (images s));
    tag_ids : NoDup (map t_id (tags s));
    tag_keys : NoDup (map tag_key (tags s));
    annotation_ids : NoDup (map a_id (annotations s));
    annotation_triples : NoDup (map triple_of (annotations s));
    vote_ids : NoDup (map q_id (quality_votes s));
    vote_voters : NoDup (map voter_of (quality_votes s));
    attachment_ids : NoDup (map x_id (attachments s));
    attachment_digests : NoDup (map x_sha256 (attachments s)) }.

(** *** What a later store keeps of an earlier one *)

Definition extends {A} (l l' : list A) : Prop := exists e, l' = (l ++ e)%list.

(** Users, tags and attachments are kept as they are; of an image all but
    its path, of an annotation its id and triple. *)
Definition kept (s s' : store) : Prop :=
  extends (users s) (users s') /\
  extends (tags s) (tags s') /\
  extends (attachments s) (attachments s') /\
  extends (map (fun r => (i_id r, i_sha256 r, i_created_at r)) (images s))
    (map (fun r => (i_id r, i_sha256 r, i_created_at r)) (images s')) /\
  extends (map (fun a => (a_id a, triple_of a)) (annotations s))
    (map (fun a => (a_id a, triple_of a)) (annotations s')).

(** *** What an import leaves of the data

    A vote without its row id. *)
Definition vote_fields (q : vote_row) : Z * Z * string * option Z * string :=
  (q_image_id q, q_user_id q, q_label q, q_score q, q_created_at q).

(** The CHECK on [label], and a timestamp that [when or now] keeps. *)
Definition votes_ok (s : store) : Prop :=
  forall q, In q (quality_votes s) ->
    label_ok (q_label q) = true /\ q_created_at q <> "".

(** [s'] has the users [us] and otherwise the data of [s]: the same images,
    tags, annotations and attachments, and the same votes up to their row
    ids and order. *)
Definition same_data (s : store) (us : list user_row) (s' : store) : Prop :=
  users s' = us /\ images s' = images s /\ tags s' = tags s /\
  annotations s' = annotations s /\ attachments s' = attachments s /\
  Permutation (map vote_fields (quality_votes s')) (map vote_fields (quality_votes s)).

End Statements.

(* ================================================================== *)
(** ** Measures used to state what an import did                      *)
(* ================================================================== *)

Module ImporterViews.
Import Importer.

(** The listed paths that are regular files right now, in order. *)
Definition regular (d : disk) (paths : list string) : list string :=
  filter (fun p => match d p with Some _ => true | None => false end) paths.

Definition rows (c : db) : Z := Z.of_nat (List.length (files c)).
Definition links (c : db) : Z := Z.of_nat (List.length (file_tags c)).

Definition has_digest (c : db) (digest : string) : bool :=
  existsb (fun r => f_sha256 r =? digest) (files c).

Definition has_link (c : db) (file_id tag_id : Z) : bool :=
  existsb (fun l => (fst l =? file_id)%Z && (snd l =? tag_id)%Z) (file_tags c).

(** Two files with the same content, a third one, nothing else. *)
Definition sample_disk : disk :=
  fun p => if (p =? "a.txt") || (p =? "b.txt") then Some "hello"
           else if p =? "c.txt" then Some "other" else None.

End ImporterViews.

(* ================================================================== *)
(** ** Views of the search used to state its properties               *)
(* ================================================================== *)

Module QueryViews.
Import Query.

(** Only whitespace (or nothing at all). *)
Fixpoint blank (s : string) : bool :=
  match s with
  | EmptyString => true
  | String c r => Str.is_space c && blank r
  end.

(** The tests of [item_hidden] that come before the date test, as one
    condition. *)
Definition hidden_before_date (f : filters) (idx : index) (it : item) : bool :=
  let id := it_img_id it in
  negb (forallb (fun s => Str.contains s (Str.lower (it_rel it))) (name_subs f))
  || nonempty (tag_subs f)
     && negb (forallb (fun s => existsb (fun t => Str.contains s t)
                                  (map_tags_lower idx id)) (tag_subs f))
  || nonempty (cats f) && negb (issubset (cats f) (map_cats idx id))
  || nonempty (users f) && negb (issubset (users f) (map_users idx id))
  || nonempty (labels f) && negb (issubset (labels f) (map_labels idx id))
  || has_csv f && negb (map_has_csv idx id).

(** A [datetime] without [tzinfo]. *)
Definition naive (d : datetime) : bool :=
  match dt_offset d with None => true | Some _ => false end.

Definition naive_opt (o : option datetime) : bool :=
  match o with Some d => naive d | None => true end.

(** The bound of the range that the date test compares first. *)
Definition first_bound (dr : date_range) : option datetime :=
  match fst dr with Some a => Some a | None => snd dr end.

End QueryViews.

(* ================================================================== *)
(** ** Properties of the store                                        *)
(* ================================================================== *)

Module LibFacts.
Import Lib.

(** *** Lists *)

Lemma find_none_existsb {A} (f : A -> bool) l :
  find f l = None -> existsb f l = false.
Proof.
  induction l as [|x l IH]; cbn; [reflexivity|].
  destruct (f x); [discriminate | exact IH].
Qed.

Lemma find_some_existsb {A} (f : A -> bool) l x :
  find f l = Some x -> existsb f l = true.
Proof.
  intros H. apply find_some in H. apply existsb_exists. exists x. exact H.
Qed.

Lemma find_app_some {A} (f : A -> bool) l l' x :
  find f l = Some x -> find f (l ++ l') = Some x.
Proof.
  induction l as [|y l IH]; cbn; [discriminate|].
  destruct (f y); [trivial | exact IH].
Qed.

Lemma find_app_none {A} (f : A -> bool) l l' :
  find f l = None -> find f (l ++ l') = find f l'.
Proof.
  induction l as [|y l IH]; cbn; [trivial|].
  destruct (f y); [discriminate | exact IH].
Qed.

Lemma filter_none {A} (f : A -> bool) l :
  existsb f l = false -> filter f l = [].
Proof.
  induction l as [|y l IH]; cbn; [trivial|].
  destruct (f y); cbn; [discriminate | exact IH].
Qed.

Lemma is_triple_iff i t u a :
  is_triple i t u a = true <-> triple_of a = (i, t, u).
Proof.
  unfold is_triple, triple_of. rewrite !andb_true_iff, !Z.eqb_eq.
  split; [intros [[-> ->] ->]; reflexivity | intros [= -> -> ->]; auto].
Qed.

Lemma same_voter_iff i u q :
  same_voter i u q = true <-> voter_of q = (i, u).
Proof.
  unfold same_voter, voter_of. rewrite andb_true_iff, !Z.eqb_eq.
  split; [intros [-> ->]; reflexivity | intros [= -> ->]; auto].
Qed.

(** With distinct keys, the rows that carry one key are at most one row, and
    [find] returns it. *)
Lemma unique_key_filter {A K} (key : A -> K) (p : A -> bool) (k : K) l :
  (forall a, p a = true <-> key a = k) ->
  NoDup (map key l) ->
  forall a, In a l -> p a = true -> filter p l = [a] /\ find p l = Some a.
Proof.
  intros Hp. induction l as [|x l IH]; cbn; intros Hnd a Hin Hpa; [contradiction|].
  inversion Hnd as [|? ? Hnotin Hnd']; subst.
  assert (Hrest : forall b, In b l -> p b = true -> In (key x) (map key l) -> False)
    by (intros; auto).
  destruct Hin as [->|Hin].
  - rewrite Hpa. split; [|reflexivity]. f_equal. apply filter_none.
    destruct (existsb p l) eqn:E; [|reflexivity].
    apply existsb_exists in E. destruct E as [b [Hb Hpb]].
    exfalso. apply Hnotin. apply Hp in Hpa, Hpb. rewrite Hpa, <- Hpb.
    apply in_map. exact Hb.
  - destruct (p x) eqn:Epx.
    + exfalso. apply Hnotin. apply Hp in Epx, Hpa. rewrite Epx, <- Hpa.
      apply in_map. exact Hin.
    + apply IH; assumption.
Qed.

Lemma filter_length_le_1 {A K} (key : A -> K) (p : A -> bool) (k : K) l :
  (forall a, p a = true <-> key a = k) ->
  NoDup (map key l) -> (List.length (filter p l) <= 1)%nat.
Proof.
  intros Hp Hnd. destruct (filter p l) as [|a r] eqn:E; cbn; [lia|].
  assert (Hin : In a (filter p l)) by (rewrite E; left; reflexivity).
  apply filter_In in Hin. destruct Hin as [Hin Hpa].
  destruct (unique_key_filter key p k l Hp Hnd a Hin Hpa) as [Hf _].
  rewrite Hf in E. inversion E; subst. cbn. lia.
Qed.

(** *** [upsert_tag] never raises; afterwards the tag resolves to the
    returned id and earlier resolutions are kept. *)

Lemma upsert_tag_found n c d s r :
  find_tag s n c = Some r -> upsert_tag n c d s = (s, inr (t_id r)).
Proof.
  intros H. unfold upsert_tag, bind, get, ret. rewrite H. reflexivity.
Qed.

Lemma upsert_tag_fresh n c d s :
  find_tag s n c = None ->
  upsert_tag n c d s =
    (set_tags s (tags s ++ [mk_tag (next_rowid (map t_id (tags s))) n c d]),
     inr (next_rowid (map t_id (tags s)))).
Proof.
  intros H. unfold upsert_tag, bind, get, insert_tag. rewrite H.
  unfold find_tag in H. rewrite (find_none_existsb _ _ H). reflexivity.
Qed.

Lemma find_tag_fresh n c d s id :
  find_tag s n c = None ->
  find_tag (set_tags s (tags s ++ [mk_tag id n c d])) n c = Some (mk_tag id n c d).
Proof.
  intros H. unfold find_tag in *. cbn [tags set_tags].
  rewrite (find_app_none _ _ _ H). cbn. rewrite !String.eqb_refl. reflexivity.
Qed.

Lemma upsert_tag_ok n c d s :
  exists s' r,
    upsert_tag n c d s = (s', inr (t_id r)) /\ find_tag s' n c = Some r /\
    users s' = users s /\ images s' = images s /\
    annotations s' = annotations s /\ quality_votes s' = quality_votes s /\
    attachments s' = attachments s /\
    (exists extra, tags s' = (tags s ++ extra)%list).
Proof.
  destruct (find_tag s n c) as [r|] eqn:E.
  - exists s, r. rewrite (upsert_tag_found _ _ d _ _ E).
    repeat split; auto. exists []. rewrite app_nil_r. reflexivity.
  - exists (set_tags s (tags s ++ [mk_tag (next_rowid (map t_id (tags s))) n c d])),
      (mk_tag (next_rowid (map t_id (tags s))) n c d).
    rewrite (upsert_tag_fresh _ _ d _ E).
    split; [reflexivity|]. split; [apply find_tag_fresh; exact E|].
    cbn. repeat split; auto. eexists. reflexivity.
Qed.

Lemma find_filter_hd {A} (p : A -> bool) l : find p l = hd_error (filter p l).
Proof.
  induction l as [|x l IH]; cbn; [reflexivity|].
  destruct (p x); [reflexivity | exact IH].
Qed.

Lemma filter_map_same {A} (p : A -> bool) (f : A -> A) l :
  (forall a, p (f a) = p a) -> filter p (map f l) = map f (filter p l).
Proof.
  intros H. induction l as [|x l IH]; cbn; [reflexivity|].
  rewrite H. destruct (p x); cbn; rewrite IH; reflexivity.
Qed.

Lemma NoDup_snoc {A} (l : list A) x : NoDup l -> ~ In x l -> NoDup (l ++ [x]).
Proof.
  induction l as [|y l IH]; cbn; intros Hnd Hx.
  - constructor; [intros [] | constructor].
  - inversion Hnd; subst. constructor.
    + rewrite in_app_iff. cbn. intros [H|[H|[]]]; [contradiction|]. subst. auto.
    + apply IH; auto.
Qed.

Lemma NoDup_map_filter {A K} (key : A -> K) (p : A -> bool) l :
  NoDup (map key l) -> NoDup (map key (filter p l)).
Proof.
  induction l as [|x l IH]; cbn; intros Hnd; [constructor|].
  inversion Hnd; subst. destruct (p x); cbn; [|auto].
  constructor; [|auto]. intros Hin. apply in_map_iff in Hin.
  destruct Hin as [b [Hb Hin]]. apply filter_In in Hin. destruct Hin as [Hin _].
  match goal with H : ~ In _ _ |- _ => apply H end.
  rewrite <- Hb. apply in_map. exact Hin.
Qed.

(** *** What [add_tag_for_user] does once the tag is resolved. *)

Lemma add_tag_unfold now i n u c s s' tid :
  upsert_tag n c None s = (s', inr tid) ->
  add_tag_for_user now i n u c s = after_tag now i tid u s'.
Proof.
  intros H. unfold add_tag_for_user, after_tag, bind at 1. rewrite H.
  unfold bind, get, ret. destruct (find_annotation s' i tid u) as [r|]; [|reflexivity].
  destruct (negb _); reflexivity.
Qed.

Lemma reactivate_keeps_triple id now k a :
  is_triple (fst (fst k)) (snd (fst k)) (snd k)
    (if (a_id a =? id)%Z
     then mk_annotation (a_id a) (a_image_id a) (a_tag_id a) (a_user_id a) now 0
     else a)
  = is_triple (fst (fst k)) (snd (fst k)) (snd k) a.
Proof. destruct (a_id a =? id)%Z; reflexivity. Qed.

Lemma soft_delete_keeps_triple i t u now i' t' u' a :
  is_triple i' t' u'
    (if is_triple i t u a
     then mk_annotation (a_id a) (a_image_id a) (a_tag_id a) (a_user_id a) now 1
     else a)
  = is_triple i' t' u' a.
Proof. destruct (is_triple i t u a); reflexivity. Qed.

Lemma rows_of_triple_reactivate id now i t u s :
  rows_of_triple (fst (reactivate_annotation id now s)) i t u =
  map (fun a => if (a_id a =? id)%Z
                then mk_annotation (a_id a) (a_image_id a) (a_tag_id a)
                       (a_user_id a) now 0
                else a) (rows_of_triple s i t u).
Proof.
  unfold rows_of_triple, reactivate_annotation. cbn.
  apply filter_map_same. intros a. apply (reactivate_keeps_triple id now (i, t, u)).
Qed.

Lemma rows_of_triple_soft_delete i t u now i' t' u' s :
  rows_of_triple (fst (soft_delete_annotation i t u now s)) i' t' u' =
  map (fun a => if is_triple i t u a
                then mk_annotation (a_id a) (a_image_id a) (a_tag_id a)
                       (a_user_id a) now 1
                else a) (rows_of_triple s i' t' u').
Proof.
  unfold rows_of_triple, soft_delete_annotation. cbn.
  apply filter_map_same. intros a. apply soft_delete_keeps_triple.
Qed.

Lemma rows_of_triple_find s i t u a :
  rows_of_triple s i t u = [a] -> find_annotation s i t u = Some a.
Proof.
  unfold rows_of_triple, find_annotation. intros H.
  rewrite find_filter_hd, H. reflexivity.
Qed.

Lemma rows_of_triple_fields s i t u a :
  In a (rows_of_triple s i t u) ->
  a_image_id a = i /\ a_tag_id a = t /\ a_user_id a = u.
Proof.
  unfold rows_of_triple. intros H. apply filter_In in H. destruct H as [_ H].
  apply is_triple_iff in H. unfold triple_of in H. inversion H; auto.
Qed.

(** After a successful add the triple has exactly one row, and it is
    active. *)
Lemma after_tag_ok now i tid u s' s1 :
  annotations_unique s' ->
  after_tag now i tid u s' = (s1, inr tt) ->
  tags s1 = tags s' /\
  exists a, rows_of_triple s1 i tid u = [a] /\ a_is_deleted a = 0.
Proof.
  intros Hu. unfold after_tag.
  destruct (find_annotation s' i tid u) as [r|] eqn:E.
  - unfold find_annotation in E. pose proof (find_some _ _ E) as [Hin Hr].
    destruct (unique_key_filter triple_of (is_triple i tid u) (i, tid, u)
                (annotations s') (is_triple_iff i tid u) Hu r Hin Hr) as [Hf _].
    destruct (a_is_deleted r =? 0)%Z eqn:Ed; cbn [negb].
    + intros [= <-]. split; [reflexivity|]. exists r. split; [exact Hf|].
      apply Z.eqb_eq. exact Ed.
    + intros H. assert (Hs : s1 = fst (reactivate_annotation (a_id r) now s'))
        by (rewrite H; reflexivity).
      subst s1. split; [reflexivity|].
      rewrite rows_of_triple_reactivate. unfold rows_of_triple. rewrite Hf. cbn.
      rewrite Z.eqb_refl. eexists. split; reflexivity.
  - unfold insert_annotation.
    destruct (trg_limit_annotators s' i); [discriminate|].
    unfold find_annotation in E. rewrite (find_none_existsb _ _ E).
    destruct (negb _); [discriminate|].
    intros [= <-]. split; [reflexivity|].
    unfold rows_of_triple. cbn [annotations set_annotations].
    rewrite filter_app, (filter_none _ _ (find_none_existsb _ _ E)). cbn.
    unfold is_triple. cbn. rewrite !Z.eqb_refl. cbn.
    eexists. split; reflexivity.
Qed.

(** *** Adding a tag that is already active *)

(** C10.  When the tag resolves to [t] and the row of (image, t, user) is
    present with [is_deleted = 0], [add_tag_for_user] returns normally and
    the store afterwards is the store before: no row is added and no
    [created_at] is touched. *)
Theorem add_tag_active_is_noop now i n u c s t a :
  annotations_unique s ->
  find_tag s n c = Some t ->
  In a (annotations s) ->
  triple_of a = (i, t_id t, u) ->
  a_is_deleted a = 0 ->
  add_tag_for_user now i n u c s = (s, inr tt).
Proof.
  intros Hu Ht Hin Hk Hact.
  rewrite (add_tag_unfold now i n u c s s (t_id t) (upsert_tag_found _ _ _ _ _ Ht)).
  unfold after_tag, find_annotation.
  apply is_triple_iff in Hk.
  destruct (unique_key_filter triple_of (is_triple i (t_id t) u) (i, t_id t, u)
              (annotations s) (is_triple_iff i (t_id t) u) Hu a Hin Hk) as [_ Hf].
  rewrite Hf, Hact. reflexivity.
Qed.

(** *** Add, remove, add again *)

(** C6.  After a successful add the triple has exactly one row, active;
    [remove_tag_for_user] keeps that row and sets [is_deleted = 1]; adding
    again keeps the same row (same id), sets [is_deleted = 0] and writes the
    new clock value into [created_at].  The table never changes length after
    the first add. *)
Theorem soft_delete_reactivation now1 now2 now3 i n u c s s1 :
  annotations_unique s ->
  add_tag_for_user now1 i n u c s = (s1, inr tt) ->
  exists t a s2 s3,
    find_tag s1 n c = Some t /\
    rows_of_triple s1 i (t_id t) u = [a] /\ a_is_deleted a = 0 /\
    remove_tag_for_user now2 i n u c s1 = (s2, inr tt) /\
    rows_of_triple s2 i (t_id t) u = [mk_annotation (a_id a) i (t_id t) u now2 1] /\
    List.length (annotations s2) = List.length (annotations s1) /\
    add_tag_for_user now3 i n u c s2 = (s3, inr tt) /\
    rows_of_triple s3 i (t_id t) u = [mk_annotation (a_id a) i (t_id t) u now3 0] /\
    List.length (annotations s3) = List.length (annotations s1).
Proof.
  intros Hu Hadd.
  destruct (upsert_tag_ok n c None s)
    as (s' & t & Hup & Hft & _ & _ & Hann & _ & _ & _).
  rewrite (add_tag_unfold _ _ _ _ _ _ _ _ Hup) in Hadd.
  assert (Hu' : annotations_unique s')
    by (unfold annotations_unique; rewrite Hann; exact Hu).
  destruct (after_tag_ok _ _ _ _ _ _ Hu' Hadd) as (Htags & a & Hrows & Hact).
  assert (Hft1 : find_tag s1 n c = Some t)
    by (unfold find_tag in *; rewrite Htags; exact Hft).
  assert (Hfields : a_image_id a = i /\ a_tag_id a = t_id t /\ a_user_id a = u)
    by (apply (rows_of_triple_fields s1); rewrite Hrows; left; reflexivity).
  destruct Hfields as (Hi & Htg & Hus).
  assert (Htrip : is_triple i (t_id t) u a = true)
    by (apply is_triple_iff; unfold triple_of; congruence).
  set (s2 := fst (soft_delete_annotation i (t_id t) u now2 s1)).
  assert (Hrem : remove_tag_for_user now2 i n u c s1 = (s2, inr tt))
    by (unfold remove_tag_for_user, bind, get; rewrite Hft1; reflexivity).
  assert (Hrows2 : rows_of_triple s2 i (t_id t) u
                   = [mk_annotation (a_id a) i (t_id t) u now2 1]).
  { unfold s2. rewrite rows_of_triple_soft_delete, Hrows. cbn.
    rewrite Htrip, Hi, Htg, Hus. reflexivity. }
  assert (Hft2 : find_tag s2 n c = Some t) by exact Hft1.
  set (s3 := fst (reactivate_annotation (a_id a) now3 s2)).
  assert (Hadd3 : add_tag_for_user now3 i n u c s2 = (s3, inr tt)).
  { rewrite (add_tag_unfold now3 i n u c s2 s2 (t_id t)
               (upsert_tag_found _ _ _ _ _ Hft2)).
    unfold after_tag. rewrite (rows_of_triple_find _ _ _ _ _ Hrows2). reflexivity. }
  exists t, a, s2, s3. repeat split; try assumption.
  - unfold s2, soft_delete_annotation. cbn. apply length_map.
  - unfold s3. rewrite rows_of_triple_reactivate, Hrows2. cbn.
    rewrite Z.eqb_refl. reflexivity.
  - unfold s3, s2, reactivate_annotation, soft_delete_annotation. cbn.
    rewrite !length_map. reflexivity.
Qed.

(** *** The UNIQUE constraints hold in every reachable store *)

#[local] Arguments next_rowid : simpl never.

Ltac unfold_calls :=
  unfold exec, run, add_tag_for_user, remove_tag_for_user, upsert_quality,
    ensure_user, upsert_image, upsert_tag, upsert_attachment,
    insert_user, insert_image, insert_tag, insert_annotation, insert_attachment,
    insert_or_replace_vote, update_image_path, reactivate_annotation,
    soft_delete_annotation, bind, get, ret, raised.

Ltac split_calls :=
  repeat (match goal with
          | |- context [match ?x with _ => _ end] =>
              lazymatch x with
              | context [match _ with _ => _ end] => fail
              | _ => destruct x eqn:?
              end
          end; cbn beta iota).

Lemma exec_quality_votes s c :
  (forall now i u l sc w, c <> UpsertQuality now i u l sc w) ->
  quality_votes (exec s c) = quality_votes s.
Proof.
  intros Hc. destruct c; try (exfalso; eapply Hc; reflexivity);
    unfold_calls; split_calls; reflexivity.
Qed.

Lemma votes_unique_exec s c : votes_unique s -> votes_unique (exec s c).
Proof.
  intros Hu. unfold votes_unique in *.
  destruct c;
    try (rewrite exec_quality_votes; [exact Hu | intros; discriminate]).
  unfold_calls. split_calls; cbn [fst quality_votes set_quality_votes]; try exact Hu.
  rewrite map_app. cbn [map]. apply NoDup_snoc.
  - apply NoDup_map_filter. exact Hu.
  - intros Hin. apply in_map_iff in Hin. destruct Hin as [q [Hq Hin]].
    apply filter_In in Hin. destruct Hin as [_ Hneg].
    apply same_voter_iff in Hq. cbn in Hq. rewrite Hq in Hneg. discriminate.
Qed.

Lemma NoDup_map_same_key {A K} (key : A -> K) (f : A -> A) l :
  (forall a, key (f a) = key a) -> NoDup (map key l) -> NoDup (map key (map f l)).
Proof.
  intros H Hnd. rewrite map_map. erewrite map_ext; [exact Hnd|]. exact H.
Qed.

Lemma annotations_unique_insert s i t u now :
  annotations_unique s ->
  existsb (is_triple i t u) (annotations s) = false ->
  NoDup (map triple_of (annotations s ++ [mk_annotation
           (next_rowid (map a_id (annotations s))) i t u now 0])).
Proof.
  intros Hu Hex. rewrite map_app. cbn. apply NoDup_snoc; [exact Hu|].
  intros Hin. apply in_map_iff in Hin. destruct Hin as [a [Ha Hin]].
  assert (existsb (is_triple i t u) (annotations s) = true); [|congruence].
  apply existsb_exists. exists a. split; [exact Hin|].
  apply is_triple_iff. exact Ha.
Qed.

Lemma annotations_unique_exec s c :
  annotations_unique s -> annotations_unique (exec s c).
Proof.
  intros Hu. unfold annotations_unique in *.
  destruct c; unfold_calls; split_calls; cbn; try exact Hu;
    try (apply NoDup_map_same_key; [|exact Hu]; intros ?;
         match goal with |- context [if ?b then _ else _] => destruct b end;
         reflexivity).
  all: try (match goal with
            | H : (_, _) = (_, _) |- _ => inversion H; subst; clear H
            end); cbn; try exact Hu.
  all: try (apply annotations_unique_insert; assumption).
Qed.

Lemma reachable_unique s :
  reachable s -> annotations_unique s /\ votes_unique s.
Proof.
  induction 1 as [|s c _ [IHa IHv]].
  - split; constructor.
  - split; [apply annotations_unique_exec | apply votes_unique_exec]; assumption.
Qed.

Lemma votes_at_most_one s i u :
  votes_unique s -> (List.length (votes_of s i u) <= 1)%nat.
Proof.
  intros Hu. unfold votes_of.
  exact (filter_length_le_1 voter_of (same_voter i u) (i, u) _ (same_voter_iff i u) Hu).
Qed.

Lemma filter_filter_negb {A} (p : A -> bool) l :
  filter p (filter (fun x => negb (p x)) l) = [].
Proof.
  induction l as [|x l IH]; cbn; [reflexivity|].
  destruct (p x) eqn:E; cbn; [exact IH | rewrite E; exact IH].
Qed.

(** *** Quality votes *)

Lemma upsert_quality_ok now i u l sc w s :
  label_ok l = true -> has_image s i = true -> has_user s u = true ->
  upsert_quality now i u l sc w s =
    (set_quality_votes s
       (filter (fun q => negb (same_voter i u q)) (quality_votes s)
        ++ [mk_vote (next_rowid (map q_id (quality_votes s))) i u l sc (or_now w now)]),
     inr tt).
Proof.
  intros Hl Hi Hu. unfold upsert_quality, insert_or_replace_vote.
  rewrite Hl, Hi, Hu. reflexivity.
Qed.

Lemma upsert_quality_inv now i u l sc w s s1 :
  upsert_quality now i u l sc w s = (s1, inr tt) ->
  label_ok l = true /\ has_image s i = true /\ has_user s u = true.
Proof.
  unfold upsert_quality, insert_or_replace_vote.
  destruct (label_ok l); cbn [negb]; [|discriminate].
  destruct (has_image s i); cbn; [|discriminate].
  destruct (has_user s u); cbn; [|discriminate]. auto.
Qed.

(** C7.  In a reachable store every (image, user) pair has at most one
    vote row; a vote "good" followed by a vote "bad" by the same user on the
    same image both go through and leave exactly one row for the pair, with
    label "bad" (and the at-most-one property still holds). *)
Theorem quality_vote_replace now1 now2 i u sc1 sc2 w1 w2 s s1 :
  reachable s ->
  upsert_quality now1 i u "good" sc1 w1 s = (s1, inr tt) ->
  (forall i' u', (List.length (votes_of s i' u') <= 1)%nat) /\
  (forall i' u', (List.length (votes_of s1 i' u') <= 1)%nat) /\
  exists s2 q,
    upsert_quality now2 i u "bad" sc2 w2 s1 = (s2, inr tt) /\
    votes_of s2 i u = [q] /\ q_label q = "bad" /\
    (forall i' u', (List.length (votes_of s2 i' u') <= 1)%nat).
Proof.
  intros Hr H1.
  assert (Hr1 : reachable s1).
  { replace s1 with (exec s (UpsertQuality now1 i u "good" sc1 w1)).
    - constructor. exact Hr.
    - unfold exec, run. rewrite H1. reflexivity. }
  destruct (upsert_quality_inv _ _ _ _ _ _ _ _ H1) as (_ & Hi & Hu).
  rewrite (upsert_quality_ok now1 i u "good" sc1 w1 s eq_refl Hi Hu) in H1.
  assert (Hi1 : has_image s1 i = true) by (inversion H1; subst; exact Hi).
  assert (Hu1 : has_user s1 u = true) by (inversion H1; subst; exact Hu).
  pose proof (upsert_quality_ok now2 i u "bad" sc2 w2 s1 eq_refl Hi1 Hu1) as H2.
  split; [intros; apply votes_at_most_one, (reachable_unique s Hr)|].
  split; [intros; apply votes_at_most_one, (reachable_unique s1 Hr1)|].
  exists (set_quality_votes s1
     (filter (fun q => negb (same_voter i u q)) (quality_votes s1)
      ++ [mk_vote (next_rowid (map q_id (quality_votes s1))) i u "bad" sc2
            (or_now w2 now2)])),
    (mk_vote (next_rowid (map q_id (quality_votes s1))) i u "bad" sc2 (or_now w2 now2)).
  split; [exact H2|]. split; [|split; [reflexivity|]].
  - unfold votes_of. cbn [quality_votes set_quality_votes].
    rewrite filter_app, filter_filter_negb. cbn.
    unfold same_voter. cbn. rewrite !Z.eqb_refl. reflexivity.
  - intros. apply votes_at_most_one.
    assert (Hr2 : reachable (exec s1 (UpsertQuality now2 i u "bad" sc2 w2)))
      by (constructor; exact Hr1).
    unfold exec, run in Hr2. rewrite H2 in Hr2. exact (proj2 (reachable_unique _ Hr2)).
Qed.

(** *** The annotator count, read off the per-image summary *)

Lemma active_users_summary l i :
  map a_user_id (filter (is_active_on i) l) =
  map entry_user
    (filter entry_active
       (map (fun a => (a_user_id a, a_tag_id a, a_is_deleted a))
          (filter (fun a => (a_image_id a =? i)%Z) l))).
Proof.
  induction l as [|a l IH]; cbn; [reflexivity|].
  unfold is_active_on at 1. destruct (a_image_id a =? i)%Z; cbn; [|exact IH].
  unfold entry_active at 1. cbn.
  destruct (a_is_deleted a =? 0)%Z; cbn; rewrite IH; reflexivity.
Qed.

Lemma count_annotators_summary s i :
  NoDup (map entry_user (summary s i)) ->
  count_annotators s i = List.length (filter entry_active (summary s i)).
Proof.
  intros Hnd. unfold count_annotators, active_annotators.
  rewrite active_users_summary. fold (rows_on s i). fold (summary s i).
  rewrite nodup_fixed_point by (apply NoDup_map_filter; exact Hnd).
  apply length_map.
Qed.

Lemma no_row_of_user s i t u :
  ~ In u (map entry_user (summary s i)) -> find_annotation s i t u = None.
Proof.
  intros Hno. unfold find_annotation.
  destruct (find _ _) as [a|] eqn:E; [|reflexivity].
  exfalso. apply find_some in E. destruct E as [Hin Ht].
  apply is_triple_iff in Ht. unfold triple_of in Ht. inversion Ht; subst.
  apply Hno. unfold summary, rows_on. rewrite map_map. cbn.
  apply in_map_iff. exists a. split; [reflexivity|].
  apply filter_In. split; [exact Hin | apply Z.eqb_refl].
Qed.

Lemma find_tag_has_tag s n c t : find_tag s n c = Some t -> has_tag s (t_id t) = true.
Proof.
  intros H. apply find_some in H. destruct H as [Hin _].
  apply existsb_exists. exists t. split; [exact Hin | apply Z.eqb_refl].
Qed.

Lemma filter_map_comp {A B} (p : B -> bool) (f : A -> B) l :
  filter p (map f l) = map f (filter (fun x => p (f x)) l).
Proof.
  induction l as [|x l IH]; cbn; [reflexivity|].
  destruct (p (f x)); cbn; rewrite IH; reflexivity.
Qed.

Lemma find_tag_stable s s' n c :
  (exists extra, tags s' = (tags s ++ extra)%list) ->
  find_tag s n c <> None -> find_tag s' n c = find_tag s n c.
Proof.
  intros [extra He] Hf. unfold find_tag in *. rewrite He.
  destruct (find _ (tags s)) as [t|] eqn:E; [|congruence].
  apply find_app_some. exact E.
Qed.

Lemma settled_users s i done :
  settled s i done -> map entry_user (summary s i) = map done_user done.
Proof. intros [H _]. rewrite H, map_map. reflexivity. Qed.

Lemma settled_active s i done :
  settled s i done ->
  List.length (filter entry_active (summary s i)) = List.length (filter done_active done).
Proof.
  intros [H _]. rewrite H, filter_map_comp, length_map. reflexivity.
Qed.

Lemma settled_count s i done :
  settled s i done -> NoDup (map done_user done) ->
  count_annotators s i = List.length (filter done_active done).
Proof.
  intros Hs Hnd. rewrite count_annotators_summary.
  - apply (settled_active _ _ _ Hs).
  - rewrite (settled_users _ _ _ Hs). exact Hnd.
Qed.

Lemma settled_frame s s' i done :
  settled s i done ->
  annotations s' = annotations s ->
  (exists extra, tags s' = (tags s ++ extra)%list) ->
  settled s' i done.
Proof.
  intros [Hsum Hall] Ha Ht. split.
  - unfold summary, rows_on in *. rewrite Ha, Hsum.
    apply map_ext_in. intros x Hx. unfold done_entry, tag_id_of.
    rewrite Forall_forall in Hall.
    rewrite (find_tag_stable s s' _ _ Ht (Hall x Hx)). reflexivity.
  - rewrite Forall_forall in *. intros x Hx.
    rewrite (find_tag_stable s s' _ _ Ht (Hall x Hx)). auto.
Qed.

Lemma summary_snoc s i t u now :
  summary (set_annotations s
             (annotations s ++ [mk_annotation (next_rowid (map a_id (annotations s)))
                                  i t u now 0])) i
  = (summary s i ++ [(u, t, 0)])%list.
Proof.
  unfold summary, rows_on. cbn [annotations set_annotations].
  rewrite filter_app, map_app. cbn. rewrite Z.eqb_refl. reflexivity.
Qed.

(** A user with no row on the image yet: the row is inserted exactly when
    fewer than five distinct users are active on the image. *)
Lemma add_new_annotator s i done r :
  settled s i done ->
  NoDup (map done_user done) ->
  ~ In (r_user r) (map done_user done) ->
  has_image s i = true -> has_user s (r_user r) = true ->
  exists s1 t,
    upsert_tag (r_tag r) (r_category r) None s = (s1, inr (t_id t)) /\
    find_tag s1 (r_tag r) (r_category r) = Some t /\
    settled s1 i done /\
    users s1 = users s /\ images s1 = images s /\
    annotations s1 = annotations s /\
    quality_votes s1 = quality_votes s /\ attachments s1 = attachments s /\
    (exists extra, tags s1 = (tags s ++ extra)%list) /\
    add_request i r s =
      if (5 <=? List.length (filter done_active done))%nat
      then (s1, inl CapacityExceeded)
      else (set_annotations s1
              (annotations s1 ++
                 [mk_annotation (next_rowid (map a_id (annotations s1)))
                    i (t_id t) (r_user r) (r_now r) 0]),
            inr tt).
Proof.
  intros Hs Hnd Hnew Hi Hu.
  destruct (upsert_tag_ok (r_tag r) (r_category r) None s)
    as (s1 & t & Hup & Hft & Hus & Him & Han & Hq & Hx & Hext).
  pose proof (settled_frame s s1 i done Hs Han Hext) as Hs1.
  exists s1, t. repeat (split; [assumption|]).
  unfold add_request. rewrite (add_tag_unfold _ _ _ _ _ _ _ _ Hup).
  unfold after_tag.
  assert (Hnone : find_annotation s1 i (t_id t) (r_user r) = None)
    by (apply no_row_of_user; rewrite (settled_users _ _ _ Hs1); exact Hnew).
  rewrite Hnone. unfold insert_annotation, trg_limit_annotators.
  rewrite (settled_count _ _ _ Hs1 Hnd).
  destruct (5 <=? _)%nat; [reflexivity|].
  unfold find_annotation in Hnone. rewrite (find_none_existsb _ _ Hnone).
  unfold has_image, has_user in *. rewrite Him, Hus, Hi, Hu.
  rewrite (find_tag_has_tag _ _ _ _ Hft). reflexivity.
Qed.

Lemma add_fresh_user s i done r :
  settled s i done ->
  NoDup (map done_user done) ->
  ~ In (r_user r) (map done_user done) ->
  (List.length (filter done_active done) < 5)%nat ->
  has_image s i = true -> has_user s (r_user r) = true ->
  exists s',
    add_request i r s = (s', inr tt) /\ settled s' i (done ++ [(r, 0)]) /\
    users s' = users s /\ images s' = images s /\
    quality_votes s' = quality_votes s /\ attachments s' = attachments s /\
    (exists extra, tags s' = (tags s ++ extra)%list).
Proof.
  intros Hs Hnd Hnew Hlt Hi Hu.
  destruct (add_new_annotator s i done r Hs Hnd Hnew Hi Hu)
    as (s1 & t & _ & Hft & Hs1 & Hus & Him & _ & Hq & Hx & Hext & Hadd).
  destruct (Nat.leb_spec 5 (List.length (filter done_active done))) as [Hge|_];
    [lia|].
  eexists. split; [exact Hadd|].
  split; [|cbn [users images quality_votes attachments tags set_annotations];
           repeat split; assumption].
  destruct Hs1 as [Hsum Hall]. split.
  - rewrite summary_snoc, map_app, Hsum. cbn [map]. f_equal.
    unfold done_entry, tag_id_of, find_tag in *. cbn. rewrite Hft. reflexivity.
  - apply Forall_app. split; [exact Hall|].
    constructor; [|constructor]. cbn. unfold find_tag in *. cbn. congruence.
Qed.

Lemma add_all_fresh i reqs : forall s done,
  settled s i done ->
  NoDup (map done_user done ++ map r_user reqs) ->
  (List.length (filter done_active done) + List.length reqs <= 5)%nat ->
  has_image s i = true ->
  Forall (fun r => has_user s (r_user r) = true) reqs ->
  exists s',
    add_all i reqs s = (s', map (fun _ => inr tt) reqs) /\
    settled s' i (done ++ map (fun r => (r, 0)) reqs) /\
    users s' = users s /\ images s' = images s /\
    quality_votes s' = quality_votes s /\ attachments s' = attachments s /\
    (exists extra, tags s' = (tags s ++ extra)%list).
Proof.
  induction reqs as [|r reqs IH]; intros s done Hs Hnd Hlen Hi Hu.
  - exists s. cbn. rewrite app_nil_r.
    do 6 (split; [auto|]). exists []. rewrite app_nil_r. reflexivity.
  - cbn [map] in Hnd. pose proof (NoDup_remove _ _ _ Hnd) as [Hnd' Hnot].
    inversion Hu as [|? ? Hur Hu']; subst. cbn [List.length] in Hlen.
    destruct (add_fresh_user s i done r Hs) as (s1 & Hadd & Hs1 & Hus & Him & Hq & Hx & [e1 He1]).
    + eapply NoDup_app_remove_r. exact Hnd'.
    + intros Hin. apply Hnot. apply in_or_app. left. exact Hin.
    + lia.
    + exact Hi.
    + exact Hur.
    + destruct (IH s1 (done ++ [(r, 0)])%list) as (s2 & Hall & Hs2 & Hus2 & Him2 & Hq2 & Hx2 & [e2 He2]).
      * exact Hs1.
      * rewrite map_app, <- app_assoc. exact Hnd.
      * rewrite filter_app, length_app. cbn. lia.
      * unfold has_image in *. rewrite Him. exact Hi.
      * eapply Forall_impl; [|exact Hu']. cbn. intros a Ha.
        unfold has_user in *. rewrite Hus. exact Ha.
      * exists s2. cbn [add_all map]. rewrite Hadd, Hall.
        rewrite <- app_assoc in Hs2. cbn in Hs2.
        do 6 (split; [congruence|]).
        exists (e1 ++ e2)%list. rewrite He2, He1, app_assoc. reflexivity.
Qed.

Lemma NoDup_map_inj_in {A K} (key : A -> K) l x y :
  NoDup (map key l) -> In x l -> In y l -> key x = key y -> x = y.
Proof.
  induction l as [|a l IH]; cbn; intros Hnd Hx Hy Hk; [contradiction|].
  inversion Hnd as [|? ? Hnot Hnd']; subst.
  destruct Hx as [->|Hx], Hy as [->|Hy]; auto.
  - exfalso. apply Hnot. rewrite Hk. apply in_map. exact Hy.
  - exfalso. apply Hnot. rewrite <- Hk. apply in_map. exact Hx.
Qed.

Lemma mark_removed_user u x : done_user (mark_removed u x) = done_user x.
Proof. unfold mark_removed. destruct (done_user x =? u)%Z; reflexivity. Qed.

Lemma mark_removed_absent u done :
  ~ In u (map done_user done) -> map (mark_removed u) done = done.
Proof.
  induction done as [|x done IH]; cbn; intros Hno; [reflexivity|].
  rewrite IH by tauto. unfold mark_removed.
  destruct (Z.eqb_spec (done_user x) u); [exfalso; tauto | reflexivity].
Qed.

Lemma filter_all {A} (p : A -> bool) l : Forall (fun x => p x = true) l -> filter p l = l.
Proof.
  induction 1 as [|x l Hx _ IH]; cbn; [reflexivity|]. rewrite Hx, IH. reflexivity.
Qed.

Lemma mark_removed_count u done :
  NoDup (map done_user done) ->
  In u (map done_user done) ->
  Forall (fun x => done_active x = true) done ->
  S (List.length (filter done_active (map (mark_removed u) done))) = List.length done.
Proof.
  induction done as [|x done IH]; cbn [map]; intros Hnd Hin Hall; [destruct Hin|].
  inversion Hnd as [|? ? Hnot Hnd']; subst. inversion Hall as [|? ? Hx Hall']; subst.
  cbn [filter List.length]. unfold mark_removed at 1.
  destruct (Z.eqb_spec (done_user x) u) as [Heq|Hne].
  - cbn. rewrite mark_removed_absent by congruence.
    rewrite (filter_all _ _ Hall'). reflexivity.
  - rewrite Hx. cbn [List.length]. f_equal. apply IH; auto.
    destruct Hin as [Hin|Hin]; [contradiction | exact Hin].
Qed.

Lemma rows_on_soft_delete i t u now s :
  rows_on (fst (soft_delete_annotation i t u now s)) i =
  map (fun a => if is_triple i t u a
                then mk_annotation (a_id a) (a_image_id a) (a_tag_id a)
                       (a_user_id a) now 1
                else a) (rows_on s i).
Proof.
  unfold rows_on, soft_delete_annotation. cbn.
  apply filter_map_same. intros a. destruct (is_triple i t u a); reflexivity.
Qed.

(** Removing the tag of an earlier request flips exactly that user's row. *)
Lemma remove_settled s i done r d now :
  settled s i done ->
  NoDup (map done_user done) ->
  In (r, d) done ->
  exists s',
    remove_tag_for_user now i (r_tag r) (r_user r) (r_category r) s = (s', inr tt) /\
    settled s' i (map (mark_removed (r_user r)) done) /\
    users s' = users s /\ images s' = images s /\ tags s' = tags s.
Proof.
  intros [Hsum Hall] Hnd Hin.
  rewrite Forall_forall in Hall. pose proof (Hall _ Hin) as Hft. cbn in Hft.
  destruct (find_tag s (r_tag r) (r_category r)) as [t|] eqn:Et; [clear Hft|congruence].
  exists (fst (soft_delete_annotation i (t_id t) (r_user r) now s)).
  split; [unfold remove_tag_for_user, bind, get; rewrite Et; reflexivity|].
  split; [|repeat split].
  split.
  - unfold summary. rewrite rows_on_soft_delete, !map_map.
    transitivity (map (fun x : Z * Z * Z =>
                         if (snd (fst x) =? t_id t)%Z && (entry_user x =? r_user r)%Z
                         then (fst x, 1) else x) (summary s i)).
    + unfold summary. rewrite map_map. apply map_ext_in. intros a Ha.
      unfold rows_on in Ha. apply filter_In in Ha. destruct Ha as [_ Hi].
      unfold is_triple, entry_user. cbn. rewrite Hi. cbn.
      destruct (_ && _); reflexivity.
    + rewrite Hsum, map_map. apply map_ext_in. intros x Hx.
      unfold done_entry at 1 2, entry_user. cbn [fst snd].
      unfold mark_removed, done_user.
      destruct (Z.eqb_spec (r_user (fst x)) (r_user r)) as [Heq|Hne].
      * assert (Hxr : x = (r, d))
          by (apply (NoDup_map_inj_in done_user done); auto).
        subst x. cbn [fst snd]. unfold tag_id_of at 1. rewrite Et, Z.eqb_refl.
        reflexivity.
      * rewrite andb_false_r. reflexivity.
  - apply Forall_forall. intros x Hx. apply in_map_iff in Hx.
    destruct Hx as [y [<- Hy]]. unfold mark_removed.
    destruct (done_user y =? r_user r)%Z; cbn; apply (Hall _ Hy).
Qed.

Lemma settled_nil s i :
  (forall a, In a (annotations s) -> a_image_id a <> i) -> settled s i [].
Proof.
  intros Hno. split; [|constructor]. unfold summary, rows_on.
  rewrite filter_none; [reflexivity|].
  destruct (existsb _ _) eqn:E; [|reflexivity].
  apply existsb_exists in E. destruct E as [a [Hin Ha]].
  apply Z.eqb_eq in Ha. exfalso. exact (Hno a Hin Ha).
Qed.

(** *** Five annotators, a sixth, and a removal *)

(** C3 (as the code has it).  On an image without annotation rows, the adds
    of five distinct existing users all return normally and leave five
    active annotators.  The add of a sixth distinct user then raises the
    trigger's error; users, images, annotations, votes and attachments are
    as before, and so is the whole store when the sixth user's
    (tag, category) already exists, while a (tag, category) not yet in
    [tags] has been inserted by [upsert_tag] before the trigger fired.  Once
    any one of the five has removed their tag, four annotators are active
    and the add of a sixth distinct user returns normally. *)
Theorem annotator_cap_scenario s i reqs r6 :
  has_image s i = true ->
  (forall a, In a (annotations s) -> a_image_id a <> i) ->
  List.length reqs = 5%nat ->
  NoDup (map r_user reqs ++ [r_user r6]) ->
  Forall (fun r => has_user s (r_user r) = true) (reqs ++ [r6]) ->
  exists s5 s5',
    add_all i reqs s = (s5, map (fun _ => inr tt) reqs) /\
    count_annotators s5 i = 5%nat /\
    add_request i r6 s5 = (s5', inl CapacityExceeded) /\
    users s5' = users s5 /\ images s5' = images s5 /\
    annotations s5' = annotations s5 /\
    quality_votes s5' = quality_votes s5 /\ attachments s5' = attachments s5 /\
    (find_tag s5 (r_tag r6) (r_category r6) <> None -> s5' = s5) /\
    (find_tag s5 (r_tag r6) (r_category r6) = None ->
     tags s5' = (tags s5 ++ [mk_tag (next_rowid (map t_id (tags s5)))
                               (r_tag r6) (r_category r6) None])%list) /\
    forall r now r7,
      In r reqs ->
      ~ In (r_user r7) (map r_user reqs) -> has_user s (r_user r7) = true ->
      exists s6 s7,
        remove_tag_for_user now i (r_tag r) (r_user r) (r_category r) s5'
          = (s6, inr tt) /\
        count_annotators s6 i = 4%nat /\
        add_request i r7 s6 = (s7, inr tt) /\
        count_annotators s7 i = 5%nat.
Proof.
  intros Hi Hno Hlen Hnd Hus.
  apply Forall_app in Hus. destruct Hus as [Hus Hu6]. inversion Hu6 as [|? ? Hu6' _]; subst.
  pose proof (NoDup_remove _ _ _ Hnd) as [Hnd5 Hnot6]. rewrite app_nil_r in Hnd5, Hnot6.
  set (done := map (fun r => (r, 0)) reqs).
  assert (Hdu : map done_user done = map r_user reqs)
    by (unfold done; rewrite map_map; reflexivity).
  assert (Hact : Forall (fun x => done_active x = true) done)
    by (apply Forall_forall; intros x Hx; apply in_map_iff in Hx;
        destruct Hx as [r [<- _]]; reflexivity).
  assert (Hdl : List.length done = 5%nat) by (unfold done; rewrite length_map; exact Hlen).
  destruct (add_all_fresh i reqs s [] (settled_nil s i Hno))
    as (s5 & Hall & Hs5 & Hus5 & Him5 & _ & _ & _).
  { cbn. exact Hnd5. }
  { cbn. lia. }
  { exact Hi. }
  { exact Hus. }
  cbn [app] in Hs5. fold done in Hs5.
  assert (Hnd_done : NoDup (map done_user done)) by (rewrite Hdu; exact Hnd5).
  assert (Hi5 : has_image s5 i = true) by (unfold has_image in *; rewrite Him5; exact Hi).
  assert (Hu5 : forall u, has_user s u = true -> has_user s5 u = true)
    by (intros u Hu; unfold has_user in *; rewrite Hus5; exact Hu).
  assert (Hc5 : count_annotators s5 i = 5%nat)
    by (rewrite (settled_count _ _ _ Hs5 Hnd_done), (filter_all _ _ Hact); exact Hdl).
  destruct (add_new_annotator s5 i done r6 Hs5 Hnd_done)
    as (s5' & t6 & Hup6 & Hft6 & Hs5' & Hus6 & Him6 & Han6 & Hq6 & Hx6 & Hext6 & Hadd6).
  { rewrite Hdu. exact Hnot6. }
  { exact Hi5. }
  { apply Hu5. exact Hu6'. }
  rewrite (filter_all _ _ Hact), Hdl in Hadd6. cbn in Hadd6.
  exists s5, s5'. do 8 (split; [assumption|]).
  split; [|split].
  - intros Hsome. destruct (find_tag s5 (r_tag r6) (r_category r6)) as [t|] eqn:E;
      [|congruence].
    rewrite (upsert_tag_found _ _ None _ _ E) in Hup6. congruence.
  - intros Hnone. rewrite (upsert_tag_fresh _ _ None _ Hnone) in Hup6.
    inversion Hup6. reflexivity.
  - intros r now r7 Hr Hnot7 Hu7.
    assert (Hrd : In (r, 0) done) by (unfold done; apply in_map_iff; exists r; auto).
    destruct (remove_settled s5' i done r 0 now Hs5' Hnd_done Hrd)
      as (s6 & Hrem & Hs6 & Hus7 & Him7 & _).
    set (done' := map (mark_removed (r_user r)) done) in *.
    assert (Hdu' : map done_user done' = map r_user reqs).
    { unfold done'. rewrite map_map. rewrite <- Hdu. apply map_ext.
      intros x. apply mark_removed_user. }
    assert (Hnd' : NoDup (map done_user done')) by (rewrite Hdu'; exact Hnd5).
    assert (H4 : List.length (filter done_active done') = 4%nat).
    { assert (Hin : In (r_user r) (map done_user done))
        by (rewrite Hdu; apply in_map; exact Hr).
      pose proof (mark_removed_count (r_user r) done Hnd_done Hin Hact) as Hc.
      fold done' in Hc. lia. }
    destruct (add_fresh_user s6 i done' r7 Hs6 Hnd') as (s7 & Hadd7 & Hs7 & _).
    { rewrite Hdu'. exact Hnot7. }
    { lia. }
    { unfold has_image in *. rewrite Him7, Him6. exact Hi5. }
    { unfold has_user in *. rewrite Hus7, Hus6. apply Hu5. exact Hu7. }
    exists s6, s7. split; [exact Hrem|]. split; [|split; [exact Hadd7|]].
    + rewrite (settled_count _ _ _ Hs6 Hnd'). exact H4.
    + rewrite (settled_count _ _ _ Hs7).
      * rewrite filter_app, length_app, H4. reflexivity.
      * rewrite map_app, Hdu'. cbn. apply NoDup_snoc; [exact Hnd5 | exact Hnot7].
Qed.

Lemma reachable_exec_all cs : forall s, reachable s -> reachable (exec_all s cs).
Proof.
  induction cs as [|c cs IH]; intros s Hr; [exact Hr|].
  cbn. apply IH. constructor. exact Hr.
Qed.

(** Reactivation is an UPDATE: the trigger is not consulted and the call
    returns normally whatever the number of annotators. *)
Lemma add_tag_reactivates now i n u c s t r :
  find_tag s n c = Some t ->
  find_annotation s i (t_id t) u = Some r ->
  a_is_deleted r <> 0 ->
  add_tag_for_user now i n u c s = (fst (reactivate_annotation (a_id r) now s), inr tt).
Proof.
  intros Ht Hr Hd.
  rewrite (add_tag_unfold now i n u c s s (t_id t) (upsert_tag_found _ _ _ _ _ Ht)).
  unfold after_tag. rewrite Hr.
  destruct (Z.eqb_spec (a_is_deleted r) 0); [contradiction | reflexivity].
Qed.

(** A row that is not there yet is INSERTed, and the trigger decides by the
    number of annotators alone: whether the user is already one of them
    plays no part. *)
Lemma add_tag_inserts_or_blocks now i n u c s t :
  find_tag s n c = Some t ->
  find_annotation s i (t_id t) u = None ->
  has_image s i = true -> has_user s u = true ->
  add_tag_for_user now i n u c s =
    if trg_limit_annotators s i
    then (s, inl CapacityExceeded)
    else (set_annotations s
            (annotations s ++
               [mk_annotation (next_rowid (map a_id (annotations s))) i (t_id t) u now 0]),
          inr tt).
Proof.
  intros Ht Hnone Hi Hu.
  rewrite (add_tag_unfold now i n u c s s (t_id t) (upsert_tag_found _ _ _ _ _ Ht)).
  unfold after_tag. rewrite Hnone. unfold insert_annotation.
  destruct (trg_limit_annotators s i); [reflexivity|].
  unfold find_annotation in Hnone. rewrite (find_none_existsb _ _ Hnone).
  rewrite Hi, Hu, (find_tag_has_tag _ _ _ _ Ht). reflexivity.
Qed.

End LibFacts.

(* ================================================================== *)
(** ** The annotator cap on concrete stores                           *)
(* ================================================================== *)

Module CapFacts.
Import Lib Scenario LibFacts.

(** C1.  The store reached by [cap_trace] (every call of which returns
    normally) has six distinct active annotators on image 1: the trigger
    guards INSERT only, and the last call reactivates user 1's row by
    UPDATE while users 2..6 are active. *)
Theorem cap_exceeded_by_reactivation :
  reachable (exec_all empty cap_trace) /\
  snd (run_all empty cap_trace) = map (fun _ => None) cap_trace /\
  active_annotators (exec_all empty cap_trace) 1 = [1; 2; 3; 4; 5; 6] /\
  count_annotators (exec_all empty cap_trace) 1 = 6%nat.
Proof.
  split; [apply reachable_exec_all; constructor|].
  split; [vm_compute; reflexivity|].
  split; vm_compute; reflexivity.
Qed.

(** C2.  With users 1..5 active on image 1, user 1 (who is one of them)
    adds a second tag "y": the INSERT fires the trigger and the call raises
    the capacity error. *)
Theorem existing_annotator_blocked :
  In 1 (active_annotators five_annotators 1) /\
  count_annotators five_annotators 1 = 5%nat /\
  snd (add_request 1 (req 1 "y") five_annotators) = inl CapacityExceeded.
Proof.
  split; [vm_compute; auto|]. split; vm_compute; reflexivity.
Qed.

(** C3 as stated fails: after five adds on image 1 the add by user 6 with
    a tag not yet in [tags] raises the capacity error and leaves a store
    that differs from the one before the call. *)
Lemma failed_add_leaves_new_tag :
  add_all 1 five_requests seeded = (five_annotators, map (fun _ => inr tt) five_requests) /\
  exists s',
    add_request 1 (req 6 "y") five_annotators = (s', inl CapacityExceeded) /\
    s' <> five_annotators.
Proof.
  split; [vm_compute; reflexivity|].
  eexists. split; [vm_compute; reflexivity|].
  intros H. apply (f_equal (fun s => List.length (tags s))) in H.
  vm_compute in H. discriminate.
Qed.

Ltac nodup_concrete :=
  repeat (constructor; [cbn; intuition congruence|]); constructor.

Lemma annotator_cap_scenario_witness :
  has_image seeded 1 = true /\
  List.length five_requests = 5%nat /\
  NoDup (map r_user five_requests ++ [r_user (req 6 "x")]) /\
  exists s5 s5',
    add_all 1 five_requests seeded = (s5, map (fun _ => inr tt) five_requests) /\
    count_annotators s5 1 = 5%nat /\
    add_request 1 (req 6 "x") s5 = (s5', inl CapacityExceeded) /\
    annotations s5' = annotations s5.
Proof.
  assert (Hi : has_image seeded 1 = true) by reflexivity.
  assert (Hl : List.length five_requests = 5%nat) by reflexivity.
  assert (Hn : NoDup (map r_user five_requests ++ [r_user (req 6 "x")]))
    by (vm_compute; nodup_concrete).
  split; [exact Hi|]. split; [exact Hl|]. split; [exact Hn|].
  destruct (annotator_cap_scenario seeded 1 five_requests (req 6 "x") Hi)
    as (s5 & s5' & H1 & H2 & H3 & _ & _ & H4 & _).
  - intros a Ha. destruct Ha.
  - exact Hl.
  - exact Hn.
  - repeat constructor.
  - exists s5, s5'. auto.
Defined.

Lemma add_tag_active_is_noop_witness :
  annotations_unique five_annotators /\
  add_tag_for_user "2025-07-01T00:00:00" 1 "x" 1 "" five_annotators
    = (five_annotators, inr tt).
Proof.
  assert (Hu : annotations_unique five_annotators)
    by (unfold annotations_unique; vm_compute; nodup_concrete).
  split; [exact Hu|].
  apply (add_tag_active_is_noop _ 1 "x" 1 "" five_annotators
           (mk_tag 1 "x" "" None)
           (mk_annotation 1 1 1 1 "2025-06-02T09:00:00" 0) Hu).
  - reflexivity.
  - vm_compute. auto.
  - reflexivity.
  - reflexivity.
Defined.

Lemma soft_delete_reactivation_witness :
  annotations_unique seeded /\
  exists s1 s2 s3,
    add_tag_for_user "2025-06-02T09:00:00" 1 "x" 1 "" seeded = (s1, inr tt) /\
    remove_tag_for_user "2025-06-03T09:00:00" 1 "x" 1 "" s1 = (s2, inr tt) /\
    add_tag_for_user "2025-06-04T09:00:00" 1 "x" 1 "" s2 = (s3, inr tt) /\
    List.length (annotations s3) = List.length (annotations s1).
Proof.
  assert (Hu : annotations_unique seeded) by (unfold annotations_unique; vm_compute; constructor).
  split; [exact Hu|].
  destruct (soft_delete_reactivation "2025-06-02T09:00:00" "2025-06-03T09:00:00"
              "2025-06-04T09:00:00" 1 "x" 1 "" seeded
              (fst (add_tag_for_user "2025-06-02T09:00:00" 1 "x" 1 "" seeded)) Hu)
    as (t & a & s2 & s3 & _ & _ & _ & Hrem & _ & _ & Hadd & _ & Hlen).
  - reflexivity.
  - eexists _, s2, s3. split; [reflexivity|]. auto.
Defined.

Lemma quality_vote_replace_witness :
  reachable seeded /\
  exists s1 s2 q,
    upsert_quality "2025-06-02T09:00:00" 1 1 "good" None None seeded = (s1, inr tt) /\
    upsert_quality "2025-06-03T09:00:00" 1 1 "bad" None None s1 = (s2, inr tt) /\
    votes_of s2 1 1 = [q] /\ q_label q = "bad".
Proof.
  assert (Hr : reachable seeded) by (apply reachable_exec_all; constructor).
  split; [exact Hr|].
  destruct (quality_vote_replace "2025-06-02T09:00:00" "2025-06-03T09:00:00" 1 1
              None None None None seeded
              (fst (upsert_quality "2025-06-02T09:00:00" 1 1 "good" None None seeded)) Hr)
    as (_ & _ & s2 & q & H2 & Hq & Hl & _).
  - reflexivity.
  - eexists _, s2, q. split; [reflexivity|]. auto.
Defined.

End CapFacts.

(* ================================================================== *)
(** ** The importer: one row per content                              *)
(* ================================================================== *)

Module ImporterFacts.
Import Importer.

Section WithHash.

Variable sha256_hex : string -> string.

Lemma get_or_create_tag_id_files name c :
  files (fst (get_or_create_tag_id name c)) = files c.
Proof.
  unfold get_or_create_tag_id. destruct (find _ _); reflexivity.
Qed.

Lemma tag_ids_of_files tags : forall c, files (fst (tag_ids_of tags c)) = files c.
Proof.
  induction tags as [|t tags IH]; intros c; cbn; [reflexivity|].
  destruct (Str.strip t =? ""); [apply IH|].
  pose proof (get_or_create_tag_id_files (Str.strip t) c) as H1.
  destruct (get_or_create_tag_id (Str.strip t) c) as [c1 id]. cbn in H1.
  pose proof (IH c1) as H2. destruct (tag_ids_of tags c1) as [c2 ids]. cbn in *.
  congruence.
Qed.

Lemma link_tags_files fid tids : forall c n, files (fst (link_tags fid tids c n)) = files c.
Proof.
  induction tids as [|t tids IH]; intros c n; cbn; [reflexivity|].
  unfold insert_or_ignore_link. destruct (existsb _ _); rewrite IH; reflexivity.
Qed.

(** One path whose content is not in [files] yet: a row is added and the
    counters read inserted=1, duplicates=0. *)
Lemma import_one_new now d c p content tags :
  d p = Some content ->
  existsb (fun r => f_sha256 r =? sha256_hex content) (files c) = false ->
  exists c' links,
    import_files sha256_hex now d c [p] tags = Some (c', mk_stats 1 0 links) /\
    files c' = (files c ++ [mk_file (next_rowid (map f_id (files c))) p
                              (sha256_hex content)
                              (Z.of_nat (String.length content)) now])%list.
Proof.
  intros Hp Hnew. unfold import_files.
  pose proof (tag_ids_of_files tags c) as Hf.
  destruct (tag_ids_of tags c) as [c1 tids]. cbn in Hf.
  cbn [import_loop]. rewrite Hp. unfold insert_or_ignore_file. rewrite Hf, Hnew.
  cbn [Z.eqb Pos.eqb]. unfold select_file_id. cbn [files].
  rewrite LibFacts.find_app_none.
  2:{ destruct (find _ (files c)) eqn:E; [|reflexivity].
      apply LibFacts.find_some_existsb in E. congruence. }
  cbn [find f_sha256]. rewrite String.eqb_refl. cbn [option_map f_id inserted duplicates tag_links].
  match goal with |- context [link_tags ?a ?b ?c ?n] =>
    pose proof (link_tags_files a b c n) as Hl; destruct (link_tags a b c n) as [c2 links]
  end.
  cbn in Hl. exists c2, links. split; [reflexivity | exact Hl].
Qed.

(** One path whose content is in [files] already: no row is added and the
    counters read inserted=0, duplicates=1. *)
Lemma import_one_duplicate now d c p content tags :
  d p = Some content ->
  existsb (fun r => f_sha256 r =? sha256_hex content) (files c) = true ->
  exists c' links,
    import_files sha256_hex now d c [p] tags = Some (c', mk_stats 0 1 links) /\
    files c' = files c.
Proof.
  intros Hp Hdup. unfold import_files.
  pose proof (tag_ids_of_files tags c) as Hf.
  destruct (tag_ids_of tags c) as [c1 tids]. cbn in Hf.
  cbn [import_loop]. rewrite Hp. unfold insert_or_ignore_file. rewrite Hf, Hdup.
  cbn [Z.eqb]. unfold select_file_id. rewrite Hf.
  destruct (find _ (files c)) as [r|] eqn:E.
  2:{ apply LibFacts.find_none_existsb in E. congruence. }
  cbn [option_map inserted duplicates tag_links].
  match goal with |- context [link_tags ?a ?b ?c ?n] =>
    pose proof (link_tags_files a b c n) as Hl; destruct (link_tags a b c n) as [c2 links]
  end.
  cbn in Hl. exists c2, links. split; [reflexivity | congruence].
Qed.

(** C8.  The same content at two paths: the first call inserts one row and
    reports inserted=1, duplicates=0; the second inserts none and reports
    inserted=0, duplicates=1; [files] holds exactly one row with that
    digest and has grown by one row (so a fresh database ends with exactly
    one). *)
Theorem dedup_counters now1 now2 d1 d2 c p1 p2 content tags1 tags2 :
  d1 p1 = Some content -> d2 p2 = Some content ->
  existsb (fun r => f_sha256 r =? sha256_hex content) (files c) = false ->
  exists c1 st1 c2 st2,
    import_files sha256_hex now1 d1 c [p1] tags1 = Some (c1, st1) /\
    import_files sha256_hex now2 d2 c1 [p2] tags2 = Some (c2, st2) /\
    inserted st1 = 1 /\ duplicates st1 = 0 /\
    inserted st2 = 0 /\ duplicates st2 = 1 /\
    List.length (filter (fun r => f_sha256 r =? sha256_hex content) (files c2)) = 1%nat /\
    List.length (files c2) = S (List.length (files c)).
Proof.
  intros H1 H2 Hnew.
  destruct (import_one_new now1 d1 c p1 content tags1 H1 Hnew) as (c1 & l1 & Hi1 & Hf1).
  assert (Hdup : existsb (fun r => f_sha256 r =? sha256_hex content) (files c1) = true).
  { rewrite Hf1, existsb_app. cbn. rewrite String.eqb_refl. apply orb_true_r. }
  destruct (import_one_duplicate now2 d2 c1 p2 content tags2 H2 Hdup)
    as (c2 & l2 & Hi2 & Hf2).
  exists c1, (mk_stats 1 0 l1), c2, (mk_stats 0 1 l2).
  do 6 (split; [first [assumption | reflexivity]|]).
  rewrite Hf2, Hf1. split.
  - rewrite filter_app, (LibFacts.filter_none _ _ Hnew). cbn.
    rewrite String.eqb_refl. reflexivity.
  - rewrite length_app. cbn. lia.
Qed.

End WithHash.

(** The literal test: "hello" at [a.txt] and [b.txt], a fresh database. *)
Lemma dedup_counters_witness :
  exists c1 st1 c2 st2,
    import_files (fun content => content) "t1"
      (fun p => if (p =? "a.txt") || (p =? "b.txt") then Some "hello" else None)
      empty ["a.txt"] ["t1"] = Some (c1, st1) /\
    import_files (fun content => content) "t2"
      (fun p => if (p =? "a.txt") || (p =? "b.txt") then Some "hello" else None)
      c1 ["b.txt"] ["t2"] = Some (c2, st2) /\
    inserted st1 = 1 /\ duplicates st1 = 0 /\
    inserted st2 = 0 /\ duplicates st2 = 1 /\
    List.length (files c2) = 1%nat.
Proof.
  destruct (dedup_counters (fun content => content) "t1" "t2"
              (fun p => if (p =? "a.txt") || (p =? "b.txt") then Some "hello" else None)
              (fun p => if (p =? "a.txt") || (p =? "b.txt") then Some "hello" else None)
              empty "a.txt" "b.txt" "hello" ["t1"] ["t2"])
    as (c1 & st1 & c2 & st2 & A & B & C & D & E & F & _ & G).
  - reflexivity.
  - reflexivity.
  - reflexivity.
  - exists c1, st1, c2, st2. repeat (split; [assumption|]). exact G.
Defined.

End ImporterFacts.

(* ================================================================== *)
(** ** Search: a date token that does not parse                       *)
(* ================================================================== *)

Module QueryFacts.
Import Query.

Section WithParser.

Variable fromisoformat : string -> option datetime.

Lemma prefix_cons a s1 b s2 :
  prefix (String a s1) (String b s2) = if ascii_dec a b then prefix s1 s2 else false.
Proof. reflexivity. Qed.

Lemma date_token_rebuilt tl :
  prefix "date:" tl = true -> "date:" ++ after_colon tl = tl.
Proof.
  intros H.
  do 5 (destruct tl as [|? tl]; [discriminate|]; rewrite prefix_cons in H;
        match type of H with
        | context [ascii_dec ?a ?b] => destruct (ascii_dec a b); [subst|discriminate]
        end).
  destruct tl; reflexivity.
Qed.

Lemma date_token_first tl :
  is_date_token tl = true -> exists r, tl = String "d" r.
Proof.
  unfold is_date_token. destruct tl as [|c r]; [discriminate|].
  rewrite !prefix_cons. destruct (ascii_dec "d" c); [subst; eauto | discriminate].
Qed.

Lemma add_token_date f t :
  is_date_token (Str.lower t) = true ->
  add_token fromisoformat f t =
  with_dates f (_parse_date fromisoformat
                  (if prefix "date:" (Str.lower t)
                   then "date:" ++ after_colon (Str.lower t)
                   else Str.lower t)).
Proof.
  intros H. unfold add_token. rewrite H.
  destruct (date_token_first _ H) as [r ->]. reflexivity.
Qed.

Lemma add_token_not_date f t d :
  not_date t = true ->
  add_token fromisoformat (with_dates f d) t
  = with_dates (add_token fromisoformat f t) d /\
  dates (add_token fromisoformat f t) = dates f.
Proof.
  unfold not_date. intros H. apply negb_true_iff in H.
  unfold add_token. rewrite H.
  repeat match goal with
         | |- context [if ?b then _ else _] => destruct b
         end; split; reflexivity.
Qed.

Lemma fold_not_date ts : forall f d,
  fold_left (add_token fromisoformat) (filter not_date ts) (with_dates f d)
  = with_dates (fold_left (add_token fromisoformat) (filter not_date ts) f) d /\
  dates (fold_left (add_token fromisoformat) (filter not_date ts) f) = dates f.
Proof.
  induction ts as [|t ts IH]; intros f d; cbn [filter]; [split; reflexivity|].
  destruct (not_date t) eqn:E; [|apply IH].
  cbn [fold_left]. destruct (add_token_not_date f t d E) as [H1 H2].
  rewrite H1. destruct (IH (add_token fromisoformat f t) d) as [H3 H4].
  split; [exact H3 | congruence].
Qed.

Lemma with_dates_twice f d d' : with_dates (with_dates f d) d' = with_dates f d'.
Proof. reflexivity. Qed.

Lemma with_dates_same f : with_dates f (dates f) = f.
Proof. destruct f; reflexivity. Qed.

(** The date tokens only decide [dates]; the last one wins. *)
Lemma fold_split_dates ts : forall f,
  fold_left (add_token fromisoformat) ts f
  = with_dates (fold_left (add_token fromisoformat) (filter not_date ts) f)
      (dates (fold_left (add_token fromisoformat) ts f)).
Proof.
  induction ts as [|t ts IH]; intros f; cbn [filter fold_left].
  - symmetry. apply with_dates_same.
  - destruct (not_date t) eqn:E; cbn [fold_left]; [apply IH|].
    unfold not_date in E. apply negb_false_iff in E.
    rewrite (add_token_date f t E).
    set (d := _parse_date _ _). rewrite (IH (with_dates f d)) at 1.
    rewrite (proj1 (fold_not_date ts f d)). apply with_dates_twice.
Qed.

Lemma fold_all_not_date ts : forall f,
  forallb not_date ts = true -> dates (fold_left (add_token fromisoformat) ts f) = dates f.
Proof.
  induction ts as [|t ts IH]; intros f H; [reflexivity|].
  cbn in H. apply andb_true_iff in H. destruct H as [Ht Hts].
  cbn [fold_left]. rewrite (IH _ Hts).
  exact (proj2 (add_token_not_date f t (dates f) Ht)).
Qed.

Lemma no_date_filter_total f idx items :
  dates f = (None, None) -> exists vis, visible_items f idx items = inr vis.
Proof.
  intros Hd. induction items as [|it items [vis IH]]; cbn; [eauto|].
  assert (Hit : exists h, item_hidden f idx it = inr h).
  { unfold item_hidden. rewrite Hd.
    repeat match goal with
           | |- context [if ?b then _ else _] => destruct b
           end; cbn; eauto. }
  destruct Hit as [h ->]. rewrite IH. eauto.
Qed.

(** C5 (as the code has it).  When the last date token of a query is a
    [date:] token whose expression does not parse, the search does not
    raise and shows exactly what the query without its date tokens shows:
    the failed parse leaves no date restriction. *)
Theorem unparseable_date_is_no_filter idx items text ts1 t ts2 :
  tokens_of text = (ts1 ++ t :: ts2)%list ->
  prefix "date:" (Str.lower t) = true ->
  parse_date_try fromisoformat (Str.lower t) = None ->
  forallb not_date ts2 = true ->
  exists vis,
    on_search fromisoformat idx items text = inr vis /\
    search_tokens fromisoformat idx items (filter not_date (tokens_of text)) = inr vis.
Proof.
  intros Htok Hpre Hbad Hlast.
  assert (Hdate : is_date_token (Str.lower t) = true)
    by (unfold is_date_token; rewrite Hpre; reflexivity).
  assert (Hf : build_filters fromisoformat (tokens_of text)
               = build_filters fromisoformat (filter not_date (tokens_of text))).
  { unfold build_filters. rewrite (fold_split_dates (tokens_of text) no_filters).
    assert (Hd : dates (fold_left (add_token fromisoformat) (tokens_of text) no_filters) = (None, None)).
    { rewrite Htok, fold_left_app. cbn [fold_left].
      rewrite (fold_all_not_date ts2 _ Hlast), (add_token_date _ t Hdate).
      rewrite Hpre, (date_token_rebuilt _ Hpre). cbn [dates with_dates].
      unfold _parse_date. rewrite Hbad. reflexivity. }
    rewrite Hd.
    pose proof (proj2 (fold_not_date (tokens_of text) no_filters (None, None))) as Hn.
    cbn [dates no_filters] in Hn. rewrite <- Hn at 1. apply with_dates_same. }
  unfold on_search, search_tokens. rewrite Hf.
  destruct (no_date_filter_total
              (build_filters fromisoformat (filter not_date (tokens_of text)))
              idx items) as [vis Hvis].
  - unfold build_filters.
    exact (proj2 (fold_not_date (tokens_of text) no_filters (None, None))).
  - exists vis. split; exact Hvis.
Qed.

End WithParser.

(** C5 as stated fails: "garbage" does not parse, and the query
    [date:garbage] leaves the one item of the list visible. *)
Lemma unparseable_date_shows_items :
  parse_date_try iso_day "date:garbage" = None /\
  on_search iso_day bare_index [mk_item "shots/a.png" 1] "date:garbage"
    = inr [mk_item "shots/a.png" 1].
Proof. split; vm_compute; reflexivity. Qed.

Lemma unparseable_date_is_no_filter_witness :
  exists vis,
    on_search iso_day bare_index [mk_item "shots/a.png" 1; mk_item "b.png" 2]
      "a.png date:2025-06-01 DATE:garbage" = inr vis /\
    search_tokens iso_day bare_index [mk_item "shots/a.png" 1; mk_item "b.png" 2]
      ["a.png"] = inr vis.
Proof.
  apply (unparseable_date_is_no_filter iso_day bare_index
           [mk_item "shots/a.png" 1; mk_item "b.png" 2]
           "a.png date:2025-06-01 DATE:garbage"
           ["a.png"; "date:2025-06-01"] "DATE:garbage" []).
  - reflexivity.
  - reflexivity.
  - reflexivity.
  - reflexivity.
Defined.

End QueryFacts.

(* ================================================================== *)
(** ** Archive round trip on a concrete library                       *)
(* ================================================================== *)

Module ArchiveFacts.
Import Lib Scenario Archive.

(** C4.  [library] is reached by calls that all return normally and stays
    within five annotators on its image.  Exporting that image with every
    file on disk and importing the archive into the empty store raises the
    trigger's error in the middle of the annotation loop: the manifest
    lists the five "x" rows before user 1's "y" row, whose INSERT then
    meets five annotators.  The import stops there with five of the six
    active annotations and none of the votes. *)
Theorem round_trip_hits_trigger :
  snd (run_all empty library_calls) = map (fun _ => None) library_calls /\
  count_annotators library 1 = 5%nat /\
  counts library = (1, 1, 6, 1)%nat /\
  snd (import_archive "2025-06-11T00:00:00" exported empty) = inl CapacityExceeded /\
  counts (fst (import_archive "2025-06-11T00:00:00" exported empty)) = (1, 1, 5, 0)%nat.
Proof. repeat split; vm_compute; reflexivity. Qed.

End ArchiveFacts.

(* ================================================================== *)
(** ** Rescan: which CSV files are linked                             *)
(* ================================================================== *)

Module RescanFacts.
Import Rescan.

Lemma link_nothing sha256_of isoformat dir_rel image_id s :
  link_candidates sha256_of isoformat dir_rel image_id [] s = s.
Proof. reflexivity. Qed.

Lemma upsert_image_attachments rel sha ts s :
  Lib.attachments (fst (Lib.upsert_image rel sha ts s)) = Lib.attachments s.
Proof.
  unfold Lib.upsert_image, Lib.bind, Lib.get, Lib.update_image_path, Lib.insert_image,
    Lib.ret.
  destruct (Lib.find_image_by_sha s sha); cbn; [reflexivity|].
  destruct (existsb _ _); reflexivity.
Qed.

(** *** Stems without pattern characters: the three rules *)

Lemma list_ascii_app p q :
  list_ascii_of_string (p ++ q) = (list_ascii_of_string p ++ list_ascii_of_string q)%list.
Proof. induction p as [|c p IH]; cbn; [reflexivity | rewrite IH; reflexivity]. Qed.

Lemma length_app_string p q : String.length (p ++ q) = (String.length p + String.length q)%nat.
Proof. induction p as [|c p IH]; cbn; [reflexivity | rewrite IH; reflexivity]. Qed.

Lemma plain_app p q : plain (p ++ q) = plain p && plain q.
Proof.
  induction p as [|c p IH]; cbn; [reflexivity|]. rewrite IH. apply andb_assoc.
Qed.

Lemma gtokens_plain p : forall rest fuel,
  plain p = true ->
  (String.length p <= fuel)%nat ->
  gtokens fuel (list_ascii_of_string p ++ rest) =
  (map GLit (list_ascii_of_string p) ++ gtokens (fuel - String.length p) rest)%list.
Proof.
  induction p as [|c p IH]; intros rest fuel Hp Hf; cbn [list_ascii_of_string app map String.length].
  - rewrite Nat.sub_0_r. reflexivity.
  - cbn in Hp. apply andb_true_iff in Hp. destruct Hp as [Hc Hp].
    destruct fuel as [|fuel]; [cbn in Hf; lia|]. cbn [gtokens].
    unfold plain_char in Hc. apply negb_true_iff in Hc.
    apply orb_false_iff in Hc. destruct Hc as [Hc H3].
    apply orb_false_iff in Hc. destruct Hc as [H1 H2].
    rewrite H1, H2, H3. cbn [Nat.sub]. f_equal. apply IH; [exact Hp | cbn in Hf; lia].
Qed.

Lemma gmatch_lits p : forall s,
  gmatch (map GLit (list_ascii_of_string p)) (list_ascii_of_string s) = (s =? p).
Proof.
  induction p as [|a p IH]; intros [|b s]; cbn; try reflexivity.
  rewrite IH. destruct (Ascii.eqb_spec a b) as [->|Hne].
  - rewrite Ascii.eqb_refl. reflexivity.
  - destruct (Ascii.eqb_spec b a); [congruence | reflexivity].
Qed.

Lemma prefix_nil s : prefix "" s = true.
Proof. destruct s; reflexivity. Qed.

Lemma gmatch_lits_then p : forall ts s,
  gmatch (map GLit (list_ascii_of_string p) ++ ts) (list_ascii_of_string s) =
  prefix p s && gmatch ts (list_ascii_of_string (Str.drop (String.length p) s)).
Proof.
  induction p as [|a p IH]; intros ts s.
  - cbn. rewrite prefix_nil. reflexivity.
  - destruct s as [|b s]; [reflexivity|].
    cbn [list_ascii_of_string map app gmatch String.length Str.drop].
    rewrite IH. change (prefix (String a p) (String b s))
      with (if ascii_dec a b then prefix p s else false).
    destruct (ascii_dec a b) as [->|Hne].
    + rewrite Ascii.eqb_refl. reflexivity.
    + destruct (Ascii.eqb_spec a b); [contradiction | reflexivity].
Qed.

Lemma gmatch_star_lits q : forall s,
  gmatch (GStar :: map GLit (list_ascii_of_string q)) (list_ascii_of_string s)
  = ends_with q s.
Proof.
  induction s as [|c s IH].
  - change (gmatch (GStar :: map GLit (list_ascii_of_string q)) (list_ascii_of_string ""))
      with (gmatch (map GLit (list_ascii_of_string q)) (list_ascii_of_string "") || false).
    rewrite gmatch_lits. reflexivity.
  - change (gmatch (GStar :: map GLit (list_ascii_of_string q))
              (list_ascii_of_string (String c s)))
      with (gmatch (map GLit (list_ascii_of_string q)) (list_ascii_of_string (String c s))
            || gmatch (GStar :: map GLit (list_ascii_of_string q))
                 (list_ascii_of_string s)).
    rewrite IH, gmatch_lits. reflexivity.
Qed.

Lemma fnmatch_plain p name : plain p = true -> fnmatch p name = (name =? p).
Proof.
  intros Hp. unfold fnmatch.
  rewrite <- (app_nil_r (list_ascii_of_string p)).
  rewrite (gtokens_plain p [] _ Hp (Nat.le_refl _)).
  rewrite Nat.sub_diag. cbn [gtokens]. rewrite !app_nil_r. apply gmatch_lits.
Qed.

Lemma fnmatch_any_csv name : fnmatch "*.csv" name = ends_with ".csv" name.
Proof. exact (gmatch_star_lits ".csv" name). Qed.

Lemma fnmatch_prefixed st name :
  plain st = true ->
  fnmatch (st ++ "_*.csv") name =
  prefix (st ++ "_") name
  && ends_with ".csv" (Str.drop (String.length st + 1) name).
Proof.
  intros Hp.
  assert (Hsplit : st ++ "_*.csv" = (st ++ "_") ++ "*.csv")
    by (induction st as [|c st IH]; cbn; [reflexivity | rewrite IH by
          (cbn in Hp; apply andb_true_iff in Hp; tauto); reflexivity]).
  assert (Hp' : plain (st ++ "_") = true) by (rewrite plain_app, Hp; reflexivity).
  unfold fnmatch. rewrite Hsplit, list_ascii_app, length_app_string.
  rewrite (gtokens_plain (st ++ "_") _ _ Hp') by lia.
  replace (String.length (st ++ "_") + String.length "*.csv" - String.length (st ++ "_"))%nat
    with 5%nat by (cbn [String.length]; lia).
  change (gtokens 5 (list_ascii_of_string "*.csv"))
    with (GStar :: map GLit (list_ascii_of_string ".csv")).
  rewrite gmatch_lits_then, gmatch_star_lits, length_app_string. reflexivity.
Qed.

(** X19.  When the stem has none of [*], [?] and [[], the candidates are
    those of the three rules read in order: the sibling named stem.csv; else
    the directory's only CSV file; else the stem_*.csv siblings, cut down to
    the one closest in time when there are several. *)
Lemma csv_candidates_follow_rules dir st mtime :
  plain st = true -> csv_candidates dir st mtime = spec_candidates dir st mtime.
Proof.
  intros Hp.
  assert (H1 : glob dir (st ++ ".csv") = spec_exact dir st).
  { unfold glob, spec_exact. apply filter_ext. intros e.
    apply fnmatch_plain. rewrite plain_app, Hp. reflexivity. }
  assert (H2 : glob dir "*.csv" = spec_all_csv dir)
    by (unfold glob, spec_all_csv; apply filter_ext; intros e; apply fnmatch_any_csv).
  assert (H3 : glob dir (st ++ "_*.csv") = spec_prefixed dir st)
    by (unfold glob, spec_prefixed; apply filter_ext; intros e;
        apply fnmatch_prefixed; exact Hp).
  unfold csv_candidates, spec_candidates. rewrite H1, H2, H3.
  destruct (spec_exact dir st) as [|x xs]; cbn [is_nil negb]; [|reflexivity].
  destruct (List.length (spec_all_csv dir) =? 1)%nat eqn:E; [|reflexivity].
  destruct (spec_all_csv dir) as [|y ys]; [discriminate | reflexivity].
Qed.

(** C9.  [photo[1].jpg] has the sibling [photo[1].csv], but the stem is
    pasted into the glob pattern unescaped: [photo[1].csv] as a pattern
    matches [photo1.csv] only, the directory has two CSV files, and no file
    matches [photo[1]_*.csv]; the image gets no candidate and the rescan
    links nothing.  Likewise [[ab].jpg] next to [a.csv] and [b.csv], neither
    of which is named after the stem, gets both from the first rule. *)
Theorem bracket_stem_not_linked :
  stem "photo[1].jpg" = "photo[1]" /\
  In (mk_entry "photo[1].csv" 1000) bracket_dir /\
  csv_candidates bracket_dir (stem "photo[1].jpg") 1000 = [] /\
  (forall sha256_of isoformat s,
     Lib.attachments
       (rescan_image sha256_of isoformat "shots/" bracket_dir
          (mk_entry "photo[1].jpg" 1000) s)
     = Lib.attachments s) /\
  csv_candidates set_dir (stem "[ab].jpg") 1000
  = [mk_entry "a.csv" 1000; mk_entry "b.csv" 900].
Proof.
  split; [reflexivity|]. split; [cbn; auto|]. split; [vm_compute; reflexivity|].
  split; [|vm_compute; reflexivity].
  intros sha256_of isoformat s. unfold rescan_image.
  destruct (sha256_of _) as [sha|]; [|reflexivity].
  pose proof (upsert_image_attachments
                ("shots/" ++ e_name (mk_entry "photo[1].jpg" 1000)) sha
                (Some (isoformat (e_mtime (mk_entry "photo[1].jpg" 1000)))) s) as H.
  destruct (Lib.upsert_image _ _ _ s) as [s1 [e|id]]; cbn in H; [exact H|].
  replace (csv_candidates bracket_dir (stem (e_name (mk_entry "photo[1].jpg" 1000)))
             (e_mtime (mk_entry "photo[1].jpg" 1000)))
    with (@nil entry) by (vm_compute; reflexivity).
  rewrite link_nothing. exact H.
Qed.

End RescanFacts.

(* ================================================================== *)
(** ** The store's get-or-create operations                           *)
(* ================================================================== *)

Module StoreOps.
Import Lib LibFacts.

#[local] Arguments next_rowid : simpl never.

Lemma find_map_same {A} (p : A -> bool) (f : A -> A) l :
  (forall a, p (f a) = p a) -> find p (map f l) = option_map f (find p l).
Proof.
  intros H. induction l as [|x l IH]; cbn; [reflexivity|].
  rewrite H. destruct (p x); [reflexivity | exact IH].
Qed.

(** X1.  [ensure_user] never raises; the id it returns is the id the
    username resolves to afterwards; a user that was there is left alone
    (the display name given is ignored), and asking again, with any display
    name, returns the same id and changes nothing. *)
Theorem ensure_user_get_or_create username d s :
  exists s' id r,
    ensure_user username d s = (s', inr id) /\
    find_user s' username = Some r /\ u_id r = id /\
    (forall r0, find_user s username = Some r0 -> s' = s /\ r = r0) /\
    (find_user s username = None ->
     users s' = (users s ++ [mk_user id username d])%list) /\
    (forall d', ensure_user username d' s' = (s', inr id)).
Proof.
  unfold ensure_user, bind, get, ret.
  destruct (find_user s username) as [r0|] eqn:E.
  - exists s, (u_id r0), r0. rewrite E.
    split; [reflexivity|]. split; [reflexivity|]. split; [reflexivity|].
    split; [intros r1 H; inversion H; auto|].
    split; [intros H; discriminate|]. intros d'. reflexivity.
  - unfold insert_user. unfold find_user in E. rewrite (find_none_existsb _ _ E).
    set (id := next_rowid (map u_id (users s))).
    assert (Hf : find_user (set_users s (users s ++ [mk_user id username d])) username
                 = Some (mk_user id username d)).
    { unfold find_user. cbn [users set_users]. rewrite (find_app_none _ _ _ E).
      cbn. rewrite String.eqb_refl. reflexivity. }
    exists (set_users s (users s ++ [mk_user id username d])), id, (mk_user id username d).
    split; [reflexivity|]. split; [exact Hf|]. split; [reflexivity|].
    split; [intros r0 H; discriminate|]. split; [reflexivity|].
    intros d'. rewrite Hf. reflexivity.
Qed.


(** What [upsert_attachment] returns and when it raises. *)
Lemma upsert_attachment_cases img kind rel sha ts s :
  upsert_attachment img kind rel sha ts s =
    match find_attachment_by_sha s sha with
    | Some r => (s, inr (x_id r))
    | None =>
        if has_image s img
        then (set_attachments s
                (attachments s ++
                   [mk_attachment (next_rowid (map x_id (attachments s))) img kind rel
                      sha ts]),
              inr (next_rowid (map x_id (attachments s))))
        else (s, inl ForeignKeyViolation)
    end.
Proof.
  unfold upsert_attachment, bind, get, ret.
  destruct (find_attachment_by_sha s sha) as [r|] eqn:E; [reflexivity|].
  unfold insert_attachment. unfold find_attachment_by_sha in E.
  rewrite (find_none_existsb _ _ E). destruct (has_image s img); reflexivity.
Qed.

(** X3.  An attachment stays with the image of its first upsert: once a
    digest has been stored for image [img], a later [upsert_attachment] of
    the same digest for any image, kind or path returns the first id and
    leaves the store as it is. *)
Theorem upsert_attachment_never_relinks img kind rel sha ts s s1 id :
  upsert_attachment img kind rel sha ts s = (s1, inr id) ->
  forall img' kind' rel' ts',
    upsert_attachment img' kind' rel' sha ts' s1 = (s1, inr id) /\
    exists r, find_attachment_by_sha s1 sha = Some r /\ x_id r = id /\
              (find_attachment_by_sha s sha = None -> x_image_id r = img).
Proof.
  intros H img' kind' rel' ts'. rewrite upsert_attachment_cases in H.
  rewrite upsert_attachment_cases.
  destruct (find_attachment_by_sha s sha) as [r|] eqn:E.
  - inversion H; subst. rewrite E. split; [reflexivity|].
    exists r. repeat split. intros; discriminate.
  - destruct (has_image s img); [|discriminate]. inversion H; subst. clear H.
    assert (Hf : find_attachment_by_sha
                   (set_attachments s
                      (attachments s ++
                         [mk_attachment (next_rowid (map x_id (attachments s))) img kind
                            rel sha ts])) sha
                 = Some (mk_attachment (next_rowid (map x_id (attachments s))) img kind
                           rel sha ts)).
    { unfold find_attachment_by_sha in *. cbn [attachments set_attachments].
      rewrite (find_app_none _ _ _ E). cbn. rewrite String.eqb_refl. reflexivity. }
    rewrite Hf. split; [reflexivity|]. eexists. split; [reflexivity|].
    split; reflexivity.
Qed.

Lemma upsert_attachment_never_relinks_witness :
  exists s1 id,
    upsert_attachment 1 "csv" "shots/a.csv" "sha-csv" None Scenario.seeded = (s1, inr id) /\
    upsert_attachment 7 "json" "elsewhere/b.json" "sha-csv" None s1 = (s1, inr id).
Proof.
  eexists _, _. split; [reflexivity|].
  apply (upsert_attachment_never_relinks 1 "csv" "shots/a.csv" "sha-csv" None
           Scenario.seeded _ _ eq_refl 7 "json" "elsewhere/b.json" None).
Defined.

(** X4.  [upsert_attachment] raises exactly when the digest is new and the
    image does not exist (a foreign-key error), and then the store is as
    before; in every other case it returns normally. *)
Theorem upsert_attachment_outcome img kind rel sha ts s :
  (snd (upsert_attachment img kind rel sha ts s) = inl ForeignKeyViolation <->
   find_attachment_by_sha s sha = None /\ has_image s img = false) /\
  (forall e, snd (upsert_attachment img kind rel sha ts s) = inl e ->
             e = ForeignKeyViolation /\
             fst (upsert_attachment img kind rel sha ts s) = s).
Proof.
  rewrite upsert_attachment_cases.
  destruct (find_attachment_by_sha s sha) as [r|]; cbn.
  - split; [split; [discriminate | intros [H _]; discriminate]|].
    intros e H; discriminate.
  - destruct (has_image s img); cbn.
    + split; [split; [discriminate | intros [_ H]; discriminate]|].
      intros e H; discriminate.
    + split; [split; auto|]. intros e H. inversion H. auto.
Qed.

(** X5.  [upsert_quality] returns normally exactly when the label is one
    of good, review, bad and both the image and the user exist; a label
    outside the three raises the CHECK error, a missing image or user the
    foreign-key error, and a call that raises leaves the store as it was. *)
Theorem upsert_quality_outcome now i u l sc w s :
  (snd (upsert_quality now i u l sc w s) = inr tt <->
   In l ["good"; "review"; "bad"] /\ has_image s i = true /\ has_user s u = true) /\
  (~ In l ["good"; "review"; "bad"] ->
   upsert_quality now i u l sc w s = (s, inl CheckViolation)) /\
  (In l ["good"; "review"; "bad"] -> has_image s i && has_user s u = false ->
   upsert_quality now i u l sc w s = (s, inl ForeignKeyViolation)).
Proof.
  assert (Hl : label_ok l = true <-> In l ["good"; "review"; "bad"]).
  { unfold label_ok. rewrite !orb_true_iff, !String.eqb_eq. cbn.
    split; [intros [[H|H]|H]; auto | intros [H|[H|[H|[]]]]; auto]. }
  unfold upsert_quality, insert_or_replace_vote.
  destruct (label_ok l) eqn:El; cbn [negb].
  - destruct (has_image s i && has_user s u) eqn:Ef; cbn [negb].
    + apply andb_true_iff in Ef. split; [|split].
      * split; [intros _; split; [apply Hl; reflexivity | exact Ef] | reflexivity].
      * intros Hn. exfalso. apply Hn, Hl. reflexivity.
      * intros _ H. discriminate.
    + split; [|split].
      * split; [discriminate|]. intros (_ & Hi & Hu). rewrite Hi, Hu in Ef. discriminate.
      * intros Hn. exfalso. apply Hn, Hl. reflexivity.
      * reflexivity.
  - split; [|split].
    + split; [discriminate|]. intros (H & _). apply Hl in H. discriminate.
    + reflexivity.
    + intros H. apply Hl in H. discriminate.
Qed.

End StoreOps.

(* ================================================================== *)
(** ** What every reachable store satisfies                           *)
(* ================================================================== *)

Module StoreInvariants.
Import Lib LibFacts Statements.

#[local] Arguments next_rowid : simpl never.

(** *** Every call is a short run of statements *)

Lemma statements_one s s' : statement s s' -> statements s s'.
Proof. intros H. eapply sts_step; [exact H | apply sts_done]. Qed.

Lemma statements_trans s1 s2 s3 :
  statements s1 s2 -> statements s2 s3 -> statements s1 s3.
Proof.
  induction 1 as [|s s' s'' H _ IH]; intros H3; [exact H3|].
  eapply sts_step; [exact H | apply IH; exact H3].
Qed.

Lemma upsert_tag_statements n c d s : statements s (fst (upsert_tag n c d s)).
Proof.
  destruct (find_tag s n c) as [r|] eqn:E.
  - rewrite (upsert_tag_found _ _ d _ _ E). apply sts_done.
  - rewrite (upsert_tag_fresh _ _ d _ E). apply statements_one, st_insert_tag.
    apply find_none_existsb. exact E.
Qed.

Lemma after_tag_statements now i tid u s : statements s (fst (after_tag now i tid u s)).
Proof.
  unfold after_tag. destruct (find_annotation s i tid u) as [r|] eqn:E.
  - destruct (negb _); [apply statements_one, st_reactivate | apply sts_done].
  - unfold insert_annotation.
    destruct (trg_limit_annotators s i) eqn:Et; [apply sts_done|].
    destruct (existsb _ _) eqn:Ex; [apply sts_done|].
    destruct (has_image s i && has_tag s tid && has_user s u) eqn:Ef; cbn [negb];
      [|apply sts_done].
    apply statements_one, st_insert_annotation; assumption.
Qed.

Lemma add_tag_statements now i n u c s :
  statements s (fst (add_tag_for_user now i n u c s)).
Proof.
  destruct (upsert_tag_ok n c None s) as (s1 & t & Hup & _).
  rewrite (add_tag_unfold _ _ _ _ _ _ _ _ Hup).
  apply statements_trans with s1.
  - replace s1 with (fst (upsert_tag n c None s)) by (rewrite Hup; reflexivity).
    apply upsert_tag_statements.
  - apply after_tag_statements.
Qed.

Lemma exec_fst s c :
  exec s c =
  match c with
  | EnsureUser u d => fst (ensure_user u d s)
  | UpsertImage p h t => fst (upsert_image p h t s)
  | UpsertTag n c d => fst (upsert_tag n c d s)
  | AddTagForUser now i n u c => fst (add_tag_for_user now i n u c s)
  | RemoveTagForUser now i n u c => fst (remove_tag_for_user now i n u c s)
  | UpsertAttachment i k p h t => fst (upsert_attachment i k p h t s)
  | UpsertQuality now i u l sc w => fst (upsert_quality now i u l sc w s)
  end.
Proof.
  unfold exec, run. destruct c;
    match goal with |- context [let (_, _) := ?x in _] => destruct x end; reflexivity.
Qed.

Lemma exec_statements s c : statements s (exec s c).
Proof.
  rewrite exec_fst. destruct c.
  - unfold ensure_user, bind, get, ret.
    destruct (find_user s username) eqn:E; [apply sts_done|].
    unfold insert_user. unfold find_user in E. rewrite (find_none_existsb _ _ E).
    apply statements_one, st_insert_user. apply find_none_existsb. exact E.
  - unfold upsert_image, bind, get, ret.
    destruct (find_image_by_sha s sha) eqn:E.
    + apply statements_one. apply (st_update_path s).
    + unfold insert_image. unfold find_image_by_sha in E.
      rewrite (find_none_existsb _ _ E).
      apply statements_one, st_insert_image. apply find_none_existsb. exact E.
  - apply upsert_tag_statements.
  - apply add_tag_statements.
  - unfold remove_tag_for_user, bind, get, ret.
    destruct (find_tag s tag_name category); [|apply sts_done].
    apply statements_one, st_soft_delete.
  - rewrite StoreOps.upsert_attachment_cases.
    destruct (find_attachment_by_sha s sha) eqn:E; [apply sts_done|].
    destruct (has_image s image_id) eqn:Ei; [|apply sts_done].
    apply statements_one, st_insert_attachment; [|exact Ei].
    apply find_none_existsb. exact E.
  - unfold upsert_quality, insert_or_replace_vote.
    destruct (label_ok label) eqn:El; cbn [negb]; [|apply sts_done].
    destruct (has_image s image_id && has_user s user_id) eqn:Ef; cbn [negb];
      [|apply sts_done].
    apply statements_one, st_replace_vote; assumption.
Qed.

(** An invariant of the statements is an invariant of the reachable
    stores. *)
Lemma reachable_invariant (P : store -> Prop) :
  P empty ->
  (forall s s', statement s s' -> P s -> P s') ->
  forall s, reachable s -> P s.
Proof.
  intros H0 Hstep s Hr. induction Hr as [|s c _ IH]; [exact H0|].
  pose proof (exec_statements s c) as Hs. revert IH.
  induction Hs as [|s0 s1 s2 H _ IH2]; intros HP; [exact HP|].
  apply IH2. exact (Hstep _ _ H HP).
Qed.

(** *** Referential integrity *)

Lemma existsb_map_same {A} (p : A -> bool) (f : A -> A) l :
  (forall a, p (f a) = p a) -> existsb p (map f l) = existsb p l.
Proof.
  intros H. induction l as [|x l IH]; cbn; [reflexivity|]. rewrite H, IH. reflexivity.
Qed.

Lemma has_image_statement s s' id :
  statement s s' -> has_image s id = true -> has_image s' id = true.
Proof.
  intros H Hi. destruct H; unfold has_image in *; cbn; try exact Hi.
  - rewrite existsb_map_same; [exact Hi|].
    intros a. destruct (i_id a =? id0)%Z; reflexivity.
  - rewrite existsb_app, Hi. reflexivity.
Qed.

Lemma has_tag_statement s s' id :
  statement s s' -> has_tag s id = true -> has_tag s' id = true.
Proof.
  intros H Hi. destruct H; unfold has_tag in *; cbn; try exact Hi.
  rewrite existsb_app, Hi. reflexivity.
Qed.

Lemma has_user_statement s s' id :
  statement s s' -> has_user s id = true -> has_user s' id = true.
Proof.
  intros H Hi. destruct H; unfold has_user in *; cbn; try exact Hi.
  rewrite existsb_app, Hi. reflexivity.
Qed.

Lemma annotations_statement s s' a :
  statement s s' -> In a (annotations s') ->
  (exists a0, In a0 (annotations s) /\ triple_of a0 = triple_of a) \/
  has_image s (a_image_id a) && has_tag s (a_tag_id a) && has_user s (a_user_id a) = true.
Proof.
  intros H Hin. destruct H; cbn in Hin; try (left; exists a; split; [exact Hin | reflexivity]).
  - apply in_app_iff in Hin. destruct Hin as [Hin|[<-|[]]].
    + left. exists a. split; [exact Hin | reflexivity].
    + right. cbn. assumption.
  - apply in_map_iff in Hin. destruct Hin as [a0 [<- Hin]]. left. exists a0.
    split; [exact Hin|]. destruct (a_id a0 =? id)%Z; reflexivity.
  - apply in_map_iff in Hin. destruct Hin as [a0 [<- Hin]]. left. exists a0.
    split; [exact Hin|]. destruct (is_triple i t u a0); reflexivity.
Qed.

Lemma votes_statement s s' q :
  statement s s' -> In q (quality_votes s') ->
  In q (quality_votes s) \/
  has_image s (q_image_id q) && has_user s (q_user_id q) = true.
Proof.
  intros H Hin. destruct H; cbn in Hin; try (left; exact Hin).
  apply in_app_iff in Hin. destruct Hin as [Hin|[<-|[]]].
  - left. apply filter_In in Hin. tauto.
  - right. cbn. assumption.
Qed.

Lemma attachments_statement s s' x :
  statement s s' -> In x (attachments s') ->
  In x (attachments s) \/ has_image s (x_image_id x) = true.
Proof.
  intros H Hin. destruct H; cbn in Hin; try (left; exact Hin).
  apply in_app_iff in Hin. destruct Hin as [Hin|[<-|[]]]; [left; exact Hin|].
  right. cbn. assumption.
Qed.

Lemma refs_ok_statement s s' : statement s s' -> refs_ok s -> refs_ok s'.
Proof.
  intros Hst (Ha & Hq & Hx).
  pose proof (has_image_statement s s') as Mi.
  pose proof (has_tag_statement s s') as Mt.
  pose proof (has_user_statement s s') as Mu.
  split; [|split].
  - intros a Hin. destruct (annotations_statement s s' a Hst Hin) as [[a0 [H0 Hk]]|Hfk].
    + destruct (Ha a0 H0) as (H1 & H2 & H3).
      assert (E : a_image_id a = a_image_id a0 /\ a_tag_id a = a_tag_id a0
                  /\ a_user_id a = a_user_id a0)
        by (unfold triple_of in Hk; inversion Hk; auto).
      destruct E as (-> & -> & ->). auto.
    + apply andb_true_iff in Hfk. destruct Hfk as [Hfk H3].
      apply andb_true_iff in Hfk. destruct Hfk as [H1 H2]. auto.
  - intros q Hin. destruct (votes_statement s s' q Hst Hin) as [H0|Hfk].
    + destruct (Hq q H0). auto.
    + apply andb_true_iff in Hfk. destruct Hfk. auto.
  - intros x Hin. destruct (attachments_statement s s' x Hst Hin) as [H0|Hfk]; auto.
Qed.

(** X6.  Referential integrity: in every store the calls can reach, each
    annotation row refers to an image, a tag and a user that exist, each
    vote to an existing image and user, and each attachment to an existing
    image. *)
Theorem reachable_refs_ok s : reachable s -> refs_ok s.
Proof.
  apply reachable_invariant.
  - split; [|split]; intros ? H; destruct H.
  - exact refs_ok_statement.
Qed.

Lemma reachable_refs_ok_witness : refs_ok Scenario.library.
Proof.
  apply reachable_refs_ok. apply reachable_exec_all. constructor.
Defined.

(** *** Keys *)

Lemma fold_max_ge ids x : In x ids -> x <= fold_right Z.max 0 ids.
Proof.
  induction ids as [|y ids IH]; cbn; [intros []|].
  intros [->|H]; [lia | specialize (IH H); lia].
Qed.

Lemma next_rowid_fresh ids : ~ In (next_rowid ids) ids.
Proof.
  intros H. apply fold_max_ge in H. unfold next_rowid in H. lia.
Qed.

Lemma NoDup_map_snoc {A K} (key : A -> K) l x :
  NoDup (map key l) -> ~ In (key x) (map key l) -> NoDup (map key (l ++ [x])).
Proof. intros H1 H2. rewrite map_app. cbn. apply NoDup_snoc; assumption. Qed.

Lemma not_in_by_existsb {A K} (key : A -> K) (p : A -> bool) k l :
  (forall a, key a = k -> p a = true) -> existsb p l = false -> ~ In k (map key l).
Proof.
  intros Hp Hex Hin. apply in_map_iff in Hin. destruct Hin as [a [Ha Hin]].
  assert (existsb p l = true); [|congruence].
  apply existsb_exists. exists a. split; [exact Hin | apply Hp; exact Ha].
Qed.

Ltac fresh_id := apply NoDup_map_snoc; [assumption | cbn; apply next_rowid_fresh].

Ltac same_key :=
  apply NoDup_map_same_key; [|assumption]; intros ?;
  match goal with |- context [if ?b then _ else _] => destruct b end; reflexivity.

Lemma keys_ok_statement s s' : statement s s' -> keys_ok s -> keys_ok s'.
Proof.
  intros Hst Hk. destruct Hk.
  destruct Hst; constructor;
    cbn [users images tags annotations quality_votes attachments set_users set_images
         set_tags set_annotations set_quality_votes set_attachments fst
         update_image_path reactivate_annotation soft_delete_annotation];
    try assumption; try fresh_id; try same_key.
  - apply NoDup_map_snoc; [assumption|]. cbn.
    eapply not_in_by_existsb; [|eassumption]. intros a Ha. apply String.eqb_eq. exact Ha.
  - apply NoDup_map_snoc; [assumption|]. cbn.
    eapply not_in_by_existsb; [|eassumption]. intros a Ha. apply String.eqb_eq. exact Ha.
  - apply NoDup_map_snoc; [assumption|]. cbn.
    eapply not_in_by_existsb; [|eassumption]. intros a Ha. unfold tag_key in Ha.
    inversion Ha. apply andb_true_iff. split; apply String.eqb_refl.
  - apply annotations_unique_insert; assumption.
  - apply NoDup_map_snoc; [assumption|]. cbn.
    eapply not_in_by_existsb; [|eassumption]. intros a Ha. apply String.eqb_eq. exact Ha.
  - apply NoDup_map_snoc; [apply NoDup_map_filter; assumption|]. cbn.
    intros Hin. apply in_map_iff in Hin. destruct Hin as [q [Hq Hin]].
    apply filter_In in Hin. destruct Hin as [Hin _].
    apply (next_rowid_fresh (map q_id (quality_votes s))). rewrite <- Hq.
    apply in_map. exact Hin.
  - apply NoDup_map_snoc; [apply NoDup_map_filter; assumption|]. cbn.
    intros Hin. apply in_map_iff in Hin. destruct Hin as [q [Hq Hin]].
    apply filter_In in Hin. destruct Hin as [_ Hneg].
    apply same_voter_iff in Hq. cbn in Hq. rewrite Hq in Hneg. discriminate.
Qed.

(** X7.  Keys: in every reachable store the row ids of each table are
    pairwise different, and so are the usernames, the image digests, the
    (name, category) pairs of the tags, the (image, tag, user) triples of
    the annotations, the (image, user) pairs of the votes and the attachment
    digests. *)
Theorem reachable_keys_ok s : reachable s -> keys_ok s.
Proof.
  apply reachable_invariant.
  - constructor; constructor.
  - exact keys_ok_statement.
Qed.

Lemma reachable_keys_ok_witness : keys_ok Scenario.library.
Proof.
  apply reachable_keys_ok. apply reachable_exec_all. constructor.
Defined.

(** *** Nothing is deleted *)

Lemma extends_refl {A} (l : list A) : extends l l.
Proof. exists []. symmetry. apply app_nil_r. Qed.

Lemma extends_snoc {A} (l : list A) x : extends l (l ++ [x]).
Proof. exists [x]. reflexivity. Qed.

Lemma extends_trans {A} (l1 l2 l3 : list A) :
  extends l1 l2 -> extends l2 l3 -> extends l1 l3.
Proof.
  intros [e1 ->] [e2 ->]. exists (e1 ++ e2)%list. symmetry. apply app_assoc.
Qed.

Lemma extends_map_same {A B} (key : A -> B) (f : A -> A) l :
  (forall a, key (f a) = key a) -> extends (map key l) (map key (map f l)).
Proof.
  intros H. rewrite map_map. rewrite (map_ext _ _ H). apply extends_refl.
Qed.

Lemma kept_refl s : kept s s.
Proof. repeat split; apply extends_refl. Qed.

Lemma kept_trans s1 s2 s3 : kept s1 s2 -> kept s2 s3 -> kept s1 s3.
Proof.
  intros (A1 & A2 & A3 & A4 & A5) (B1 & B2 & B3 & B4 & B5).
  repeat split; eapply extends_trans; eassumption.
Qed.

Lemma kept_statement s s' : statement s s' -> kept s s'.
Proof.
  intros H. destruct H; unfold kept;
    cbn [users images tags annotations quality_votes attachments set_users set_images
         set_tags set_annotations set_quality_votes set_attachments fst
         update_image_path reactivate_annotation soft_delete_annotation];
    repeat split;
    try apply extends_refl; try apply extends_snoc;
    try (rewrite map_app; apply extends_snoc);
    try (apply extends_map_same; intros ?;
         match goal with |- context [if ?b then _ else _] => destruct b end;
         reflexivity).
Qed.


(** *** The annotator count under the calls *)

Lemma nodup_length_incl (l l' : list Z) :
  incl l l' ->
  (List.length (nodup Z.eq_dec l) <= List.length (nodup Z.eq_dec l'))%nat.
Proof.
  intros H. apply NoDup_incl_length; [apply NoDup_nodup|].
  intros x Hx. apply nodup_In. apply H. apply nodup_In in Hx. exact Hx.
Qed.

Lemma nodup_length_snoc (l : list Z) x :
  (List.length (nodup Z.eq_dec (l ++ [x])) <= S (List.length (nodup Z.eq_dec l)))%nat.
Proof.
  change (S (List.length (nodup Z.eq_dec l)))
    with (List.length (x :: nodup Z.eq_dec l)).
  apply NoDup_incl_length; [apply NoDup_nodup|].
  intros y Hy. apply nodup_In in Hy. apply in_app_iff in Hy.
  destruct Hy as [Hy|[<-|[]]]; [right; apply nodup_In; exact Hy | left; reflexivity].
Qed.

Lemma count_same s s' i :
  annotations s' = annotations s -> count_annotators s' i = count_annotators s i.
Proof. intros H. unfold count_annotators, active_annotators. rewrite H. reflexivity. Qed.

Lemma count_insert s i0 t u now i :
  (count_annotators
     (set_annotations s
        (annotations s ++ [mk_annotation (next_rowid (map a_id (annotations s))) i0 t u now 0]))
     i
   <= if (i0 =? i)%Z then S (count_annotators s i) else count_annotators s i)%nat.
Proof.
  unfold count_annotators, active_annotators. cbn [annotations set_annotations].
  rewrite filter_app. cbn [filter]. unfold is_active_on at 2. cbn.
  destruct (i0 =? i)%Z; cbn.
  - rewrite map_app. cbn. apply nodup_length_snoc.
  - rewrite app_nil_r. apply Nat.le_refl.
Qed.

Lemma count_soft_delete i0 t u now s i :
  (count_annotators (fst (soft_delete_annotation i0 t u now s)) i
   <= count_annotators s i)%nat.
Proof.
  unfold count_annotators, active_annotators, soft_delete_annotation. cbn.
  apply nodup_length_incl. intros x Hx.
  apply in_map_iff in Hx. destruct Hx as [a [<- Ha]].
  apply filter_In in Ha. destruct Ha as [Ha Hact].
  apply in_map_iff in Ha. destruct Ha as [a0 [<- Ha0]].
  destruct (is_triple i0 t u a0).
  - unfold is_active_on in Hact. cbn in Hact. rewrite andb_false_r in Hact. discriminate.
  - apply in_map. apply filter_In. split; assumption.
Qed.

Lemma exec_annotations_frame s c :
  (forall now i n u cat, c <> AddTagForUser now i n u cat) ->
  (forall now i n u cat, c <> RemoveTagForUser now i n u cat) ->
  annotations (exec s c) = annotations s.
Proof.
  intros H1 H2. destruct c;
    try (exfalso; eapply H1; reflexivity); try (exfalso; eapply H2; reflexivity);
    unfold_calls; split_calls; reflexivity.
Qed.

(** X9.  What the trigger does guarantee: a call that is not a
    reactivation (an [add_tag_for_user] meeting its own row soft-deleted)
    never takes an image's number of distinct active annotators above five,
    and never raises a number that is already above it. *)
Theorem cap_kept_without_reactivation s c i :
  reactivating s c = false ->
  (count_annotators (exec s c) i <= Nat.max 5 (count_annotators s i))%nat.
Proof.
  intros Hre.
  assert (Hsame : annotations (exec s c) = annotations s ->
                  (count_annotators (exec s c) i <= Nat.max 5 (count_annotators s i))%nat)
    by (intros H; rewrite (count_same _ _ _ H); lia).
  destruct c; try (apply Hsame, exec_annotations_frame; intros; discriminate).
  - rewrite exec_fst.
    destruct (upsert_tag_ok tag_name category None s)
      as (s1 & t & Hup & _ & _ & _ & Hann & _).
    unfold reactivating in Hre. rewrite Hup in Hre.
    rewrite (add_tag_unfold _ _ _ _ _ _ _ _ Hup). unfold after_tag.
    rewrite <- (count_same s s1 i Hann).
    destruct (find_annotation s1 image_id (t_id t) user_id) as [r|].
    + rewrite Hre. cbn [fst]. lia.
    + unfold insert_annotation, trg_limit_annotators.
      destruct (Nat.leb_spec 5 (count_annotators s1 image_id)) as [|Hlt]; [cbn [fst]; lia|].
      destruct (existsb _ _); [cbn [fst]; lia|].
      destruct (negb _); [cbn [fst]; lia|]. cbn [fst].
      pose proof (count_insert s1 image_id (t_id t) user_id now i) as Hc.
      destruct (Z.eqb_spec image_id i) as [->|_]; lia.
  - rewrite exec_fst. unfold remove_tag_for_user, bind, get, ret.
    destruct (find_tag s tag_name category); [|cbn [fst]; lia].
    pose proof (count_soft_delete image_id (t_id t) user_id now s i). lia.
Qed.

Lemma cap_kept_without_reactivation_witness :
  (count_annotators
     (exec Scenario.five_annotators (AddTagForUser "2025-07-01T00:00:00" 1 "z" 6 "")) 1
   <= Nat.max 5 (count_annotators Scenario.five_annotators 1))%nat.
Proof.
  apply (cap_kept_without_reactivation Scenario.five_annotators
           (AddTagForUser "2025-07-01T00:00:00" 1 "z" 6 "") 1).
  reflexivity.
Defined.

(** *** Removing a tag *)

Lemma map_unchanged {A} (f : A -> A) l : (forall a, In a l -> f a = a) -> map f l = l.
Proof.
  induction l as [|x l IH]; cbn; intros H; [reflexivity|].
  rewrite H by (left; reflexivity). rewrite IH; [reflexivity|].
  intros a Ha. apply H. right. exact Ha.
Qed.

(** X10.  [remove_tag_for_user] never raises and never removes a row: it
    touches the annotations table only, keeps its length, leaves every row
    of the (image, tag, user) triple soft-deleted with the call's clock as
    timestamp (also a row that was soft-deleted before), lowers or keeps
    every image's annotator count, and is a no-op when the tag is unknown or
    the triple has no row. *)
Theorem remove_tag_effect now i n u c s :
  exists s',
    remove_tag_for_user now i n u c s = (s', inr tt) /\
    users s' = users s /\ images s' = images s /\ tags s' = tags s /\
    quality_votes s' = quality_votes s /\ attachments s' = attachments s /\
    List.length (annotations s') = List.length (annotations s) /\
    (forall t a, find_tag s n c = Some t -> In a (rows_of_triple s' i (t_id t) u) ->
                 a_is_deleted a = 1 /\ a_created_at a = now) /\
    (forall j, (count_annotators s' j <= count_annotators s j)%nat) /\
    (find_tag s n c = None -> s' = s) /\
    (forall t, find_tag s n c = Some t -> find_annotation s i (t_id t) u = None -> s' = s).
Proof.
  unfold remove_tag_for_user, bind, get, ret.
  destruct (find_tag s n c) as [t|] eqn:E.
  - exists (fst (soft_delete_annotation i (t_id t) u now s)).
    split; [reflexivity|]. do 5 (split; [reflexivity|]).
    split; [unfold soft_delete_annotation; cbn; apply length_map|].
    split; [|split; [|split]].
    + intros t0 a Ht Hin. inversion Ht; subst t0.
      rewrite rows_of_triple_soft_delete in Hin.
      apply in_map_iff in Hin. destruct Hin as [a0 [<- Hin]].
      unfold rows_of_triple in Hin. apply filter_In in Hin. destruct Hin as [_ Ht0].
      rewrite Ht0. split; reflexivity.
    + intros j. apply count_soft_delete.
    + intros H; discriminate.
    + intros t0 Ht Hnone. inversion Ht; subst t0.
      unfold soft_delete_annotation. cbn [fst]. rewrite map_unchanged.
      * destruct s; reflexivity.
      * intros a Ha. unfold find_annotation in Hnone.
        rewrite (find_none _ _ Hnone a Ha). reflexivity.
  - exists s. do 7 (split; [reflexivity|]).
    split; [intros t a H; discriminate|]. split; [intros j; apply Nat.le_refl|].
    split; [reflexivity | intros t H; discriminate].
Qed.

End StoreInvariants.

(* ================================================================== *)
(** ** The importer: counters, keys and repeated imports              *)
(* ================================================================== *)

Module ImporterMore.
Import Importer ImporterViews.

#[local] Arguments Importer.next_rowid : simpl never.

Section WithHash.

Variable sha256_hex : string -> string.

(** *** Linking one file to the tags *)

Lemma link_tags_effect fid tids : forall c n,
  exists c' n',
    link_tags fid tids c n = (c', n') /\
    files c' = files c /\ tags c' = tags c /\
    links c' - links c = n' - n /\ n <= n' /\
    Statements.extends (file_tags c) (file_tags c') /\
    (forall t, In t tids -> has_link c' fid t = true).
Proof.
  induction tids as [|t tids IH]; intros c n.
  - exists c, n. cbn. repeat split; try lia; try (intros ? []).
    exists []. symmetry. apply app_nil_r.
  - cbn [link_tags]. unfold insert_or_ignore_link.
    destruct (existsb _ (file_tags c)) eqn:E.
    + destruct (IH c (n + 0)) as (c' & n' & H & Hf & Ht & Hl & Hn & Hx & Hall).
      exists c', n'. rewrite H. repeat split; try assumption; try lia.
      intros t' [<-|Hin]; [|apply Hall; exact Hin].
      destruct Hx as [e He]. unfold has_link. rewrite He, existsb_app.
      unfold has_link in E. rewrite E. reflexivity.
    + destruct (IH (mk_db (files c) (tags c) (file_tags c ++ [(fid, t)])) (n + 1))
        as (c' & n' & H & Hf & Ht & Hl & Hn & Hx & Hall).
      exists c', n'. rewrite H. cbn [files tags] in *.
      split; [reflexivity|]. split; [exact Hf|]. split; [exact Ht|].
      unfold links in *. cbn [file_tags] in Hl. rewrite length_app in Hl. cbn in Hl.
      split; [lia|]. split; [lia|]. split.
      * destruct Hx as [e He]. cbn [file_tags] in He. exists ((fid, t) :: e).
        rewrite He, <- app_assoc. reflexivity.
      * intros t' [<-|Hin]; [|apply Hall; exact Hin].
        destruct Hx as [e He]. cbn [file_tags] in He. unfold has_link.
        rewrite He, !existsb_app. cbn. rewrite !Z.eqb_refl. cbn.
        rewrite orb_true_r. reflexivity.
Qed.

(** *** Monotone facts *)

Lemma has_digest_extends c c' h :
  Statements.extends (files c) (files c') -> has_digest c h = true -> has_digest c' h = true.
Proof.
  intros [e He] H. unfold has_digest in *. rewrite He, existsb_app, H. reflexivity.
Qed.

Lemma has_link_extends c c' f t :
  Statements.extends (file_tags c) (file_tags c') -> has_link c f t = true ->
  has_link c' f t = true.
Proof.
  intros [e He] H. unfold has_link in *. rewrite He, existsb_app, H. reflexivity.
Qed.

Lemma select_extends c c' h f :
  Statements.extends (files c) (files c') -> select_file_id h c = Some f ->
  select_file_id h c' = Some f.
Proof.
  intros [e He] H. unfold select_file_id in *. rewrite He.
  destruct (find _ (files c)) as [r|] eqn:E; [|discriminate].
  rewrite (LibFacts.find_app_some _ _ _ _ E). exact H.
Qed.

Lemma has_digest_select c h :
  has_digest c h = true -> exists f, select_file_id h c = Some f.
Proof.
  unfold has_digest, select_file_id. intros H.
  destruct (find _ (files c)) as [r|] eqn:E; [cbn; eauto|].
  apply LibFacts.find_none_existsb in E. congruence.
Qed.

(** The INSERT OR IGNORE of one file. *)
Lemma insert_or_ignore_file_effect now p h size c :
  exists c1 rowcount,
    insert_or_ignore_file now p h size c = (c1, rowcount) /\
    tags c1 = tags c /\ file_tags c1 = file_tags c /\
    Statements.extends (files c) (files c1) /\
    has_digest c1 h = true /\
    rows c1 - rows c = rowcount /\
    (rowcount = 1 /\ has_digest c h = false \/ rowcount = 0 /\ has_digest c h = true /\ c1 = c) /\
    (NoDup (map f_sha256 (files c)) -> NoDup (map f_sha256 (files c1))).
Proof.
  unfold insert_or_ignore_file. fold (has_digest c h).
  destruct (has_digest c h) eqn:E.
  - exists c, 0. repeat split; auto; try lia.
    exists []. symmetry. apply app_nil_r.
  - eexists _, 1. split; [reflexivity|]. cbn [files tags file_tags].
    split; [reflexivity|]. split; [reflexivity|].
    split; [eexists; reflexivity|].
    split; [unfold has_digest; cbn [files]; rewrite existsb_app; cbn;
            rewrite String.eqb_refl; apply orb_true_r|].
    split; [unfold rows; cbn [files]; rewrite length_app; cbn; lia|].
    split; [left; auto|].
    intros Hnd. rewrite map_app. cbn. apply LibFacts.NoDup_snoc; [exact Hnd|].
    intros Hin. apply in_map_iff in Hin. destruct Hin as [r [Hr Hin]].
    unfold has_digest in E. assert (existsb (fun r => f_sha256 r =? h) (files c) = true);
      [|congruence].
    apply existsb_exists. exists r. split; [exact Hin | apply String.eqb_eq; exact Hr].
Qed.

(** *** The loop over the paths *)

Lemma import_loop_effect now d tids paths : forall c st,
  exists c' st',
    import_loop sha256_hex now d tids paths c st = Some (c', st') /\
    tags c' = tags c /\
    Statements.extends (files c) (files c') /\
    Statements.extends (file_tags c) (file_tags c') /\
    rows c' - rows c = inserted st' - inserted st /\
    links c' - links c = tag_links st' - tag_links st /\
    inserted st' + duplicates st' =
      inserted st + duplicates st + Z.of_nat (List.length (regular d paths)) /\
    inserted st <= inserted st' /\ duplicates st <= duplicates st' /\
    tag_links st <= tag_links st' /\
    (NoDup (map f_sha256 (files c)) -> NoDup (map f_sha256 (files c'))) /\
    (forall p content, In p paths -> d p = Some content ->
       has_digest c' (sha256_hex content) = true) /\
    (forall p content f t, In p paths -> d p = Some content -> In t tids ->
       select_file_id (sha256_hex content) c' = Some f -> has_link c' f t = true) /\
    ((forall p content, In p paths -> d p = Some content ->
        has_digest c (sha256_hex content) = true) ->
     files c' = files c /\ inserted st' = inserted st).
Proof.
  induction paths as [|p paths IH]; intros c st.
  - exists c, st. cbn. split; [reflexivity|]. split; [reflexivity|].
    split; [apply StoreInvariants.extends_refl|].
    split; [apply StoreInvariants.extends_refl|].
    repeat split; try lia; auto; intros; contradiction.
  - cbn [import_loop regular filter]. destruct (d p) as [content|] eqn:Ep.
    2:{ destruct (IH c st) as (c' & st' & H & Ht & Hx & Hy & Hr & Hl & Hs & Hi & Hd & Hk
                               & Hn & Hall & Hlk & Hsame).
        exists c', st'. fold (regular d paths). do 11 (split; [assumption|]).
        split; [|split].
        - intros q content [<-|Hin] Hq; [congruence | eapply Hall; eassumption].
        - intros q content f t [<-|Hin] Hq; [congruence | eapply Hlk; eassumption].
        - intros Hpre. apply Hsame. intros q content Hin Hq.
          apply (Hpre q content); [right; exact Hin | exact Hq]. }
    destruct (insert_or_ignore_file_effect now p (sha256_hex content)
                (Z.of_nat (String.length content)) c)
      as (c1 & rc & Hins & Ht1 & Hft1 & Hx1 & Hh1 & Hr1 & Hcase & Hn1).
    rewrite Hins.
    destruct (has_digest_select c1 _ Hh1) as [fid Hsel]. rewrite Hsel.
    set (st1 := if (rc =? 1)%Z
                then mk_stats (inserted st + 1) (duplicates st) (tag_links st)
                else mk_stats (inserted st) (duplicates st + 1) (tag_links st)).
    destruct (link_tags_effect fid tids c1 (tag_links st1))
      as (c2 & n2 & Hlink & Hf2 & Ht2 & Hl2 & Hn2 & Hx2 & Hall2).
    rewrite Hlink.
    destruct (IH c2 (mk_stats (inserted st1) (duplicates st1) n2))
      as (c' & st' & H & Ht & Hx & Hy & Hr & Hl & Hs & Hi & Hd & Hk
          & Hn & Hall & Hlk & Hsame).
    exists c', st'. split; [exact H|]. cbn [inserted duplicates tag_links] in *.
    fold (regular d paths).
    assert (Hx12 : Statements.extends (files c) (files c2)) by (rewrite Hf2; exact Hx1).
    assert (Hy12 : Statements.extends (file_tags c) (file_tags c2))
      by (rewrite <- Hft1; exact Hx2).
    assert (Hst1 : inserted st1 + duplicates st1 = inserted st + duplicates st + 1
                   /\ inserted st1 - inserted st = rc /\ inserted st <= inserted st1
                   /\ duplicates st <= duplicates st1 /\ tag_links st1 = tag_links st).
    { unfold st1. destruct Hcase as [[-> _]|[-> _]]; cbn; lia. }
    destruct Hst1 as (Hs1 & Hi1 & Hi1' & Hd1 & Hk1).
    assert (Hrows2 : rows c2 = rows c1) by (unfold rows; rewrite Hf2; reflexivity).
    assert (Hlinks1 : links c1 = links c) by (unfold links; rewrite Hft1; reflexivity).
    split; [congruence|].
    split; [eapply StoreInvariants.extends_trans; eassumption|].
    split; [eapply StoreInvariants.extends_trans; eassumption|].
    split; [lia|]. split; [lia|].
    split; [cbn [List.length]; lia|].
    split; [lia|]. split; [lia|]. split; [lia|].
    split; [intros Hnd; apply Hn; rewrite Hf2; apply Hn1; exact Hnd|].
    split; [|split].
    + intros q content' [<-|Hin] Hq; [|eapply Hall; eassumption].
      rewrite Ep in Hq. inversion Hq; subst content'.
      apply (has_digest_extends c2); [exact Hx|].
      unfold has_digest. rewrite Hf2. exact Hh1.
    + intros q content' f t [<-|Hin] Hq Hint Hsel'; [|eapply Hlk; eassumption].
      rewrite Ep in Hq. inversion Hq; subst content'.
      assert (Hsel2 : select_file_id (sha256_hex content) c' = Some fid).
      { apply (select_extends c1); [|exact Hsel].
        eapply StoreInvariants.extends_trans; [|exact Hx]. rewrite Hf2.
        apply StoreInvariants.extends_refl. }
      rewrite Hsel2 in Hsel'. inversion Hsel'; subst f.
      apply (has_link_extends c2); [exact Hy | apply Hall2; exact Hint].
    + intros Hpre.
      assert (Hhas : has_digest c (sha256_hex content) = true)
        by (apply (Hpre p content); [left; reflexivity | exact Ep]).
      destruct Hcase as [[_ Hno]|[Hrc [_ Hc1]]]; [congruence|]. subst c1.
      destruct Hsame as [Hfs Hins'].
      * intros q content' Hin Hq. apply (has_digest_extends c); [exact Hx12|].
        apply (Hpre q content'); [right; exact Hin | exact Hq].
      * split; [congruence | lia].
Qed.

(** *** The tag ids *)

Lemma get_or_create_tag_id_effect name c :
  exists c1 id,
    get_or_create_tag_id name c = (c1, id) /\
    files c1 = files c /\ file_tags c1 = file_tags c /\
    Statements.extends (tags c) (tags c1) /\
    (forall c2, Statements.extends (tags c1) (tags c2) ->
                get_or_create_tag_id name c2 = (c2, id)).
Proof.
  unfold get_or_create_tag_id. destruct (find _ (tags c)) as [r|] eqn:E.
  - exists c, (t_id r). split; [reflexivity|]. split; [reflexivity|].
    split; [reflexivity|]. split; [apply StoreInvariants.extends_refl|].
    intros c2 [e He]. rewrite He, (LibFacts.find_app_some _ _ _ _ E). reflexivity.
  - eexists _, _. split; [reflexivity|]. cbn [files tags file_tags].
    split; [reflexivity|]. split; [reflexivity|]. split; [eexists; reflexivity|].
    intros c2 [e He]. rewrite He, <- app_assoc, (LibFacts.find_app_none _ _ _ E).
    cbn. rewrite String.eqb_refl. reflexivity.
Qed.

Lemma tag_ids_of_effect tgs : forall c,
  exists c1 ids,
    tag_ids_of tgs c = (c1, ids) /\
    files c1 = files c /\ file_tags c1 = file_tags c /\
    Statements.extends (tags c) (tags c1) /\
    (forall c2, Statements.extends (tags c1) (tags c2) -> tag_ids_of tgs c2 = (c2, ids)).
Proof.
  induction tgs as [|t tgs IH]; intros c.
  - exists c, []. cbn. repeat split; auto. apply StoreInvariants.extends_refl.
  - cbn [tag_ids_of]. destruct (Str.strip t =? ""); [apply IH|].
    destruct (get_or_create_tag_id_effect (Str.strip t) c)
      as (ca & id & Hg & Hf & Hl & Hx & Hagain).
    destruct (IH ca) as (cb & ids & Hrec & Hf' & Hl' & Hx' & Hagain').
    exists cb, (id :: ids). rewrite Hg, Hrec.
    split; [reflexivity|]. split; [congruence|]. split; [congruence|].
    split; [eapply StoreInvariants.extends_trans; eassumption|].
    intros c2 H2. rewrite (Hagain c2), (Hagain' c2 H2); [reflexivity|].
    eapply StoreInvariants.extends_trans; eassumption.
Qed.


(** X12.  The counters are the growth of the tables: [files] has gained
    [inserted] rows and [file_tags] has gained [tag_links] rows, and no row
    of [files], [tags] or [file_tags] was removed or changed. *)
Theorem import_files_counters_are_growth now d c paths tgs :
  exists c' st,
    import_files sha256_hex now d c paths tgs = Some (c', st) /\
    rows c' = rows c + inserted st /\
    links c' = links c + tag_links st /\
    Statements.extends (files c) (files c') /\
    Statements.extends (tags c) (tags c') /\
    Statements.extends (file_tags c) (file_tags c').
Proof.
  unfold import_files.
  destruct (tag_ids_of_effect tgs c) as (c1 & ids & Ht & Hf & Hl & Hx & _). rewrite Ht.
  destruct (import_loop_effect now d ids paths c1 (mk_stats 0 0 0))
    as (c' & st & H & Htg & Hxf & Hxl & Hr & Hk & _).
  exists c', st. cbn in *. unfold rows, links in *. rewrite Hf in *. rewrite Hl in *.
  repeat split; try assumption; try lia. rewrite Htg. exact Hx.
Qed.

(** X13.  [files.sha256] stays a key: if no two rows share a digest before
    the import, none do after it, and every listed regular file's digest is
    then in [files]. *)
Theorem import_files_keeps_digests_unique now d c paths tgs :
  NoDup (map f_sha256 (files c)) ->
  exists c' st,
    import_files sha256_hex now d c paths tgs = Some (c', st) /\
    NoDup (map f_sha256 (files c')) /\
    (forall p content, In p paths -> d p = Some content ->
       has_digest c' (sha256_hex content) = true).
Proof.
  intros Hnd. unfold import_files.
  destruct (tag_ids_of_effect tgs c) as (c1 & ids & Ht & Hf & _). rewrite Ht.
  destruct (import_loop_effect now d ids paths c1 (mk_stats 0 0 0))
    as (c' & st & H & _ & _ & _ & _ & _ & _ & _ & _ & _ & Hn & Hall & _).
  exists c', st. split; [exact H|]. split; [apply Hn; rewrite Hf; exact Hnd | exact Hall].
Qed.

(** *** Importing again *)

Lemma link_tags_noop fid tids c n :
  (forall t, In t tids -> has_link c fid t = true) ->
  link_tags fid tids c n = (c, n).
Proof.
  revert n. induction tids as [|t tids IH]; intros n Hall; [reflexivity|].
  cbn [link_tags]. unfold insert_or_ignore_link.
  pose proof (Hall t (or_introl eq_refl)) as Ht. unfold has_link in Ht. rewrite Ht.
  rewrite IH; [f_equal; lia|]. intros t' Hin. apply Hall. right. exact Hin.
Qed.

Lemma import_loop_noop now d tids paths c : forall st,
  (forall p content, In p paths -> d p = Some content ->
     has_digest c (sha256_hex content) = true) ->
  (forall p content f t, In p paths -> d p = Some content -> In t tids ->
     select_file_id (sha256_hex content) c = Some f -> has_link c f t = true) ->
  import_loop sha256_hex now d tids paths c st =
  Some (c, mk_stats (inserted st)
             (duplicates st + Z.of_nat (List.length (regular d paths)))
             (tag_links st)).
Proof.
  induction paths as [|p paths IH]; intros st Hd Hl.
  - cbn. destruct st; cbn. do 3 f_equal. lia.
  - cbn [import_loop regular filter]. destruct (d p) as [content|] eqn:Ep.
    + pose proof (Hd p content (or_introl eq_refl) Ep) as Hhas.
      unfold insert_or_ignore_file. unfold has_digest in Hhas. rewrite Hhas.
      destruct (has_digest_select c _ Hhas) as [fid Hsel]. rewrite Hsel.
      cbn [Z.eqb inserted duplicates tag_links].
      rewrite link_tags_noop.
      2:{ intros t Ht. apply (Hl p content fid t); auto. left; reflexivity. }
      rewrite IH.
      * cbn [inserted duplicates tag_links List.length]. fold (regular d paths).
        do 3 f_equal. lia.
      * intros q content' Hin. apply Hd. right. exact Hin.
      * intros q content' f t Hin. apply Hl. right. exact Hin.
    + fold (regular d paths). apply IH.
      * intros q content' Hin. apply Hd. right. exact Hin.
      * intros q content' f t Hin. apply Hl. right. exact Hin.
Qed.

(** X14.  Importing the same paths with the same tags again, the disk
    unchanged, changes nothing: the database returned is the one given, and
    the counters read inserted=0, tag_links=0, with every regular file a
    duplicate. *)
Theorem import_files_again_changes_nothing now1 now2 d c paths tgs c1 st1 :
  import_files sha256_hex now1 d c paths tgs = Some (c1, st1) ->
  import_files sha256_hex now2 d c1 paths tgs =
  Some (c1, mk_stats 0 (Z.of_nat (List.length (regular d paths))) 0).
Proof.
  unfold import_files. intros H1.
  destruct (tag_ids_of_effect tgs c) as (ca & ids & Ht & _ & _ & _ & Hagain).
  rewrite Ht in H1.
  destruct (import_loop_effect now1 d ids paths ca (mk_stats 0 0 0))
    as (c' & st' & H & Htg & _ & _ & _ & _ & _ & _ & _ & _ & _ & Hall & Hlk & _).
  rewrite H in H1. inversion H1; subst c' st'. clear H1.
  rewrite (Hagain c1) by (rewrite Htg; apply StoreInvariants.extends_refl).
  rewrite import_loop_noop; [reflexivity | exact Hall | exact Hlk].
Qed.

End WithHash.

Lemma import_files_keeps_digests_unique_witness :
  exists c' st,
    import_files (fun content => content) "t1" sample_disk Importer.empty
      ["a.txt"; "missing.txt"; "b.txt"; "c.txt"] ["x"; "  "] = Some (c', st) /\
    NoDup (map f_sha256 (files c')).
Proof.
  destruct (import_files_keeps_digests_unique (fun content => content) "t1" sample_disk
              Importer.empty ["a.txt"; "missing.txt"; "b.txt"; "c.txt"] ["x"; "  "])
    as (c' & st & H & Hn & _).
  - constructor.
  - exists c', st. split; assumption.
Defined.

Lemma import_files_again_changes_nothing_witness :
  exists c1 st1,
    import_files (fun content => content) "t1" sample_disk Importer.empty
      ["a.txt"; "missing.txt"; "b.txt"; "c.txt"] ["x"; "  "] = Some (c1, st1) /\
    import_files (fun content => content) "t2" sample_disk c1
      ["a.txt"; "missing.txt"; "b.txt"; "c.txt"] ["x"; "  "] = Some (c1, mk_stats 0 3 0).
Proof.
  eexists _, _. split; [reflexivity|].
  apply (import_files_again_changes_nothing (fun content => content) "t1" "t2"
           sample_disk Importer.empty ["a.txt"; "missing.txt"; "b.txt"; "c.txt"]
           ["x"; "  "] _ _ eq_refl).
Defined.

End ImporterMore.

(* ================================================================== *)
(** ** Search: how the tokens combine                                 *)
(* ================================================================== *)

Module QueryMore.
Import Query QueryViews QueryFacts.

Section WithParser.

Variable fromisoformat : string -> option datetime.

(** *** Blank queries *)

Lemma lstrip_blank s : blank s = true -> Str.lstrip s = "".
Proof.
  induction s as [|c s IH]; cbn; [reflexivity|].
  intros H. apply andb_true_iff in H. destruct H as [-> H]. apply IH. exact H.
Qed.

Lemma tokens_of_blank text : blank text = true -> tokens_of text = [].
Proof.
  intros H. unfold tokens_of, Str.strip. rewrite (lstrip_blank _ H). reflexivity.
Qed.

Lemma no_filters_show_all idx items :
  visible_items no_filters idx items = inr items.
Proof.
  induction items as [|it items IH]; cbn; [reflexivity|]. rewrite IH. reflexivity.
Qed.


(** *** One more token *)

Lemma item_hidden_split f idx it :
  item_hidden f idx it =
  if hidden_before_date f idx it then inr true
  else date_hides (dates f) (map_created_at idx (it_img_id it)).
Proof.
  unfold item_hidden, hidden_before_date.
  repeat match goal with
         | |- context [if ?b then _ else _] => destruct b; cbn [orb]; try reflexivity
         end.
Qed.

Lemma nonempty_snoc {A} (l : list A) x : nonempty (l ++ [x]) = true.
Proof. destruct l; reflexivity. Qed.

(** A token other than a date token keeps what was hidden hidden and leaves
    the date range alone. *)
Lemma add_token_hides_more f t idx it :
  not_date t = true ->
  dates (add_token fromisoformat f t) = dates f /\
  (hidden_before_date f idx it = true ->
   hidden_before_date (add_token fromisoformat f t) idx it = true).
Proof.
  intros Hn. split; [exact (proj2 (add_token_not_date fromisoformat f t (dates f) Hn))|].
  unfold not_date in Hn. apply negb_true_iff in Hn.
  unfold add_token. rewrite Hn. unfold hidden_before_date.
  repeat match goal with
         | |- context [if ?b then _ else _] => destruct b
         end;
    cbn [tag_subs name_subs cats users labels has_csv dates];
    unfold issubset; rewrite ?forallb_app, ?nonempty_snoc; cbn [forallb];
    intros H;
    repeat match goal with
           | H : (_ || _) = true |- _ => apply orb_true_iff in H; destruct H as [H|H]
           end;
    repeat match goal with
           | H : ?b = true |- context [?b] => rewrite H
           end;
    rewrite ?orb_true_r; try reflexivity;
    repeat match goal with
           | H : (_ && _) = true |- _ => apply andb_true_iff in H; destruct H
           | H : negb _ = true |- _ => apply negb_true_iff in H
           end;
    repeat match goal with
           | H : ?b = _ |- context [?b] => rewrite H
           end;
    cbn; rewrite ?orb_true_r; reflexivity.
Qed.

Lemma visible_items_subset f f' idx items :
  dates f' = dates f ->
  (forall it, hidden_before_date f idx it = true -> hidden_before_date f' idx it = true) ->
  forall vis vis',
    visible_items f' idx items = inr vis' ->
    visible_items f idx items = inr vis ->
    incl vis' vis.
Proof.
  intros Hd Hh. induction items as [|it items IH]; cbn; intros vis vis' H' H.
  - inversion H'. intros x [].
  - rewrite !item_hidden_split, Hd in *.
    destruct (hidden_before_date f idx it) eqn:E.
    + rewrite (Hh it E) in H'.
      destruct (visible_items f' idx items) as [e'|v']; [discriminate|].
      destruct (visible_items f idx items) as [e0|v]; [discriminate|].
      inversion H'; inversion H; subst. eapply IH; reflexivity.
    + destruct (date_hides (dates f) (map_created_at idx (it_img_id it))) as [e|h];
        [discriminate|].
      destruct (visible_items f idx items) as [e0|v]; [discriminate|].
      inversion H; subst vis. clear H.
      assert (Hrest : forall v', visible_items f' idx items = inr v' ->
                                 incl v' v) by (intros v' Hv; apply (IH v v'); auto).
      destruct (hidden_before_date f' idx it).
      * destruct (visible_items f' idx items) as [e'|v']; [discriminate|].
        inversion H'; subst vis'. destruct h; [|apply incl_tl]; apply Hrest; reflexivity.
      * destruct (visible_items f' idx items) as [e'|v']; [discriminate|].
        inversion H'; subst vis'. destruct h; [apply Hrest; reflexivity|].
        apply incl_cons; [left; reflexivity | apply incl_tl, Hrest; reflexivity].
Qed.

(** X16.  The tokens AND together: putting one more token other than a
    date token at the end of a query never brings back an item that the
    shorter query hid. *)
Theorem one_more_token_only_hides idx items tokens t vis vis' :
  not_date t = true ->
  search_tokens fromisoformat idx items tokens = inr vis ->
  search_tokens fromisoformat idx items (tokens ++ [t]) = inr vis' ->
  incl vis' vis.
Proof.
  intros Hn H H'. unfold search_tokens, build_filters in *.
  rewrite fold_left_app in H'. cbn [fold_left] in H'.
  eapply visible_items_subset; [| |exact H'|exact H].
  - exact (proj1 (add_token_hides_more _ t idx (mk_item "" 0) Hn)).
  - intros it. exact (proj2 (add_token_hides_more _ t idx it Hn)).
Qed.

(** *** Several date tokens *)

(** X17.  Of several date tokens only the last one counts: the date tokens
    before it can be taken out of the query without changing what the
    search returns (an earlier date range is overwritten, not intersected). *)
Theorem last_date_token_wins idx items ts1 t ts2 :
  is_date_token (Str.lower t) = true ->
  search_tokens fromisoformat idx items (ts1 ++ t :: ts2) =
  search_tokens fromisoformat idx items (filter not_date ts1 ++ t :: ts2).
Proof.
  intros Hd. unfold search_tokens. f_equal. unfold build_filters.
  rewrite !fold_left_app. cbn [fold_left]. f_equal.
  rewrite (fold_split_dates fromisoformat ts1 no_filters).
  rewrite !(add_token_date fromisoformat _ t Hd). apply with_dates_twice.
Qed.

(** *** The forms [date>=D] and [date<=D] *)

Lemma app_string_assoc a b c : (a ++ b) ++ c = a ++ (b ++ c).
Proof. induction a as [|x a IH]; cbn; [reflexivity | rewrite IH; reflexivity]. Qed.

Lemma rev_onto_app s : forall acc, Str.rev_onto s acc = Str.rev s ++ acc.
Proof.
  unfold Str.rev. induction s as [|c s IH]; intros acc; cbn; [reflexivity|].
  rewrite IH, (IH (String c "")), app_string_assoc. reflexivity.
Qed.

Lemma rev_onto_snoc s c : forall acc,
  Str.rev_onto (s ++ String c "") acc = String c (Str.rev_onto s acc).
Proof.
  induction s as [|d s IH]; intros acc; cbn; [reflexivity | apply IH].
Qed.

Lemma rev_snoc s c : Str.rev (s ++ String c "") = String c (Str.rev s).
Proof. apply rev_onto_snoc. Qed.

Lemma lstrip_snoc s c :
  Str.is_space c = false -> exists s', Str.lstrip (s ++ String c "") = s' ++ String c "".
Proof.
  intros Hc. induction s as [|d s [s' IH]]; cbn.
  - rewrite Hc. exists "". reflexivity.
  - destruct (Str.is_space d); [exists s'; exact IH|].
    exists (String d s). reflexivity.
Qed.

Lemma strip_keeps_head c s :
  Str.is_space c = false -> exists s', Str.strip (String c s) = String c s'.
Proof.
  intros Hc. unfold Str.strip. cbn [Str.lstrip]. rewrite Hc. unfold Str.rstrip.
  assert (Hrev : Str.rev (String c s) = Str.rev s ++ String c "")
    by (unfold Str.rev; cbn; apply rev_onto_app).
  rewrite Hrev. destruct (lstrip_snoc (Str.rev s) c Hc) as [s' ->].
  rewrite rev_snoc. eauto.
Qed.

Lemma index_miss s1 c s2 :
  prefix s1 (String c s2) = false ->
  String.index 0 s1 (String c s2) = option_map S (String.index 0 s1 s2).
Proof.
  intros H. cbn [String.index]. rewrite H. destruct (String.index 0 s1 s2); reflexivity.
Qed.

(** The text after [date>] or [date<] starts with [=], which is neither a
    range, nor [>=], nor [<=], nor a date. *)
Lemma parse_date_try_equals token r :
  (forall x, fromisoformat (String "=" x) = None) ->
  Str.drop 5 token = String "=" r ->
  parse_date_try fromisoformat token = None.
Proof.
  intros Hbad Hdrop. unfold parse_date_try. rewrite Hdrop.
  destruct (strip_keeps_head "=" r eq_refl) as [v ->].
  unfold Str.contains, Str.split_once.
  rewrite (index_miss ".." "=" v eq_refl).
  destruct (String.index 0 ".." v) as [k|]; cbn [option_map].
  - cbn [Str.take]. unfold parse_side.
    destruct (strip_keeps_head "=" (Str.take k v) eq_refl) as [a ->].
    cbn [String.eqb]. rewrite Hbad. reflexivity.
  - change (prefix ">=" (String "=" v)) with false.
    change (prefix "<=" (String "=" v)) with false.
    cbn iota. rewrite Hbad. reflexivity.
Qed.

Lemma drop5_of_date_cmp tl :
  prefix "date>=" tl || prefix "date<=" tl = true ->
  prefix "date:" tl = false /\ exists r, Str.drop 5 tl = String "=" r.
Proof.
  intros H.
  do 4 (destruct tl as [|? tl]; [discriminate|]; rewrite !prefix_cons in H;
        match type of H with
        | context [ascii_dec ?a ?b] => destruct (ascii_dec a b); [subst|discriminate]
        end).
  destruct tl as [|c5 tl]; [discriminate|]. rewrite !prefix_cons in H.
  destruct tl as [|c6 tl].
  - destruct (ascii_dec ">" c5), (ascii_dec "<" c5); discriminate.
  - rewrite !prefix_cons in H.
    assert (Hc6 : c6 = "="%char).
    { destruct (ascii_dec ">" c5); destruct (ascii_dec "<" c5);
        destruct (ascii_dec "=" c6); try discriminate; congruence. }
    assert (Hc5 : c5 <> ":"%char).
    { intros ->. destruct (ascii_dec ">" ":"); [discriminate|].
      destruct (ascii_dec "<" ":"); discriminate. }
    subst c6. split; [|exists tl; reflexivity].
    rewrite !prefix_cons.
    repeat match goal with
           | |- context [ascii_dec ?a ?a] => destruct (ascii_dec a a); [|congruence]
           end.
    destruct (ascii_dec ":" c5); [congruence | reflexivity].
Qed.

(** X18.  The forms [date>=D] and [date<=D] written without the colon set
    no date restriction, whatever [D] is, and cancel the one an earlier date
    token had set: [_parse_date] always drops five characters, so what it
    reads starts with [=], which is no date (the working forms are
    [date:>=D] and [date:<=D]). *)
Theorem date_without_colon_sets_no_range f t :
  (forall x, fromisoformat (String "=" x) = None) ->
  prefix "date>=" (Str.lower t) || prefix "date<=" (Str.lower t) = true ->
  add_token fromisoformat f t = with_dates f (None, None).
Proof.
  intros Hbad Hp.
  destruct (drop5_of_date_cmp _ Hp) as [Hno [r Hr]].
  assert (Hd : is_date_token (Str.lower t) = true).
  { unfold is_date_token. apply orb_true_iff in Hp.
    destruct Hp as [->| ->]; rewrite ?orb_true_r; reflexivity. }
  rewrite (add_token_date fromisoformat f t Hd), Hno.
  unfold _parse_date. rewrite (parse_date_try_equals _ r Hbad Hr). reflexivity.
Qed.

End WithParser.

Lemma iso_day_rejects_equals x : iso_day (String "=" x) = None.
Proof.
  unfold iso_day. destruct (negb _); [reflexivity|].
  destruct (negb _); [reflexivity|].
  destruct x as [|c1 [|c2 [|c3 x]]]; reflexivity.
Qed.


Lemma one_more_token_only_hides_witness :
  incl [mk_item "shots/a.png" 1]
       [mk_item "shots/a.png" 1; mk_item "b.png" 2].
Proof.
  apply (one_more_token_only_hides iso_day bare_index
           [mk_item "shots/a.png" 1; mk_item "b.png" 2] ["png"] "SHOTS").
  - reflexivity.
  - reflexivity.
  - reflexivity.
Defined.

Lemma last_date_token_wins_witness :
  search_tokens iso_day bare_index [mk_item "shots/a.png" 1]
    ["date:2025-06-01"; "png"; "date:2025-06-02"]
  = search_tokens iso_day bare_index [mk_item "shots/a.png" 1]
      ["png"; "date:2025-06-02"].
Proof.
  apply (last_date_token_wins iso_day bare_index [mk_item "shots/a.png" 1]
           ["date:2025-06-01"; "png"] "date:2025-06-02" []).
  reflexivity.
Defined.

Lemma date_without_colon_sets_no_range_witness :
  add_token iso_day (build_filters iso_day ["date:2025-06-01"]) "date>=2025-06-01"
  = no_filters.
Proof.
  apply (date_without_colon_sets_no_range iso_day
           (build_filters iso_day ["date:2025-06-01"]) "date>=2025-06-01").
  - exact iso_day_rejects_equals.
  - reflexivity.
Defined.

End QueryMore.

(* ================================================================== *)
(** ** Rescan: how many files are linked, and rescanning again        *)
(* ================================================================== *)

Module RescanMore.
Import Rescan RescanFacts.

#[local] Arguments Lib.next_rowid : simpl never.

Lemma csv_candidates_follow_rules_witness :
  csv_candidates series_dir "img2" 5 = spec_candidates series_dir "img2" 5.
Proof.
  apply (csv_candidates_follow_rules series_dir "img2" 5). reflexivity.
Defined.

(** *** Plain stems: at most one file, and a CSV of the directory *)

Lemma glob_rules dir st :
  plain st = true ->
  glob dir (st ++ ".csv") = spec_exact dir st /\
  glob dir "*.csv" = spec_all_csv dir /\
  glob dir (st ++ "_*.csv") = spec_prefixed dir st.
Proof.
  intros Hp. split; [|split]; unfold glob, spec_exact, spec_all_csv, spec_prefixed;
    apply filter_ext; intros e.
  - apply fnmatch_plain. rewrite plain_app, Hp. reflexivity.
  - apply fnmatch_any_csv.
  - apply fnmatch_prefixed. exact Hp.
Qed.

Lemma In_insert_le {A} (le : A -> A -> bool) x y l :
  In x (Order.insert_le le y l) -> x = y \/ In x l.
Proof.
  induction l as [|z l IH]; cbn.
  - intros [<-|[]]. left; reflexivity.
  - destruct (le y z); cbn.
    + intros [<-|H]; [left; reflexivity | right; exact H].
    + intros [<-|H]; [right; left; reflexivity|].
      destruct (IH H) as [->|H']; [left; reflexivity | right; right; exact H'].
Qed.

Lemma In_stable_sort {A} (le : A -> A -> bool) x l :
  In x (Order.stable_sort le l) -> In x l.
Proof.
  induction l as [|y l IH]; cbn; [tauto|].
  intros H. apply In_insert_le in H. destruct H as [->|H]; [left; reflexivity|].
  right. apply IH. exact H.
Qed.

Lemma ends_with_self suf : ends_with suf suf = true.
Proof. destruct suf; cbn; [reflexivity|]. rewrite Ascii.eqb_refl, String.eqb_refl. reflexivity. Qed.

Lemma ends_with_app suf s : ends_with suf (s ++ suf) = true.
Proof.
  induction s as [|c s IH]; [apply ends_with_self|].
  cbn [append ends_with]. rewrite IH. apply orb_true_r.
Qed.

Lemma ends_with_drop suf n : forall s,
  ends_with suf (Str.drop n s) = true -> ends_with suf s = true.
Proof.
  induction n as [|n IH]; intros s H; [exact H|].
  destruct s as [|c s]; [exact H|]. cbn [Str.drop] in H.
  cbn [ends_with]. rewrite (IH s H). apply orb_true_r.
Qed.

Lemma closest_is_one {A} (l sorted : list A) :
  (List.length (match sorted with first :: _ => [first] | [] => [] end) <= 1)%nat.
Proof. destruct sorted; cbn; lia. Qed.



(** *** Rescanning the same image again *)

Section WithFiles.

Variable sha256_of : string -> option string.
Variable isoformat : Z -> string.

Lemma set_images_same st : Lib.set_images st (Lib.images st) = st.
Proof. destruct st; reflexivity. Qed.

(** The store and id [upsert_image] gives, and three things true of them. *)
Lemma upsert_image_settles rel sha ts st :
  exists s1 id,
    Lib.upsert_image rel sha ts st = (s1, inr id) /\
    Lib.has_image s1 id = true /\
    (forall s', Lib.images s' = Lib.images s1 ->
                Lib.upsert_image rel sha ts s' = (s', inr id)).
Proof.
  unfold Lib.upsert_image, Lib.bind, Lib.get, Lib.ret.
  destruct (Lib.find_image_by_sha st sha) as [r0|] eqn:E.
  - unfold Lib.update_image_path.
    set (f := fun r => if (Lib.i_id r =? Lib.i_id r0)%Z
                       then Lib.mk_image (Lib.i_id r) rel (Lib.i_sha256 r)
                              (Lib.i_created_at r)
                       else r).
    exists (Lib.set_images st (map f (Lib.images st))), (Lib.i_id r0).
    split; [reflexivity|].
    assert (Hid : forall a, Lib.i_id (f a) = Lib.i_id a)
      by (intros a; unfold f; destruct (Lib.i_id a =? Lib.i_id r0)%Z; reflexivity).
    assert (Hff : forall a, f (f a) = f a).
    { intros a. unfold f at 1. rewrite Hid. unfold f.
      destruct (Lib.i_id a =? Lib.i_id r0)%Z; reflexivity. }
    split.
    + unfold Lib.has_image. cbn [Lib.images Lib.set_images].
      rewrite StoreInvariants.existsb_map_same
        by (intros a; rewrite Hid; reflexivity).
      unfold Lib.find_image_by_sha in E. apply find_some in E. destruct E as [Hin _].
      apply existsb_exists. exists r0. split; [exact Hin | apply Z.eqb_refl].
    + intros s' Hs'. unfold Lib.find_image_by_sha in *. rewrite Hs'.
      cbn [Lib.images Lib.set_images].
      rewrite StoreOps.find_map_same, E
        by (intros a; unfold f; destruct (Lib.i_id a =? Lib.i_id r0)%Z; reflexivity).
      cbn [option_map]. rewrite Hid. fold f.
      assert (Hfix : map f (Lib.images s') = Lib.images s').
      { rewrite Hs'. cbn [Lib.images Lib.set_images]. rewrite map_map.
        apply map_ext. exact Hff. }
      rewrite Hfix, set_images_same. reflexivity.
  - unfold Lib.insert_image. unfold Lib.find_image_by_sha in E.
    rewrite (LibFacts.find_none_existsb _ _ E).
    set (id := Lib.next_rowid (map Lib.i_id (Lib.images st))).
    exists (Lib.set_images st (Lib.images st ++ [Lib.mk_image id rel sha ts])), id.
    split; [reflexivity|]. split.
    + unfold Lib.has_image. cbn [Lib.images Lib.set_images].
      rewrite existsb_app. cbn. rewrite Z.eqb_refl. apply orb_true_r.
    + intros s' Hs'.
      assert (Hfind : Lib.find_image_by_sha s' sha = Some (Lib.mk_image id rel sha ts)).
      { unfold Lib.find_image_by_sha. rewrite Hs'. cbn [Lib.images Lib.set_images].
        rewrite (LibFacts.find_app_none _ _ _ E). cbn [find Lib.i_sha256].
        rewrite String.eqb_refl. reflexivity. }
      rewrite Hfind. unfold Lib.update_image_path. cbn [Lib.i_id].
      assert (Hfix : map (fun r => if (Lib.i_id r =? id)%Z
                                   then Lib.mk_image (Lib.i_id r) rel (Lib.i_sha256 r)
                                          (Lib.i_created_at r)
                                   else r) (Lib.images s') = Lib.images s').
      { rewrite Hs'. cbn [Lib.images Lib.set_images]. rewrite map_app.
        cbn [map Lib.i_id Lib.i_sha256 Lib.i_created_at]. rewrite Z.eqb_refl. f_equal.
        apply StoreInvariants.map_unchanged. intros a Ha.
        destruct (Z.eqb_spec (Lib.i_id a) id) as [Heq|]; [|reflexivity].
        exfalso. apply (StoreInvariants.next_rowid_fresh (map Lib.i_id (Lib.images st))).
        fold id. rewrite <- Heq. apply in_map. exact Ha. }
      rewrite Hfix, set_images_same. reflexivity.
Qed.

Lemma link_step_effect dir_rel id cand st :
  Lib.has_image st id = true ->
  exists s',
    link_candidates sha256_of isoformat dir_rel id [cand] st = s' /\
    Lib.images s' = Lib.images st /\
    Statements.extends (Lib.attachments st) (Lib.attachments s') /\
    (forall h, sha256_of (e_name cand) = Some h ->
               Lib.find_attachment_by_sha s' h <> None).
Proof.
  intros Hi. eexists. split; [reflexivity|]. cbn [link_candidates fold_left].
  destruct (sha256_of (e_name cand)) as [h|].
  - rewrite StoreOps.upsert_attachment_cases.
    destruct (Lib.find_attachment_by_sha st h) as [r|] eqn:E.
    + cbn [fst]. split; [reflexivity|]. split; [apply StoreInvariants.extends_refl|].
      intros h' Hh. inversion Hh; subst h'. congruence.
    + rewrite Hi. cbn [fst Lib.images Lib.attachments Lib.set_attachments].
      split; [reflexivity|]. split; [apply StoreInvariants.extends_snoc|].
      intros h' Hh. inversion Hh; subst h'. unfold Lib.find_attachment_by_sha in *.
      cbn [Lib.attachments Lib.set_attachments].
      rewrite (LibFacts.find_app_none _ _ _ E). cbn. rewrite String.eqb_refl. discriminate.
  - split; [reflexivity|]. split; [apply StoreInvariants.extends_refl|].
    intros h Hh. discriminate.
Qed.

Lemma find_attachment_extends st s' h :
  Statements.extends (Lib.attachments st) (Lib.attachments s') ->
  Lib.find_attachment_by_sha st h <> None -> Lib.find_attachment_by_sha s' h <> None.
Proof.
  intros [e He] H. unfold Lib.find_attachment_by_sha in *. rewrite He.
  destruct (find _ (Lib.attachments st)) as [r|] eqn:E; [|congruence].
  rewrite (LibFacts.find_app_some _ _ _ _ E). discriminate.
Qed.

Lemma link_candidates_cons dir_rel id cand cands st :
  link_candidates sha256_of isoformat dir_rel id (cand :: cands) st =
  link_candidates sha256_of isoformat dir_rel id cands
    (link_candidates sha256_of isoformat dir_rel id [cand] st).
Proof. reflexivity. Qed.

Lemma link_candidates_effect dir_rel id cands : forall st,
  Lib.has_image st id = true ->
  Lib.images (link_candidates sha256_of isoformat dir_rel id cands st) = Lib.images st /\
  Statements.extends (Lib.attachments st)
    (Lib.attachments (link_candidates sha256_of isoformat dir_rel id cands st)) /\
  (forall cand h, In cand cands -> sha256_of (e_name cand) = Some h ->
     Lib.find_attachment_by_sha
       (link_candidates sha256_of isoformat dir_rel id cands st) h <> None).
Proof.
  induction cands as [|c cands IH]; intros st Hi.
  - cbn. split; [reflexivity|]. split; [apply StoreInvariants.extends_refl|].
    intros cand h [].
  - rewrite link_candidates_cons.
    destruct (link_step_effect dir_rel id c st Hi) as (s1 & -> & Him & Hx & Hc).
    assert (Hi1 : Lib.has_image s1 id = true)
      by (unfold Lib.has_image in *; rewrite Him; exact Hi).
    destruct (IH s1 Hi1) as (Him' & Hx' & Hall).
    split; [congruence|].
    split; [eapply StoreInvariants.extends_trans; eassumption|].
    intros cand h [<-|Hin] Hh; [|eapply Hall; eassumption].
    apply (find_attachment_extends s1); [exact Hx' | apply Hc; exact Hh].
Qed.

Lemma link_candidates_noop dir_rel id cands st :
  (forall cand h, In cand cands -> sha256_of (e_name cand) = Some h ->
     Lib.find_attachment_by_sha st h <> None) ->
  link_candidates sha256_of isoformat dir_rel id cands st = st.
Proof.
  induction cands as [|c cands IH]; intros Hall; [reflexivity|].
  rewrite link_candidates_cons.
  assert (Hstep : link_candidates sha256_of isoformat dir_rel id [c] st = st).
  { cbn [link_candidates fold_left].
    destruct (sha256_of (e_name c)) as [h|] eqn:Eh; [|reflexivity].
    rewrite StoreOps.upsert_attachment_cases.
    pose proof (Hall c h (or_introl eq_refl) Eh) as Hf.
    destruct (Lib.find_attachment_by_sha st h); [reflexivity | congruence]. }
  rewrite Hstep. apply IH. intros cand h Hin. apply Hall. right. exact Hin.
Qed.

(** X21.  Rescanning is idempotent per image: running the rescan step of
    an image a second time, the directory and the files unchanged, leaves
    the store exactly as the first run left it, with no new image or
    attachment row and no field changed. *)
Theorem rescan_image_again_changes_nothing dir_rel dir img st :
  rescan_image sha256_of isoformat dir_rel dir img
    (rescan_image sha256_of isoformat dir_rel dir img st)
  = rescan_image sha256_of isoformat dir_rel dir img st.
Proof.
  unfold rescan_image. destruct (sha256_of (e_name img)) as [sha|]; [|reflexivity].
  destruct (upsert_image_settles (dir_rel ++ e_name img) sha
              (Some (isoformat (e_mtime img))) st) as (s1 & id & Hup & Hhas & Hagain).
  rewrite Hup.
  destruct (link_candidates_effect dir_rel id
              (csv_candidates dir (stem (e_name img)) (e_mtime img)) s1 Hhas)
    as (Him & _ & Hall).
  rewrite (Hagain _ Him). apply link_candidates_noop. exact Hall.
Qed.

End WithFiles.

End RescanMore.

(* ================================================================== *)
(** ** The archive: what an import keeps, what an export holds        *)
(* ================================================================== *)

Module ArchiveMore.
Import Lib Statements Archive.

#[local] Arguments Lib.next_rowid : simpl never.

(** *** The import is a run of statements *)

Lemma ensure_user_statements u d s : statements s (fst (ensure_user u d s)).
Proof.
  pose proof (StoreInvariants.exec_statements s (EnsureUser u d)) as H.
  rewrite StoreInvariants.exec_fst in H. exact H.
Qed.

Lemma upsert_image_statements p h t s : statements s (fst (upsert_image p h t s)).
Proof.
  pose proof (StoreInvariants.exec_statements s (UpsertImage p h t)) as H.
  rewrite StoreInvariants.exec_fst in H. exact H.
Qed.

Lemma upsert_attachment_statements i k p h t s :
  statements s (fst (upsert_attachment i k p h t s)).
Proof.
  pose proof (StoreInvariants.exec_statements s (UpsertAttachment i k p h t)) as H.
  rewrite StoreInvariants.exec_fst in H. exact H.
Qed.

Lemma upsert_quality_statements now i u l sc w s :
  statements s (fst (upsert_quality now i u l sc w s)).
Proof.
  pose proof (StoreInvariants.exec_statements s (UpsertQuality now i u l sc w)) as H.
  rewrite StoreInvariants.exec_fst in H. exact H.
Qed.

Lemma bind_statements {A B} (m : M A) (k : A -> M B) :
  (forall s, statements s (fst (m s))) ->
  (forall a s, statements s (fst (k a s))) ->
  forall s, statements s (fst (bind m k s)).
Proof.
  intros Hm Hk s. unfold bind. specialize (Hm s).
  destruct (m s) as [s1 [e|a]]; cbn [fst] in *; [exact Hm|].
  eapply StoreInvariants.statements_trans; [exact Hm | apply Hk].
Qed.

Lemma ret_statements {A} (a : A) s : statements s (fst (ret a s)).
Proof. apply sts_done. Qed.

Lemma for_each_statements {A} (f : A -> M unit) l :
  (forall a s, statements s (fst (f a s))) ->
  forall s, statements s (fst (for_each f l s)).
Proof.
  intros Hf. induction l as [|x l IH]; intros s; cbn [for_each].
  - apply ret_statements.
  - apply bind_statements; [apply Hf | intros _; exact IH].
Qed.

Lemma import_records_statements now members img_id im s :
  statements s (fst (import_records now members img_id im s)).
Proof.
  unfold import_records.
  apply bind_statements; [|intros _; apply bind_statements; [|intros _]].
  - apply for_each_statements. intros att s0. unfold import_attachment, bind, get.
    destruct (find_attachment_by_sha s0 (ma_sha256 att)); [apply sts_done|].
    destruct (mem _ members); [|apply sts_done].
    pose proof (upsert_attachment_statements img_id (ma_kind att)
                  ("attachments_imported/" ++ ma_sha256 att ++ ma_ext att)
                  (ma_sha256 att) None s0) as H.
    destruct (upsert_attachment _ _ _ _ _ s0) as [s1 [e|v]]; exact H.
  - apply for_each_statements. intros an s0. unfold import_annotation.
    apply bind_statements; [intros ?; apply ensure_user_statements|].
    intros uid s1. apply StoreInvariants.add_tag_statements.
  - apply for_each_statements. intros q s0. unfold import_quality.
    apply bind_statements; [intros ?; apply ensure_user_statements|].
    intros uid s1. apply upsert_quality_statements.
Qed.

Lemma import_archive_statements now a s :
  statements s (fst (import_archive now a s)).
Proof.
  unfold import_archive.
  apply bind_statements; [|intros _; apply bind_statements; [|intros _]].
  - apply for_each_statements. intros u s0.
    apply bind_statements; [intros ?; apply ensure_user_statements|].
    intros ? ?; apply ret_statements.
  - apply for_each_statements. intros t s0.
    apply bind_statements; [intros ?; apply StoreInvariants.upsert_tag_statements|].
    intros ? ?; apply ret_statements.
  - apply for_each_statements. intros im s0. unfold import_image, bind at 1, get.
    destruct (find_image_by_sha s0 (mi_sha256 im)) as [r|];
      [apply import_records_statements|].
    destruct (mem _ (ar_members a)); [|apply sts_done].
    apply bind_statements; [intros ?; apply upsert_image_statements|].
    intros img_id s1. apply import_records_statements.
Qed.

Lemma statements_invariant (P : store -> Prop) :
  (forall s s', statement s s' -> P s -> P s') ->
  forall s s', statements s s' -> P s -> P s'.
Proof.
  intros Hstep s s' H. induction H as [|s0 s1 s2 H _ IH]; intros HP; [exact HP|].
  apply IH. exact (Hstep _ _ H HP).
Qed.

Lemma statements_kept s s' : statements s s' -> kept s s'.
Proof.
  induction 1 as [|s0 s1 s2 H _ IH]; [apply StoreInvariants.kept_refl|].
  eapply StoreInvariants.kept_trans; [apply StoreInvariants.kept_statement; exact H | exact IH].
Qed.

Lemma refs_ok_exec_all cs : refs_ok (exec_all empty cs).
Proof.
  apply (StoreInvariants.reachable_invariant refs_ok).
  - split; [|split]; intros ? H; destruct H.
  - exact StoreInvariants.refs_ok_statement.
  - apply LibFacts.reachable_exec_all. constructor.
Qed.

Lemma keys_ok_exec_all cs : keys_ok (exec_all empty cs).
Proof.
  apply (StoreInvariants.reachable_invariant keys_ok).
  - constructor; constructor.
  - exact StoreInvariants.keys_ok_statement.
  - apply LibFacts.reachable_exec_all. constructor.
Qed.

Lemma refs_ok_library : refs_ok Scenario.library.
Proof. apply refs_ok_exec_all. Qed.

Lemma keys_ok_library : keys_ok Scenario.library.
Proof. apply keys_ok_exec_all. Qed.

Lemma refs_ok_empty : refs_ok empty.
Proof. split; [|split]; intros ? H; destruct H. Qed.

Lemma keys_ok_empty : keys_ok empty.
Proof. constructor; constructor. Qed.

(** X22.  An import never damages the database, whether it runs to the end
    or stops at the first exception: started on a store whose keys are
    unique and whose references resolve, it leaves such a store, and it
    deletes no user, tag, image, annotation or attachment row. *)
Theorem import_archive_keeps_integrity now a s :
  refs_ok s -> keys_ok s ->
  refs_ok (fst (import_archive now a s)) /\
  keys_ok (fst (import_archive now a s)) /\
  kept s (fst (import_archive now a s)).
Proof.
  intros Hr Hk. pose proof (import_archive_statements now a s) as H.
  split; [|split].
  - exact (statements_invariant refs_ok StoreInvariants.refs_ok_statement _ _ H Hr).
  - exact (statements_invariant keys_ok StoreInvariants.keys_ok_statement _ _ H Hk).
  - apply statements_kept. exact H.
Qed.

Lemma import_archive_keeps_integrity_witness :
  snd (import_archive "2025-06-11T00:00:00" Scenario.exported empty)
    = inl CapacityExceeded /\
  refs_ok (fst (import_archive "2025-06-11T00:00:00" Scenario.exported empty)) /\
  keys_ok (fst (import_archive "2025-06-11T00:00:00" Scenario.exported empty)) /\
  kept empty (fst (import_archive "2025-06-11T00:00:00" Scenario.exported empty)).
Proof.
  split; [vm_compute; reflexivity|].
  apply (import_archive_keeps_integrity "2025-06-11T00:00:00" Scenario.exported
           empty refs_ok_empty keys_ok_empty).
Defined.

(** *** The member names of an export *)

Lemma basename_from_app x : forall acc y,
  basename_from acc (x ++ y) = basename_from (basename_from acc x) y.
Proof.
  induction x as [|c r IH]; intros acc y; cbn; [reflexivity|].
  destruct (Ascii.eqb c "/"); apply IH.
Qed.

Lemma basename_from_fixed p : forall cur,
  basename_from "" cur = cur ->
  basename_from "" (basename_from cur p) = basename_from cur p.
Proof.
  induction p as [|c r IH]; intros cur Hc; cbn; [exact Hc|].
  destruct (Ascii.eqb c "/") eqn:E; apply IH; [reflexivity|].
  rewrite basename_from_app, Hc. cbn. rewrite E. reflexivity.
Qed.

(** [Path(Path(p).name).suffix] is [Path(p).suffix]. *)
Lemma _safe_ext_basename p : _safe_ext (basename p) = _safe_ext p.
Proof.
  unfold _safe_ext, basename. rewrite basename_from_fixed; reflexivity.
Qed.

Lemma mem_In x l : mem x l = true <-> In x l.
Proof.
  unfold mem. rewrite existsb_exists. split.
  - intros (y & Hy & E). apply String.eqb_eq in E. subst y. exact Hy.
  - intros H. exists x. split; [exact H | apply String.eqb_refl].
Qed.

Lemma add_seen_In x y seen : In y (add_seen x seen) <-> In y seen \/ y = x.
Proof.
  unfold add_seen. destruct (mem x seen) eqn:E.
  - apply mem_In in E. split; [tauto|]. intros [H| ->]; assumption.
  - rewrite in_app_iff. cbn. split; intros [H|H]; auto.
    destruct H as [<-|[]]. right; reflexivity.
Qed.

Lemma seen_fold {A} (key : A -> string) rows : forall init y,
  In y (fold_left (fun seen r => add_seen (key r) seen) rows init) <->
  In y init \/ In y (map key rows).
Proof.
  induction rows as [|r rows IH]; intros init y; cbn; [tauto|].
  rewrite IH, add_seen_In. split; intros H.
  - destruct H as [[H|H]|H]; auto.
  - destruct H as [H|[H|H]]; auto.
Qed.

Lemma seen_fold_nested {A B} (key : B -> string) (inner : A -> list B) rows :
  forall init y,
  In y (fold_left
          (fun seen r => fold_left (fun seen x => add_seen (key x) seen) (inner r) seen)
          rows init) <->
  In y init \/ exists r, In r rows /\ In y (map key (inner r)).
Proof.
  induction rows as [|r rows IH]; intros init y; cbn.
  - split; [tauto|]. intros [H|(r & [] & _)]. exact H.
  - rewrite IH, seen_fold. split; intros H.
    + destruct H as [[H|H]|(r' & Hr & H)]; [left; exact H | right | right].
      * exists r. split; [left; reflexivity | exact H].
      * exists r'. split; [right; exact Hr | exact H].
    + destruct H as [H|(r' & [<-|Hr] & H)]; [left; left; exact H | left; right; exact H|].
      right. exists r'. split; assumption.
Qed.

Lemma selected_rows_In s sel r : In r (selected_rows s sel) -> In r (images s).
Proof.
  unfold selected_rows. rewrite in_flat_map. intros (id & _ & H).
  destruct (find _ (images s)) as [r'|] eqn:E; [|destruct H].
  destruct H as [<-|[]]. apply find_some in E. apply E.
Qed.

Lemma find_image_own s r :
  NoDup (map i_sha256 (images s)) -> In r (images s) ->
  find_image_by_sha s (i_sha256 r) = Some r.
Proof.
  intros Hnd Hin. unfold find_image_by_sha.
  apply (LibFacts.unique_key_filter i_sha256 _ (i_sha256 r) (images s)); auto.
  - intros a. apply String.eqb_eq.
  - apply String.eqb_refl.
Qed.

Lemma find_attachment_own s x :
  NoDup (map x_sha256 (attachments s)) -> In x (attachments s) ->
  find_attachment_by_sha s (x_sha256 x) = Some x.
Proof.
  intros Hnd Hin. unfold find_attachment_by_sha.
  apply (LibFacts.unique_key_filter x_sha256 _ (x_sha256 x) (attachments s)); auto.
  - intros a. apply String.eqb_eq.
  - apply String.eqb_refl.
Qed.

(** X23.  The export and the import agree on member names.  For an image
    of the manifest whose file is on disk, the archive (images included)
    holds the member the import looks for, [images/<sha><ext of rel_path>];
    for an attachment entry whose file is on disk it holds
    [attachments/<sha><ext>], [ext] being the manifest's. *)
Theorem exported_members_are_found sel user on_disk ii ia now s :
  keys_ok s ->
  (forall im,
     In im (m_images (ar_manifest (export_selection sel user on_disk ii ia now s))) ->
     ii = true -> on_disk (mi_rel_path im) = true ->
     mem ("images/" ++ mi_sha256 im ++ _safe_ext (mi_rel_path im))
       (ar_members (export_selection sel user on_disk ii ia now s)) = true) /\
  (forall im att x,
     In im (m_images (ar_manifest (export_selection sel user on_disk ii ia now s))) ->
     In att (mi_attachments im) ->
     find_attachment_by_sha s (ma_sha256 att) = Some x ->
     on_disk (x_rel_path x) = true ->
     mem ("attachments/" ++ ma_sha256 att ++ ma_ext att)
       (ar_members (export_selection sel user on_disk ii ia now s)) = true).
Proof.
  intros Hk. unfold export_selection. cbn [ar_manifest ar_members m_images]. split.
  - intros im Him -> Hd. apply in_map_iff in Him. destruct Him as (r & <- & Hr).
    cbn [export_row mi_sha256 mi_rel_path] in *.
    apply mem_In, in_or_app. left. apply in_flat_map. exists (i_sha256 r). split.
    + apply seen_fold. right. apply in_map. exact Hr.
    + unfold image_member.
      rewrite (find_image_own s r (image_digests s Hk) (selected_rows_In _ _ _ Hr)).
      rewrite Hd, _safe_ext_basename. left. reflexivity.
  - intros im att x Him Hatt Hf Hd. apply in_map_iff in Him.
    destruct Him as (r & <- & Hr). cbn [export_row mi_attachments] in Hatt.
    destruct ia; [|destruct Hatt].
    apply in_map_iff in Hatt. destruct Hatt as (x0 & <- & Hx0).
    cbn [ma_sha256 ma_ext] in *.
    assert (Hin : In x0 (attachments s))
      by (unfold attachments_of in Hx0; apply filter_In in Hx0; apply Hx0).
    rewrite (find_attachment_own s x0 (attachment_digests s Hk) Hin) in Hf.
    inversion Hf; subst x.
    apply mem_In, in_or_app. right. apply in_flat_map. exists (x_sha256 x0). split.
    + apply seen_fold_nested. right. exists r. split; [exact Hr|].
      apply in_map. exact Hx0.
    + unfold attachment_member.
      rewrite (find_attachment_own s x0 (attachment_digests s Hk) Hin).
      rewrite Hd, _safe_ext_basename. left. reflexivity.
Qed.

Lemma exported_members_are_found_witness :
  mem "images/sha-a.png" (ar_members Scenario.exported) = true /\
  mem "attachments/sha-csv.csv" (ar_members Scenario.exported) = true.
Proof.
  destruct (exported_members_are_found [1] "u1" (fun _ => true) true true
              "2025-06-10T00:00:00" Scenario.library keys_ok_library) as [Hi Ha].
  split.
  - apply (Hi (export_row true Scenario.library
                 (mk_image 1 "shots/a.png" "sha-a" (Some "2025-06-01T10:00:00"))));
      [vm_compute; left; reflexivity | reflexivity | reflexivity].
  - apply (Ha (export_row true Scenario.library
                 (mk_image 1 "shots/a.png" "sha-a" (Some "2025-06-01T10:00:00")))
              (mk_m_attachment "csv" "sha-csv" ".csv")
              (mk_attachment 1 1 "csv" "shots/a.csv" "sha-csv" None));
      [vm_compute; left; reflexivity | vm_compute; left; reflexivity
      | reflexivity | reflexivity].
Defined.

(** *** What the manifest lists *)

Lemma insert_le_perm {A} (le : A -> A -> bool) x l :
  Permutation (Order.insert_le le x l) (x :: l).
Proof.
  induction l as [|y l IH]; cbn; [apply Permutation_refl|].
  destruct (le x y); [apply Permutation_refl|].
  eapply Permutation_trans; [apply perm_skip; exact IH | apply perm_swap].
Qed.

Lemma stable_sort_perm {A} (le : A -> A -> bool) l :
  Permutation (Order.stable_sort le l) l.
Proof.
  induction l as [|x l IH]; cbn; [apply Permutation_refl|].
  eapply Permutation_trans; [apply insert_le_perm | apply perm_skip; exact IH].
Qed.

Lemma existsb_find {A} (f : A -> bool) l :
  existsb f l = true -> exists x, find f l = Some x.
Proof.
  induction l as [|y l IH]; cbn; [discriminate|].
  destruct (f y); [eexists; reflexivity | exact IH].
Qed.

Lemma flat_map_filter_length {A B} (p : A -> bool) (f : A -> list B) l :
  (forall a, In a l -> List.length (f a) = if p a then 1%nat else 0%nat) ->
  List.length (flat_map f l) = List.length (filter p l).
Proof.
  induction l as [|x l IH]; intros H; cbn; [reflexivity|].
  rewrite length_app, (H x (or_introl eq_refl)), IH by (intros a Ha; apply H; right; exact Ha).
  destruct (p x); reflexivity.
Qed.

(** X24.  With the references of the store intact, the manifest entry of
    an image has exactly one annotation entry for each active annotation on
    it (a soft-deleted one is not exported) and exactly one quality entry
    for each vote on it: the joins with [tags] and [users] drop nothing. *)
Theorem export_row_lists_active ia s r :
  refs_ok s ->
  List.length (mi_annotations (export_row ia s r))
    = List.length (filter (is_active_on (i_id r)) (annotations s)) /\
  List.length (mi_quality (export_row ia s r))
    = List.length (filter (fun q => (q_image_id q =? i_id r)%Z) (quality_votes s)).
Proof.
  intros (Ha & Hq & _). cbn [export_row mi_annotations mi_quality].
  rewrite !length_map. split.
  - unfold get_tags_for_image.
    rewrite (Permutation_length (stable_sort_perm _ _)).
    apply flat_map_filter_length. intros a Hin.
    destruct (is_active_on (i_id r) a); [|reflexivity].
    destruct (Ha a Hin) as (_ & Ht & Hu).
    destruct (existsb_find _ _ Ht) as (t & ->).
    destruct (existsb_find _ _ Hu) as (u & ->). reflexivity.
  - unfold quality_rows. apply flat_map_filter_length. intros q Hin.
    destruct (q_image_id q =? i_id r)%Z; [|reflexivity].
    destruct (Hq q Hin) as (_ & Hu).
    destruct (existsb_find _ _ Hu) as (u & ->). reflexivity.
Qed.

Lemma export_row_lists_active_witness :
  List.length (mi_annotations
                 (export_row true Scenario.library
                    (mk_image 1 "shots/a.png" "sha-a" (Some "2025-06-01T10:00:00"))))
    = 6%nat /\
  List.length (mi_quality
                 (export_row true Scenario.library
                    (mk_image 1 "shots/a.png" "sha-a" (Some "2025-06-01T10:00:00"))))
    = 1%nat.
Proof.
  exact (export_row_lists_active true Scenario.library
           (mk_image 1 "shots/a.png" "sha-a" (Some "2025-06-01T10:00:00"))
           refs_ok_library).
Defined.

(** *** Adding, listing, removing *)

(** What an entry of [get_tags_for_image] is. *)
Lemma get_tags_entry s i t a usr :
  In (t, a, usr) (get_tags_for_image s i) <->
  In a (annotations s) /\ is_active_on i a = true /\
  find (fun t => (t_id t =? a_tag_id a)%Z) (tags s) = Some t /\
  find (fun u => (u_id u =? a_user_id a)%Z) (users s) = Some usr.
Proof.
  unfold get_tags_for_image. split.
  - intros H. apply (Permutation_in _ (stable_sort_perm _ _)) in H.
    apply in_flat_map in H. destruct H as (a' & Hin & H).
    destruct (is_active_on i a') eqn:Ea; [|destruct H].
    destruct (find _ (tags s)) as [t'|] eqn:Et; [|destruct H].
    destruct (find _ (users s)) as [u'|] eqn:Eu; [|destruct H].
    destruct H as [[= <- <- <-]|[]]. auto.
  - intros (Hin & Ea & Et & Eu).
    apply (Permutation_in _ (Permutation_sym (stable_sort_perm _ _))).
    apply in_flat_map. exists a. split; [exact Hin|].
    rewrite Ea, Et, Eu. left. reflexivity.
Qed.

(** X25.  A tag a user has just added to an image is listed for it by
    [get_tags_for_image], with that user; and once the user removes it,
    the image's list has no entry of that tag by that user any more. *)
Theorem added_tag_is_listed_until_removed now i n u c s s1 :
  keys_ok s -> refs_ok s ->
  add_tag_for_user now i n u c s = (s1, inr tt) ->
  (exists t a usr,
     In (t, a, usr) (get_tags_for_image s1 i) /\
     t_name t = n /\ t_category t = c /\ u_id usr = u) /\
  (forall now' t a usr,
     In (t, a, usr) (get_tags_for_image (fst (remove_tag_for_user now' i n u c s1)) i) ->
     t_name t = n -> t_category t = c -> u_id usr <> u).
Proof.
  intros Hk Hr Hadd.
  pose proof (StoreInvariants.add_tag_statements now i n u c s) as Hst.
  rewrite Hadd in Hst. cbn [fst] in Hst.
  pose proof (statements_invariant keys_ok StoreInvariants.keys_ok_statement _ _ Hst Hk)
    as Hk1.
  pose proof (statements_invariant refs_ok StoreInvariants.refs_ok_statement _ _ Hst Hr)
    as Hr1.
  destruct (LibFacts.upsert_tag_ok n c None s)
    as (s' & r & Hup & Hfind & _ & _ & Hann & _ & _ & _).
  rewrite (LibFacts.add_tag_unfold _ _ _ _ _ _ _ _ Hup) in Hadd.
  assert (Hu' : annotations_unique s')
    by (unfold annotations_unique; rewrite Hann; apply (annotation_triples s Hk)).
  destruct (LibFacts.after_tag_ok _ _ _ _ _ _ Hu' Hadd) as (Htags & a & Hrows & Hact).
  assert (Hfind1 : find_tag s1 n c = Some r)
    by (unfold find_tag in *; rewrite Htags; exact Hfind).
  pose proof (find_some _ _ Hfind1) as [Hrin Hrkey].
  apply andb_true_iff in Hrkey. destruct Hrkey as [Hrn Hrc].
  apply String.eqb_eq in Hrn, Hrc.
  assert (Hain : In a (rows_of_triple s1 i (t_id r) u)) by (rewrite Hrows; left; reflexivity).
  destruct (LibFacts.rows_of_triple_fields _ _ _ _ _ Hain) as (Hai & Hat & Hau).
  unfold rows_of_triple in Hain. apply filter_In in Hain. destruct Hain as [Hain _].
  split.
  - destruct Hr1 as (Hra & _ & _). destruct (Hra a Hain) as (_ & Ht & Hus).
    destruct (existsb_find _ _ Ht) as (t & Et).
    destruct (existsb_find _ _ Hus) as (usr & Eu).
    exists t, a, usr. split.
    + apply get_tags_entry. unfold is_active_on. rewrite Hai, Hact, !Z.eqb_refl.
      auto.
    + pose proof (find_some _ _ Et) as [Htin Htid]. apply Z.eqb_eq in Htid.
      assert (t = r)
        by (apply (LibFacts.NoDup_map_inj_in t_id (tags s1));
            [apply (tag_ids s1 Hk1) | exact Htin | exact Hrin | congruence]).
      subst t. pose proof (find_some _ _ Eu) as [_ Huid]. apply Z.eqb_eq in Huid.
      split; [exact Hrn|]. split; [exact Hrc | congruence].
  - intros now' t a2 usr Hin Hn Hc Hu.
    unfold remove_tag_for_user, bind, get in Hin. rewrite Hfind1 in Hin.
    apply get_tags_entry in Hin. destruct Hin as (Hin2 & Hact2 & Et & Eu).
    cbn [fst soft_delete_annotation tags users set_annotations] in Et, Eu.
    pose proof (find_some _ _ Et) as [Htin Htid]. apply Z.eqb_eq in Htid.
    pose proof (find_some _ _ Eu) as [_ Huid]. apply Z.eqb_eq in Huid.
    assert (t = r).
    { apply (LibFacts.NoDup_map_inj_in tag_key (tags s1));
        [apply (tag_keys s1 Hk1) | exact Htin | exact Hrin|].
      unfold tag_key. congruence. }
    subst t. unfold is_active_on in Hact2. apply andb_true_iff in Hact2.
    destruct Hact2 as [Hi2 Hd2]. apply Z.eqb_eq in Hi2, Hd2.
    assert (Hrow : In a2 (rows_of_triple (fst (soft_delete_annotation i (t_id r) u now' s1))
                            i (t_id r) u)).
    { unfold rows_of_triple. apply filter_In. split; [exact Hin2|].
      apply LibFacts.is_triple_iff. unfold triple_of. congruence. }
    rewrite LibFacts.rows_of_triple_soft_delete in Hrow.
    apply in_map_iff in Hrow. destruct Hrow as (a0 & Ha0 & Hin0).
    unfold rows_of_triple in Hin0. apply filter_In in Hin0. destruct Hin0 as [_ Htr].
    rewrite Htr in Ha0. subst a2. cbn in Hd2. discriminate.
Qed.

Lemma added_tag_is_listed_until_removed_witness :
  (exists t a usr,
     In (t, a, usr)
       (get_tags_for_image
          (fst (add_tag_for_user "2025-06-12T00:00:00" 1 "z" 6 "" Scenario.seeded)) 1) /\
     t_name t = "z" /\ t_category t = "" /\ u_id usr = 6) /\
  (forall now' t a usr,
     In (t, a, usr)
       (get_tags_for_image
          (fst (remove_tag_for_user now' 1 "z" 6 ""
                  (fst (add_tag_for_user "2025-06-12T00:00:00" 1 "z" 6 ""
                          Scenario.seeded)))) 1) ->
     t_name t = "z" -> t_category t = "" -> u_id usr <> 6).
Proof.
  apply (added_tag_is_listed_until_removed "2025-06-12T00:00:00" 1 "z" 6 ""
           Scenario.seeded _ (keys_ok_exec_all Scenario.seed_calls)
           (refs_ok_exec_all Scenario.seed_calls)).
  vm_compute. reflexivity.
Defined.

End ArchiveMore.

(* ================================================================== *)
(** ** Importing an archive into the library it came from             *)
(* ================================================================== *)

Module Reimport.
Import Lib Statements Archive.

#[local] Arguments Lib.next_rowid : simpl never.

Lemma bind_ok {A B} (m : M A) (k : A -> M B) s s1 a :
  m s = (s1, inr a) -> bind m k s = k a s1.
Proof. intros H. unfold bind. rewrite H. reflexivity. Qed.

Lemma for_each_inv {A} (I : store -> Prop) (f : A -> M unit) l :
  (forall x s0, In x l -> I s0 -> exists s1, f x s0 = (s1, inr tt) /\ I s1) ->
  forall s0, I s0 -> exists s1, for_each f l s0 = (s1, inr tt) /\ I s1.
Proof.
  induction l as [|x l IH]; intros Hf s0 HI; cbn [for_each].
  - exists s0. split; [reflexivity | exact HI].
  - destruct (Hf x s0 (or_introl eq_refl) HI) as (s1 & E1 & HI1).
    destruct (IH (fun y s Hy => Hf y s (or_intror Hy)) s1 HI1) as (s2 & E2 & HI2).
    exists s2. split; [|exact HI2]. rewrite (bind_ok _ _ _ _ _ E1). exact E2.
Qed.

(** With distinct keys, replacing the row of a key by a row of that key
    moves it to the end. *)
Lemma perm_replace {A K} (key : A -> K) (p : A -> bool) (k : K) l x :
  (forall a, p a = true <-> key a = k) ->
  NoDup (map key l) -> In x l -> key x = k ->
  Permutation (filter (fun a => negb (p a)) l ++ [x]) l.
Proof.
  intros Hp. induction l as [|y l IH]; cbn; intros Hnd Hin Hk; [contradiction|].
  apply NoDup_cons_iff in Hnd. destruct Hnd as [Hnot Hnd'].
  destruct Hin as [->|Hin].
  - assert (Hpx : p x = true) by (apply Hp; exact Hk). rewrite Hpx. cbn.
    assert (Hall : filter (fun a => negb (p a)) l = l).
    { apply LibFacts.filter_all. apply Forall_forall. intros a Ha.
      destruct (p a) eqn:E; [|reflexivity]. exfalso. apply Hnot.
      apply Hp in E. rewrite Hk, <- E. apply in_map. exact Ha. }
    rewrite Hall. apply Permutation_sym, Permutation_cons_append.
  - assert (Hpy : p y = false).
    { destruct (p y) eqn:E; [|reflexivity]. exfalso. apply Hnot.
      apply Hp in E. rewrite E, <- Hk. apply in_map. exact Hin. }
    rewrite Hpy. cbn. apply perm_skip. apply IH; assumption.
Qed.

Section Into.

Variable s : store.
Variable us : list user_row.
Hypothesis Hk : keys_ok s.
Hypothesis Hv : votes_ok s.
Hypothesis Hus : extends (users s) us.

Lemma user_step usr d s' :
  users s' = us -> In usr (users s) ->
  ensure_user (u_username usr) d s' = (s', inr (u_id usr)).
Proof.
  intros Hu Hin. unfold ensure_user, bind, get, ret.
  assert (E : find_user s' (u_username usr) = Some usr).
  { unfold find_user. rewrite Hu. destruct Hus as [e ->].
    apply LibFacts.find_app_some.
    apply (LibFacts.unique_key_filter u_username _ (u_username usr) (users s)).
    - intros a. apply String.eqb_eq.
    - apply (user_names s Hk).
    - exact Hin.
    - apply String.eqb_refl. }
  rewrite E. reflexivity.
Qed.

Lemma has_user_step usr s' :
  users s' = us -> In usr (users s) -> has_user s' (u_id usr) = true.
Proof.
  intros Hu Hin. unfold has_user. rewrite Hu. destruct Hus as [e ->].
  rewrite existsb_app. apply orb_true_iff. left. apply existsb_exists.
  exists usr. split; [exact Hin | apply Z.eqb_refl].
Qed.

Lemma tag_step t d s' :
  same_data s us s' -> In t (tags s) ->
  upsert_tag (t_name t) (t_category t) d s' = (s', inr (t_id t)).
Proof.
  intros (_ & _ & Ht & _) Hin. apply LibFacts.upsert_tag_found.
  unfold find_tag. rewrite Ht.
  apply (LibFacts.unique_key_filter tag_key _ (t_name t, t_category t) (tags s)).
  - intros a. unfold tag_key. rewrite andb_true_iff, !String.eqb_eq.
    split; [intros [-> ->]; reflexivity | intros [= -> ->]; auto].
  - apply (tag_keys s Hk).
  - exact Hin.
  - rewrite !String.eqb_refl. reflexivity.
Qed.

Lemma attachment_step members i x ext s' :
  same_data s us s' -> In x (attachments s) ->
  import_attachment members i (mk_m_attachment (x_kind x) (x_sha256 x) ext) s'
  = (s', inr tt).
Proof.
  intros (_ & _ & _ & _ & Hx & _) Hin. unfold import_attachment, bind, get, ret.
  cbn [ma_sha256].
  destruct (find_attachment_by_sha s' (x_sha256 x)) eqn:E; [reflexivity|].
  exfalso. unfold find_attachment_by_sha in E. rewrite Hx in E.
  pose proof (find_none _ _ E x Hin) as H. cbn in H.
  rewrite String.eqb_refl in H. discriminate.
Qed.

Lemma annotation_step now i t a usr s' :
  same_data s us s' -> In (t, a, usr) (get_tags_for_image s i) ->
  import_annotation now i
    (mk_m_annotation (u_username usr) (t_name t) (t_category t) (a_created_at a)) s'
  = (s', inr tt).
Proof.
  intros Hsd Hin. apply ArchiveMore.get_tags_entry in Hin.
  destruct Hin as (Ha & Hact & Et & Eu).
  pose proof (find_some _ _ Et) as [Htin Htid]. apply Z.eqb_eq in Htid.
  pose proof (find_some _ _ Eu) as [Huin Huid]. apply Z.eqb_eq in Huid.
  unfold is_active_on in Hact. apply andb_true_iff in Hact. destruct Hact as [Hi Hd].
  apply Z.eqb_eq in Hi.
  pose proof Hsd as (Hu & _ & _ & Hann & _).
  unfold import_annotation. cbn [mn_username mn_tag mn_category].
  rewrite (bind_ok _ _ _ _ _ (user_step usr None s' Hu Huin)).
  rewrite (LibFacts.add_tag_unfold _ _ _ _ _ _ _ _ (tag_step t None s' Hsd Htin)).
  unfold after_tag.
  assert (E : find_annotation s' i (t_id t) (u_id usr) = Some a).
  { unfold find_annotation. rewrite Hann.
    apply (LibFacts.unique_key_filter triple_of _ (i, t_id t, u_id usr) (annotations s)).
    - apply LibFacts.is_triple_iff.
    - apply (annotation_triples s Hk).
    - exact Ha.
    - apply LibFacts.is_triple_iff. unfold triple_of. congruence. }
  rewrite E, Hd. reflexivity.
Qed.

Lemma voters_of_fields l :
  map voter_of l = map (fun f => (fst (fst (fst (fst f))), snd (fst (fst (fst f)))))
                     (map vote_fields l).
Proof. rewrite map_map. reflexivity. Qed.

Lemma quality_step now i q usr s' :
  same_data s us s' -> has_image s i = true -> In (q, usr) (quality_rows s i) ->
  exists s1,
    import_quality now i
      (mk_m_quality (u_username usr) (q_label q) (q_score q) (q_created_at q)) s'
    = (s1, inr tt) /\ same_data s us s1.
Proof.
  intros Hsd Himg Hin. unfold quality_rows in Hin. apply in_flat_map in Hin.
  destruct Hin as (q' & Hq & Hin).
  destruct (q_image_id q' =? i)%Z eqn:Ei; [|destruct Hin]. apply Z.eqb_eq in Ei.
  destruct (find _ (users s)) as [u'|] eqn:Eu; [|destruct Hin].
  destruct Hin as [[= -> ->]|[]].
  pose proof (find_some _ _ Eu) as [Huin Huid]. apply Z.eqb_eq in Huid.
  destruct (Hv q Hq) as [Hl Hc].
  pose proof Hsd as (Hu & Hi & Ht & Ha & Hx & Hp).
  unfold import_quality. cbn [mq_username mq_label mq_score mq_created_at].
  rewrite (bind_ok _ _ _ _ _ (user_step usr None s' Hu Huin)).
  unfold upsert_quality, insert_or_replace_vote. rewrite Hl. cbn [negb].
  assert (Hhi : has_image s' i = true) by (unfold has_image; rewrite Hi; exact Himg).
  rewrite Hhi, (has_user_step usr s' Hu Huin). cbn [andb negb].
  eexists. split; [reflexivity|].
  unfold same_data. cbn [users images tags annotations attachments quality_votes
                            set_quality_votes].
  do 5 (split; [assumption|]).
  eapply Permutation_trans; [|exact Hp].
  assert (Hnd : NoDup (map voter_of (quality_votes s'))).
  { rewrite voters_of_fields.
    apply (Permutation_NoDup (Permutation_sym (Permutation_map _ Hp))).
    rewrite <- voters_of_fields. apply (vote_voters s Hk). }
  assert (Hex : In (vote_fields q) (map vote_fields (quality_votes s')))
    by (apply (Permutation_in _ (Permutation_sym Hp)); apply in_map; exact Hq).
  apply in_map_iff in Hex. destruct Hex as (q1 & Hf & Hq1).
  assert (Hor : or_now (Some (q_created_at q)) now = q_created_at q).
  { unfold or_now. destruct (q_created_at q =? "") eqn:E; [|reflexivity].
    apply String.eqb_eq in E. contradiction. }
  rewrite Hor, map_app. cbn [map].
  replace (vote_fields (mk_vote _ i (u_id usr) (q_label q) (q_score q) (q_created_at q)))
    with (vote_fields q1)
    by (rewrite Hf; unfold vote_fields; cbn; congruence).
  change (map vote_fields (filter (fun q0 => negb (same_voter i (u_id usr) q0))
                             (quality_votes s')) ++ [vote_fields q1])%list
    with (map vote_fields (filter (fun q0 => negb (same_voter i (u_id usr) q0))
                             (quality_votes s')) ++ map vote_fields [q1])%list.
  rewrite <- map_app. apply Permutation_map.
  apply (perm_replace voter_of (same_voter i (u_id usr)) (i, u_id usr)).
  - apply LibFacts.same_voter_iff.
  - exact Hnd.
  - exact Hq1.
  - unfold vote_fields in Hf. unfold voter_of. congruence.
Qed.

Lemma records_step now members ia r s' :
  same_data s us s' -> In r (images s) ->
  exists s1,
    import_records now members (i_id r) (export_row ia s r) s' = (s1, inr tt) /\
    same_data s us s1.
Proof.
  intros Hsd Hr. unfold import_records. cbn [export_row mi_attachments mi_annotations mi_quality].
  assert (Hhas : has_image s (i_id r) = true).
  { unfold has_image. apply existsb_exists. exists r. split; [exact Hr | apply Z.eqb_refl]. }
  destruct (for_each_inv (same_data s us) (import_attachment members (i_id r))
              (if ia
               then map (fun x => mk_m_attachment (x_kind x) (x_sha256 x)
                                    (_safe_ext (x_rel_path x)))
                      (attachments_of s (i_id r))
               else [])) with (s0 := s') as (s1 & E1 & H1); [|exact Hsd|].
  { intros att s0 Hin H0. exists s0. split; [|exact H0].
    destruct ia; [|destruct Hin]. apply in_map_iff in Hin.
    destruct Hin as (x & <- & Hx). apply attachment_step; [exact H0|].
    unfold attachments_of in Hx. apply filter_In in Hx. apply Hx. }
  rewrite (bind_ok _ _ _ _ _ E1).
  destruct (for_each_inv (same_data s us) (import_annotation now (i_id r))
              (map (fun j => match j with
                             | (t, a, u) =>
                                 mk_m_annotation (u_username u) (t_name t) (t_category t)
                                   (a_created_at a)
                             end)
                 (get_tags_for_image s (i_id r)))) with (s0 := s1) as (s2 & E2 & H2);
    [|exact H1|].
  { intros an s0 Hin H0. exists s0. split; [|exact H0].
    apply in_map_iff in Hin. destruct Hin as ([[t a] usr] & <- & Hj).
    apply annotation_step; assumption. }
  rewrite (bind_ok _ _ _ _ _ E2).
  apply for_each_inv; [|exact H2].
  intros q s0 Hin H0. apply in_map_iff in Hin. destruct Hin as ([q0 usr] & <- & Hj).
  cbn [fst snd]. apply quality_step; assumption.
Qed.

Lemma image_step now members ia r s' :
  same_data s us s' -> In r (images s) ->
  exists s1,
    import_image now members (export_row ia s r) s' = (s1, inr tt) /\
    same_data s us s1.
Proof.
  intros Hsd Hr. unfold import_image, bind at 1, get. cbn [export_row mi_sha256].
  assert (E : find_image_by_sha s' (i_sha256 r) = Some r).
  { destruct Hsd as (_ & Hi & _). unfold find_image_by_sha. rewrite Hi.
    apply (ArchiveMore.find_image_own s r (image_digests s Hk) Hr). }
  rewrite E. apply records_step; assumption.
Qed.

End Into.



End Reimport.

(* ================================================================== *)
(** ** When a search raises                                           *)
(* ================================================================== *)

Module QuerySafety.
Import Query QueryViews.

Section WithParser.

Variable fromisoformat : string -> option datetime.

Lemma before_naive a b :
  naive a = true -> naive b = true -> exists r, before a b = inr r.
Proof.
  unfold naive, before. destruct (dt_offset a), (dt_offset b); try discriminate. eauto.
Qed.

Lemma before_mixed ts a :
  naive ts = true -> naive a = false -> before ts a = inl TypeError.
Proof.
  unfold naive, before. destruct (dt_offset ts), (dt_offset a); try discriminate.
  reflexivity.
Qed.

Lemma date_hides_naive dr ts :
  naive_opt (fst dr) = true -> naive_opt (snd dr) = true -> naive_opt ts = true ->
  exists h, date_hides dr ts = inr h.
Proof.
  destruct dr as [[a|] [b|]], ts as [t|]; cbn; intros Ha Hb Ht; eauto.
  - destruct (before_naive t a Ht Ha) as [r ->].
    destruct (before_naive t b Ht Hb) as [r' ->]. destruct r; eauto.
  - destruct (before_naive t a Ht Ha) as [r ->]. destruct r; eauto.
  - destruct (before_naive t b Ht Hb) as [r' ->]. eauto.
Qed.

Lemma date_hides_mixed dr ts a :
  first_bound dr = Some a -> naive a = false -> naive ts = true ->
  date_hides dr (Some ts) = inl TypeError.
Proof.
  unfold first_bound. destruct dr as [[d1|] [d2|]]; cbn; intros [= ->] Ha Ht;
    rewrite (before_mixed ts a Ht Ha); reflexivity.
Qed.

(** X27.  A search whose date range has no UTC offset never raises on an
    index whose timestamps have none (the index is built with
    [datetime.fromtimestamp], which gives such timestamps): every item is
    either shown or hidden. *)
Theorem naive_dates_never_raise idx items tokens :
  (forall id, naive_opt (map_created_at idx id) = true) ->
  naive_opt (fst (dates (build_filters fromisoformat tokens))) = true ->
  naive_opt (snd (dates (build_filters fromisoformat tokens))) = true ->
  exists vis, search_tokens fromisoformat idx items tokens = inr vis.
Proof.
  intros Hidx H1 H2. unfold search_tokens.
  induction items as [|it items [vis IH]]; cbn [visible_items]; [eauto|].
  rewrite QueryMore.item_hidden_split.
  destruct (hidden_before_date _ idx it).
  - rewrite IH. eauto.
  - destruct (date_hides_naive _ _ H1 H2 (Hidx (it_img_id it))) as [h ->].
    rewrite IH. eauto.
Qed.

(** X28.  A date with a UTC offset makes the search raise: when the bound
    of the query's date range that is compared first carries an offset, and
    some item that the other filters let through has a timestamp without
    one, the comparison raises [TypeError], which [on_search] does not
    catch. *)
Theorem aware_date_raises idx items tokens it ts a :
  In it items ->
  hidden_before_date (build_filters fromisoformat tokens) idx it = false ->
  map_created_at idx (it_img_id it) = Some ts -> naive ts = true ->
  first_bound (dates (build_filters fromisoformat tokens)) = Some a ->
  naive a = false ->
  search_tokens fromisoformat idx items tokens = inl TypeError.
Proof.
  intros Hin Hh Hts Hn Hb Ha. unfold search_tokens.
  induction items as [|x items IH]; [destruct Hin|]. cbn [visible_items].
  destruct Hin as [->|Hin].
  - rewrite QueryMore.item_hidden_split, Hh, Hts.
    rewrite (date_hides_mixed _ ts a Hb Ha Hn). reflexivity.
  - destruct (item_hidden _ idx x) as [[]|h]; [reflexivity|].
    rewrite (IH Hin). reflexivity.
Qed.

End WithParser.

Lemma naive_dates_never_raise_witness :
  exists vis,
    search_tokens iso_day bare_index [mk_item "shots/a.png" 1] ["date:2025-06-01"]
    = inr vis.
Proof.
  apply (naive_dates_never_raise iso_day bare_index [mk_item "shots/a.png" 1]
           ["date:2025-06-01"]).
  - intros id. reflexivity.
  - vm_compute. reflexivity.
  - vm_compute. reflexivity.
Defined.

Lemma aware_date_raises_witness :
  search_tokens (fun _ => Some (mk_dt 63886000000000000 (Some 32400000000)))
    bare_index [mk_item "shots/a.png" 1] ["date:>=2025-06-01T00:00:00+09:00"]
  = inl TypeError.
Proof.
  apply (aware_date_raises (fun _ => Some (mk_dt 63886000000000000 (Some 32400000000)))
           bare_index [mk_item "shots/a.png" 1] ["date:>=2025-06-01T00:00:00+09:00"]
           (mk_item "shots/a.png" 1) (mk_dt 65098512000000000 None)
           (mk_dt 63886000000000000 (Some 32400000000))).
  - left. reflexivity.
  - vm_compute. reflexivity.
  - reflexivity.
  - reflexivity.
  - vm_compute. reflexivity.
  - reflexivity.
Defined.

End QuerySafety.

(* ================================================================== *)
(** ** Importing into a library that has none of the images           *)
(* ================================================================== *)

Module FreshImport.
Import Lib Statements Archive.

#[local] Arguments Lib.next_rowid : simpl never.

Lemma ensure_user_ok name d T :
  exists T' uid,
    ensure_user name d T = (T', inr uid) /\ has_user T' uid = true /\
    images T' = images T /\ tags T' = tags T /\ annotations T' = annotations T.
Proof.
  unfold ensure_user, bind, get, ret, insert_user.
  destruct (find_user T name) as [r|] eqn:E.
  - exists T, (u_id r). split; [reflexivity|]. split; [|auto].
    unfold find_user in E. apply find_some in E. destruct E as [Hin _].
    apply existsb_exists. exists r. split; [exact Hin | apply Z.eqb_refl].
  - unfold find_user in E. rewrite (LibFacts.find_none_existsb _ _ E).
    eexists _, _. split; [reflexivity|]. split; [|auto].
    unfold has_user. cbn [users set_users]. rewrite existsb_app. cbn.
    rewrite Z.eqb_refl. apply orb_true_iff. right. reflexivity.
Qed.

Lemma has_image_same T T' j : images T' = images T -> has_image T' j = has_image T j.
Proof. intros H. unfold has_image. rewrite H. reflexivity. Qed.

Lemma rows_on_same T T' j : annotations T' = annotations T -> rows_on T' j = rows_on T j.
Proof. intros H. unfold rows_on. rewrite H. reflexivity. Qed.

(** The annotators of an image are at most its annotation rows. *)
Lemma count_le_rows T j : (count_annotators T j <= List.length (rows_on T j))%nat.
Proof.
  unfold count_annotators, active_annotators, rows_on.
  eapply Nat.le_trans; [apply NoDup_incl_length; [apply NoDup_nodup|]|].
  - intros x Hx. apply nodup_In in Hx. exact Hx.
  - rewrite length_map. induction (annotations T) as [|a l IH]; cbn; [lia|].
    unfold is_active_on at 1. destruct (a_image_id a =? j)%Z; cbn; [|exact IH].
    destruct (a_is_deleted a =? 0)%Z; cbn; lia.
Qed.

Lemma attachment_ok members j att T :
  has_image T j = true ->
  exists T',
    import_attachment members j att T = (T', inr tt) /\
    images T' = images T /\ annotations T' = annotations T.
Proof.
  intros Hi. unfold import_attachment, bind at 1, get.
  destruct (find_attachment_by_sha T (ma_sha256 att)) eqn:E; [exists T; auto|].
  destruct (mem _ members); [|exists T; auto].
  unfold bind. rewrite StoreOps.upsert_attachment_cases, E, Hi.
  eexists. split; [reflexivity|]. auto.
Qed.

Lemma annotation_ok now j an T :
  has_image T j = true -> (List.length (rows_on T j) < 5)%nat ->
  exists T',
    import_annotation now j an T = (T', inr tt) /\ images T' = images T /\
    (List.length (rows_on T' j) <= S (List.length (rows_on T j)))%nat.
Proof.
  intros Hi Hlen. unfold import_annotation.
  destruct (ensure_user_ok (mn_username an) None T) as (T1 & uid & E1 & Hu & Hi1 & _ & Ha1).
  rewrite (Reimport.bind_ok _ _ _ _ _ E1).
  destruct (LibFacts.upsert_tag_ok (mn_tag an) (mn_category an) None T1)
    as (T2 & r & E2 & Hf & Hu2 & Hi2 & Ha2 & _).
  rewrite (LibFacts.add_tag_unfold _ _ _ _ _ _ _ _ E2). unfold after_tag.
  assert (Hrows : rows_on T2 j = rows_on T j)
    by (apply rows_on_same; congruence).
  destruct (find_annotation T2 j (t_id r) uid) as [row|] eqn:Ef.
  - destruct (negb (a_is_deleted row =? 0)%Z).
    + unfold reactivate_annotation. eexists. split; [reflexivity|].
      cbn [images set_annotations]. split; [congruence|].
      unfold rows_on. cbn [annotations set_annotations].
      rewrite LibFacts.filter_map_same
        by (intros a; destruct (a_id a =? a_id row)%Z; reflexivity).
      rewrite length_map. fold (rows_on T2 j). rewrite Hrows. unfold rows_on. lia.
    + exists T2. split; [reflexivity|]. split; [congruence|]. rewrite Hrows. lia.
  - unfold insert_annotation.
    assert (Htrg : trg_limit_annotators T2 j = false).
    { unfold trg_limit_annotators. apply Nat.leb_gt.
      eapply Nat.le_lt_trans; [apply count_le_rows|]. rewrite Hrows. exact Hlen. }
    rewrite Htrg. unfold find_annotation in Ef.
    rewrite (LibFacts.find_none_existsb _ _ Ef).
    assert (Hfk : has_image T2 j && has_tag T2 (t_id r) && has_user T2 uid = true).
    { rewrite (has_image_same T1 T2 j Hi2), (has_image_same T T1 j Hi1), Hi.
      rewrite (LibFacts.find_tag_has_tag _ _ _ _ Hf).
      unfold has_user in *. rewrite Hu2, Hu. reflexivity. }
    rewrite Hfk. cbn [negb]. eexists. split; [reflexivity|].
    cbn [images set_annotations]. split; [congruence|].
    unfold rows_on. cbn [annotations set_annotations]. rewrite filter_app, length_app.
    fold (rows_on T2 j). rewrite Hrows. cbn. rewrite Z.eqb_refl. cbn.
    unfold rows_on. lia.
Qed.

Lemma annotations_ok now j l : forall T,
  has_image T j = true -> (List.length (rows_on T j) + List.length l <= 5)%nat ->
  exists T',
    for_each (import_annotation now j) l T = (T', inr tt) /\ images T' = images T.
Proof.
  induction l as [|an l IH]; intros T Hi Hlen; cbn [for_each].
  - exists T. auto.
  - cbn [List.length] in Hlen.
    destruct (annotation_ok now j an T Hi) as (T1 & E1 & Hi1 & Hl1); [lia|].
    rewrite (Reimport.bind_ok _ _ _ _ _ E1).
    destruct (IH T1) as (T2 & E2 & Hi2).
    + rewrite (has_image_same T T1 j Hi1). exact Hi.
    + lia.
    + exists T2. split; [exact E2 | congruence].
Qed.

Lemma quality_ok now j q T :
  has_image T j = true -> label_ok (mq_label q) = true ->
  exists T', import_quality now j q T = (T', inr tt) /\ images T' = images T.
Proof.
  intros Hi Hl. unfold import_quality.
  destruct (ensure_user_ok (mq_username q) None T) as (T1 & uid & E1 & Hu & Hi1 & _).
  rewrite (Reimport.bind_ok _ _ _ _ _ E1).
  rewrite LibFacts.upsert_quality_ok;
    [|exact Hl | rewrite (has_image_same T T1 j Hi1); exact Hi | exact Hu].
  eexists. split; [reflexivity|]. exact Hi1.
Qed.

Lemma records_ok now members j im T :
  has_image T j = true ->
  (List.length (rows_on T j) + List.length (mi_annotations im) <= 5)%nat ->
  (forall q, In q (mi_quality im) -> label_ok (mq_label q) = true) ->
  exists T', import_records now members j im T = (T', inr tt) /\ images T' = images T.
Proof.
  intros Hi Hlen Hq. unfold import_records.
  destruct (Reimport.for_each_inv
              (fun T' => images T' = images T /\ annotations T' = annotations T)
              (import_attachment members j) (mi_attachments im))
    with (s0 := T) as (T1 & E1 & Hi1 & Ha1); [|auto|].
  { intros att T0 _ [H0 H0']. destruct (attachment_ok members j att T0) as (T' & E & H & H').
    - rewrite (has_image_same T T0 j H0). exact Hi.
    - exists T'. split; [exact E|]. split; congruence. }
  rewrite (Reimport.bind_ok _ _ _ _ _ E1).
  destruct (annotations_ok now j (mi_annotations im) T1) as (T2 & E2 & Hi2).
  { rewrite (has_image_same T T1 j Hi1). exact Hi. }
  { rewrite (rows_on_same T T1 j Ha1). exact Hlen. }
  rewrite (Reimport.bind_ok _ _ _ _ _ E2).
  destruct (Reimport.for_each_inv (fun T' => images T' = images T)
              (import_quality now j) (mi_quality im))
    with (s0 := T2) as (T3 & E3 & Hi3); [|congruence|].
  { intros q T0 Hin H0. destruct (quality_ok now j q T0) as (T' & E & H).
    - rewrite (has_image_same T T0 j H0). exact Hi.
    - apply Hq. exact Hin.
    - exists T'. split; [exact E | congruence]. }
  exists T3. split; [exact E3 | exact Hi3].
Qed.

(** An image that the library does not have yet has no annotation rows
    once it is inserted. *)
Lemma fresh_image_no_rows T :
  refs_ok T -> rows_on T (next_rowid (map i_id (images T))) = [].
Proof.
  intros (Ha & _). unfold rows_on. apply LibFacts.filter_none.
  destruct (existsb _ (annotations T)) eqn:E; [|reflexivity]. exfalso.
  apply existsb_exists in E. destruct E as (a & Hin & Heq). apply Z.eqb_eq in Heq.
  destruct (Ha a Hin) as (Hi & _). rewrite Heq in Hi. unfold has_image in Hi.
  apply existsb_exists in Hi. destruct Hi as (r & Hr & Hid). apply Z.eqb_eq in Hid.
  apply (StoreInvariants.next_rowid_fresh (map i_id (images T))).
  rewrite <- Hid. apply in_map. exact Hr.
Qed.

Lemma image_ok now members im T :
  refs_ok T -> find_image_by_sha T (mi_sha256 im) = None ->
  (List.length (mi_annotations im) <= 5)%nat ->
  (forall q, In q (mi_quality im) -> label_ok (mq_label q) = true) ->
  exists T',
    import_image now members im T = (T', inr tt) /\ refs_ok T' /\
    forall sha, sha <> mi_sha256 im -> find_image_by_sha T sha = None ->
                find_image_by_sha T' sha = None.
Proof.
  intros Hr Hf Hlen Hq. unfold import_image, bind at 1, get. rewrite Hf.
  destruct (mem _ members); [|exists T; auto].
  set (rel := ("imported/" ++ basename _)%string).
  assert (E1 : upsert_image rel (mi_sha256 im) (mi_created_at im) T =
               (set_images T
                  (images T ++ [mk_image (next_rowid (map i_id (images T))) rel
                                  (mi_sha256 im) (mi_created_at im)]),
                inr (next_rowid (map i_id (images T))))).
  { unfold upsert_image, bind, get, insert_image. rewrite Hf.
    unfold find_image_by_sha in Hf. rewrite (LibFacts.find_none_existsb _ _ Hf).
    reflexivity. }
  rewrite (Reimport.bind_ok _ _ _ _ _ E1).
  set (T1 := set_images T _) in *. set (j := next_rowid _) in *.
  assert (Hr1 : refs_ok T1).
  { pose proof (ArchiveMore.upsert_image_statements rel (mi_sha256 im)
                  (mi_created_at im) T) as Hst.
    rewrite E1 in Hst.
    exact (ArchiveMore.statements_invariant refs_ok StoreInvariants.refs_ok_statement
             _ _ Hst Hr). }
  destruct (records_ok now members j im T1) as (T2 & E2 & Hi2).
  - unfold has_image, T1. cbn [images set_images]. rewrite existsb_app. cbn.
    rewrite Z.eqb_refl. apply orb_true_iff. right. reflexivity.
  - rewrite (rows_on_same T T1 j eq_refl). unfold j.
    rewrite (fresh_image_no_rows T Hr). cbn. exact Hlen.
  - exact Hq.
  - exists T2. split; [exact E2|]. split.
    + pose proof (ArchiveMore.import_records_statements now members j im T1) as Hst.
      rewrite E2 in Hst.
      exact (ArchiveMore.statements_invariant refs_ok StoreInvariants.refs_ok_statement
               _ _ Hst Hr1).
    + intros sha Hne Hnone. unfold find_image_by_sha in *. rewrite Hi2.
      unfold T1. cbn [images set_images].
      rewrite (LibFacts.find_app_none _ _ _ Hnone). cbn.
      destruct (mi_sha256 im =? sha) eqn:E; [|reflexivity].
      apply String.eqb_eq in E. congruence.
Qed.

Lemma images_ok now members ims : forall T,
  refs_ok T -> NoDup (map mi_sha256 ims) ->
  (forall im, In im ims ->
     find_image_by_sha T (mi_sha256 im) = None /\
     (List.length (mi_annotations im) <= 5)%nat /\
     (forall q, In q (mi_quality im) -> label_ok (mq_label q) = true)) ->
  exists T', for_each (import_image now members) ims T = (T', inr tt).
Proof.
  induction ims as [|im ims IH]; intros T Hr Hnd Hall; cbn [for_each];
    [exists T; reflexivity|].
  cbn [map] in Hnd. apply NoDup_cons_iff in Hnd. destruct Hnd as [Hnot Hnd].
  destruct (Hall im (or_introl eq_refl)) as (Hf & Hlen & Hq).
  destruct (image_ok now members im T Hr Hf Hlen Hq) as (T1 & E1 & Hr1 & Hkeep).
  rewrite (Reimport.bind_ok _ _ _ _ _ E1).
  apply (IH T1 Hr1 Hnd). intros im' Hin.
  destruct (Hall im' (or_intror Hin)) as (Hf' & Hlen' & Hq').
  split; [|auto]. apply Hkeep; [|exact Hf'].
  intros Heq. apply Hnot. rewrite <- Heq. apply in_map. exact Hin.
Qed.

(** Distinct selected ids give rows with distinct digests. *)
Lemma selected_digests_distinct s sel :
  keys_ok s -> NoDup sel -> NoDup (map i_sha256 (selected_rows s sel)).
Proof.
  intros Hk. induction sel as [|id sel IH]; intros Hnd; [constructor|].
  apply NoDup_cons_iff in Hnd. destruct Hnd as [Hnot Hnd].
  unfold selected_rows. cbn [flat_map]. fold (selected_rows s sel).
  destruct (find _ (images s)) as [r|] eqn:E; [|exact (IH Hnd)].
  cbn. constructor; [|exact (IH Hnd)].
  intros Hin. apply in_map_iff in Hin. destruct Hin as (r' & Hsha & Hr').
  pose proof (find_some _ _ E) as [Hrin Hid]. apply Z.eqb_eq in Hid.
  assert (r' = r).
  { apply (LibFacts.NoDup_map_inj_in i_sha256 (images s));
      [apply (image_digests s Hk) | apply (ArchiveMore.selected_rows_In _ _ _ Hr')
      | exact Hrin | exact Hsha]. }
  subst r'. unfold selected_rows in Hr'. apply in_flat_map in Hr'.
  destruct Hr' as (id' & Hid' & H).
  destruct (find (fun r0 => (i_id r0 =? id')%Z) (images s)) as [r0|] eqn:E'; [|destruct H].
  destruct H as [->|[]]. apply find_some in E'. destruct E' as [_ E'].
  apply Z.eqb_eq in E'. apply Hnot. congruence.
Qed.

Lemma flat_map_le_filter {A B} (p : A -> bool) (f : A -> list B) l :
  (forall a, (List.length (f a) <= if p a then 1 else 0)%nat) ->
  (List.length (flat_map f l) <= List.length (filter p l))%nat.
Proof.
  intros H. induction l as [|x l IH]; cbn; [lia|].
  rewrite length_app. specialize (H x). destruct (p x); cbn; lia.
Qed.

Lemma exported_annotations_le ia s r :
  (List.length (mi_annotations (export_row ia s r))
   <= List.length (filter (is_active_on (i_id r)) (annotations s)))%nat.
Proof.
  cbn [export_row mi_annotations]. rewrite length_map. unfold get_tags_for_image.
  rewrite (Permutation_length (ArchiveMore.stable_sort_perm _ _)).
  apply flat_map_le_filter. intros a.
  destruct (is_active_on (i_id r) a); [|cbn; lia].
  destruct (find _ (tags s)); [|cbn; lia]. destruct (find _ (users s)); cbn; lia.
Qed.

Lemma exported_labels_ok ia s r q :
  votes_ok s -> In q (mi_quality (export_row ia s r)) -> label_ok (mq_label q) = true.
Proof.
  intros Hv Hin. cbn [export_row mi_quality] in Hin. apply in_map_iff in Hin.
  destruct Hin as ([v u] & <- & Hj). cbn [mq_label fst snd].
  unfold quality_rows in Hj. apply in_flat_map in Hj. destruct Hj as (v' & Hv' & Hj).
  destruct (q_image_id v' =? i_id r)%Z; [|destruct Hj].
  destruct (find _ (users s)); [|destruct Hj]. destruct Hj as [[= <- _]|[]].
  apply (Hv v' Hv').
Qed.

(** Any archive whose images are new to the library, distinct, with at
    most five annotation entries each and with valid labels. *)
Lemma import_archive_ok now a T :
  refs_ok T -> NoDup (map mi_sha256 (m_images (ar_manifest a))) ->
  (forall im, In im (m_images (ar_manifest a)) ->
     find_image_by_sha T (mi_sha256 im) = None /\
     (List.length (mi_annotations im) <= 5)%nat /\
     (forall q, In q (mi_quality im) -> label_ok (mq_label q) = true)) ->
  snd (import_archive now a T) = inr tt.
Proof.
  intros Hr Hnd Hall. unfold import_archive.
  set (inv := fun T' : store => refs_ok T' /\ images T' = images T).
  destruct (Reimport.for_each_inv inv
              (fun u => ensure_user (mu_username u) (mu_display_name u) ;;; ret tt)
              (m_users (ar_manifest a))) with (s0 := T) as (T1 & E1 & Hr1 & Hi1);
    [|split; [exact Hr | reflexivity]|].
  { intros u T0 _ [H0 H0'].
    destruct (ensure_user_ok (mu_username u) (mu_display_name u) T0)
      as (T' & uid & E & _ & Hi & _).
    exists T'. split; [rewrite (Reimport.bind_ok _ _ _ _ _ E); reflexivity|].
    split; [|congruence].
    pose proof (ArchiveMore.ensure_user_statements (mu_username u) (mu_display_name u) T0)
      as Hst. rewrite E in Hst.
    exact (ArchiveMore.statements_invariant refs_ok StoreInvariants.refs_ok_statement
             _ _ Hst H0). }
  rewrite (Reimport.bind_ok _ _ _ _ _ E1).
  destruct (Reimport.for_each_inv inv
              (fun t0 => upsert_tag (mt_name t0) (mt_category t0) (mt_description t0) ;;; ret tt)
              (m_tags (ar_manifest a))) with (s0 := T1) as (T2 & E2 & Hr2 & Hi2);
    [|split; assumption|].
  { intros mt T0 _ [H0 H0'].
    destruct (LibFacts.upsert_tag_ok (mt_name mt) (mt_category mt) (mt_description mt) T0)
      as (T' & r & E & _ & _ & Hi & _).
    exists T'. split; [rewrite (Reimport.bind_ok _ _ _ _ _ E); reflexivity|].
    split; [|congruence].
    pose proof (StoreInvariants.upsert_tag_statements (mt_name mt) (mt_category mt)
                  (mt_description mt) T0) as Hst. rewrite E in Hst.
    exact (ArchiveMore.statements_invariant refs_ok StoreInvariants.refs_ok_statement
             _ _ Hst H0). }
  rewrite (Reimport.bind_ok _ _ _ _ _ E2).
  destruct (images_ok now (ar_members a) (m_images (ar_manifest a)) T2 Hr2 Hnd)
    as (T3 & E3).
  - intros im Hin. destruct (Hall im Hin) as (Hf & Hlen & Hq).
    split; [|auto]. unfold find_image_by_sha in *. rewrite Hi2. exact Hf.
  - rewrite E3. reflexivity.
Qed.



End FreshImport.
